(** * Schema migration: Result algebra, queues and transform chains

    A shallow embedding of the TypeScript sources
    - [types/result.ts]            (module [ResultAlgebra])
    - [structures/pipe.ts]         (module [Pipe])
    - [structures/queue.ts]        (module [Queue])
    - [structures/promiseQueue.ts] (module [PromiseQueue])
    - [utils/arrayUtils.ts]        (module [ArrayUtils])
    - [external/song/types.ts]     (module [Song])
    - [migration/transform.ts]     (modules [Transforms], [TransformChain], [ChainStore])
    - [tasks/migrateAndUpdateStudy.ts] (modules [MigrateStudy], [StudyLoop])
    - [migration/transforms/consensus_sequence/03_to_04.ts], [05_to_06.ts]
      and [12_to_13.ts]          (modules [Cs3to4], [Cs5to6], [Cs12to13])
    - the Ego client, [createEgoClient] (module [Ego])

    JavaScript numbers that the program only uses as integers (versions,
    counters, lengths) are [Z]; strings are [string]; arrays are lists.
    A function supplied by the caller may have side effects and may throw:
    it is a computation [Eff W A] over a world [W] chosen by the caller.
    Whether a value is taken for a Result is decided as the code decides it,
    by a boolean property [success] of the value (class [Inspect]); how the
    records of Song answer is in the module [Records]. *)

From Stdlib Require Import ZArith Lia Ascii String.
From stdpp Require Import base option list gmap strings pretty.

Set Warnings "-register-all".
Local Open Scope Z_scope.

(** ** JavaScript values, as far as diagnostics need them *)

Module Js.

(** The values that reach [failure (...)] and [throw]: the TypeScript type
      [unknown], restricted to what can be written as JSON, and [Error]. *)
Inductive JsValue : Type :=
  | JsNull
  | JsBoolean (b : bool)
  | JsNumber (n : Z)
  | JsString (s : string)
  | JsError (message : string)
  | JsArray (items : list JsValue)
  | JsObject (fields : list (string * JsValue)).

Definition dquote : string := String (Ascii.ascii_of_nat 34) EmptyString.
Definition backslash : string := String (Ascii.ascii_of_nat 92) EmptyString.

Definition hexDigit (n : nat) : string :=
    match n with
    | 0%nat => "0" | 1%nat => "1" | 2%nat => "2" | 3%nat => "3"
    | 4%nat => "4" | 5%nat => "5" | 6%nat => "6" | 7%nat => "7"
    | 8%nat => "8" | 9%nat => "9" | 10%nat => "a" | 11%nat => "b"
    | 12%nat => "c" | 13%nat => "d" | 14%nat => "e" | _ => "f"
    end.

(** One character of a JSON string literal (ECMA-262, QuoteJSONString). *)
Definition escapeChar (c : ascii) : string :=
    let n := Ascii.nat_of_ascii c in
    if decide (n = 34%nat) then backslash +:+ dquote
    else if decide (n = 92%nat) then backslash +:+ backslash
    else if decide (n = 8%nat) then backslash +:+ "b"
    else if decide (n = 9%nat) then backslash +:+ "t"
    else if decide (n = 10%nat) then backslash +:+ "n"
    else if decide (n = 12%nat) then backslash +:+ "f"
    else if decide (n = 13%nat) then backslash +:+ "r"
    else if decide (n < 32)%nat
         then backslash +:+ "u00" +:+ hexDigit (n / 16) +:+ hexDigit (n mod 16)
    else String c EmptyString.

Fixpoint escape (s : string) : string :=
    match s with
    | EmptyString => EmptyString
    | String c rest => escapeChar c +:+ escape rest
    end.

Definition quote (s : string) : string := dquote +:+ escape s +:+ dquote.

Fixpoint join (sep : string) (parts : list string) : string :=
    match parts with
    | [] => ""
    | [p] => p
    | p :: rest => p +:+ sep +:+ join sep rest
    end.

(** [JSON.stringify] on the values above. An [Error] has no enumerable
      own property. *)
Fixpoint stringify (v : JsValue) : string :=
    match v with
    | JsNull => "null"
    | JsBoolean b => if b then "true" else "false"
    | JsNumber n => pretty n
    | JsString s => quote s
    | JsError _ => "{}"
    | JsArray items => "[" +:+ join "," (map stringify items) +:+ "]"
    | JsObject fields =>
        "{" +:+ join "," (map (fun kv => quote (fst kv) +:+ ":" +:+ stringify (snd kv)) fields)
            +:+ "}"
    end.

(** JavaScript truthiness, for the types a generic container is used at. *)
Class Truthy (T : Type) := truthy : T -> bool.
#[export] Instance truthy_number : Truthy Z := fun n => negb (n =? 0).
#[export] Instance truthy_boolean : Truthy bool := fun b => b.
#[export] Instance truthy_string : Truthy string :=
    fun s => match s with EmptyString => false | _ => true end.

(** *** Computations with effects and exceptions *)

Inductive Outcome (A : Type) : Type :=
  | Returned (a : A)
  | Thrown (e : JsValue).
Arguments Returned {A} a.
Arguments Thrown {A} e.

Definition Eff (W A : Type) : Type := W -> Outcome A * W.

Definition ret {W A} (a : A) : Eff W A := fun w => (Returned a, w).
Definition throw {W A} (e : JsValue) : Eff W A := fun w => (Thrown e, w).
Definition bind {W A B} (m : Eff W A) (k : A -> Eff W B) : Eff W B :=
    fun w => match m w with
             | (Returned a, w') => k a w'
             | (Thrown e, w') => (Thrown e, w')
             end.
(** [try { m } catch (e) { handler e }] *)
Definition tryCatch {W A} (m : Eff W A) (handler : JsValue -> Eff W A) : Eff W A :=
    fun w => match m w with
             | (Returned a, w') => (Returned a, w')
             | (Thrown e, w') => handler e w'
             end.

(** [array.map (f)] for an effectful [f], left to right. *)
Fixpoint mapEff {W A B} (f : A -> Eff W B) (l : list A) : Eff W (list B) :=
    match l with
    | [] => ret []
    | x :: rest => bind (f x) (fun y => bind (mapEff f rest) (fun ys => ret (y :: ys)))
    end.

(** A function together with a count of the calls made to it: the world is
    extended by the counter, which every call increments before the function
    does its own work. *)
Definition counted {W T A} (fn : T -> Eff W A) : T -> Eff (nat * W) A :=
  fun x cw =>
    let '(o, w') := fn x (snd cw) in (o, (S (fst cw), w')).

End Js.
Export Js.

Declare Scope eff_scope.
Delimit Scope eff_scope with eff.
Notation "'do' x <- m ;; k" := (bind m (fun x => k))
  (at level 10, x name, m at level 99, k at level 200) : eff_scope.
Local Open Scope eff_scope.

(** ** types/result.ts *)

Module ResultAlgebra.

(** [type Result<T> = { success: true; data: T } | { success: false; errors: string[] }] *)
Inductive Result (T : Type) : Type :=
  | Success (data : T)
  | Failure (errors : list string).
Arguments Success {T} data.
Arguments Failure {T} errors.

(** The field [success] of either variant. *)
Definition isSuccess {T} (r : Result T) : bool :=
    match r with Success _ => true | Failure _ => false end.
(** The fields [data] and [errors], present in one variant each. *)
Definition dataOf {T} (r : Result T) : option T :=
    match r with Success d => Some d | Failure _ => None end.
Definition errorsOf {T} (r : Result T) : option (list string) :=
    match r with Success _ => None | Failure es => Some es end.

(** Modelled from the spec: [unknownToString] of utils/typeUtils.ts is not
      among the sources. Section 4.1: the error list of a Failure is "every
      part rendered to a string (objects/numbers/booleans stringified)", and a
      caught exception is carried by its message. A string is its own
      rendering. *)
Definition unknownToString (v : JsValue) : string :=
    match v with
    | JsString s => s
    | JsError message => message
    | _ => stringify v
    end.

Definition success {T} (data : T) : Result T := Success data.

Definition failure {T} (errors : list JsValue) : Result T :=
    Failure (map unknownToString errors).

(** The union type [Result<T> | T]: a Result made by [success] or [failure],
      or a value of the type [T]. Which of the two a value is taken for is
      decided by [asResult], which looks at the value. *)
Inductive ResultOr (T : Type) : Type :=
  | IsResult (r : Result T)
  | Bare (x : T).
Arguments IsResult {T} r.
Arguments Bare {T} x.

(** [f (...value)], a value spread into an argument list: the elements of an
      array or the characters of a string are the arguments; no other value
      of this model can be spread, and the call then throws a TypeError
      before [f] is entered. *)
Inductive Spread : Type :=
  | Parts (parts : list JsValue)
  | NotIterable.

(** The TypeError of V8 for a value that cannot be spread. *)
Definition spreadError : JsValue :=
    JsError "Spread syntax requires ...iterable[Symbol.iterator] to be a function".

(** How the code reads an object that it takes for a Result:
      [result.success] and then, when that is [true], [result.data], and
      when it is [false], [...result.errors]. *)
Inductive Reading (T : Type) : Type :=
  | ReadSuccess (data : T)
  | ReadFailure (errors : Spread).
Arguments ReadSuccess {T} data.
Arguments ReadFailure {T} errors.

(** The test of [asResult] on a value of the type [T],
      [input && typeof input === 'object' && 'success' in input
       && typeof input.success === 'boolean']:
      [None] for a value that is not an object with a boolean [success]
      property, and for a value that is one, how it reads as a Result. The
      property [data] is read at the type [T], the type at which the code
      hands it on (the object is returned as a [Result<T>]). *)
Class Inspect (T : Type) := inspect : T -> option (Reading T).

(** [undefined] and numbers are not objects, and an array has no [success]
      property. *)
#[export] Instance inspect_undefined : Inspect unit := fun _ => None.
#[export] Instance inspect_number : Inspect Z := fun _ => None.
#[export] Instance inspect_array {A} : Inspect (list A) := fun _ => None.

(** A type none of whose values passes the test. *)
Class Plain (T : Type) `{Inspect T} : Prop := plain : forall x : T, inspect x = None.

#[export] Instance plain_array {A} : Plain (list A).
Proof. intros x. reflexivity. Qed.

(** An object that passes the test is returned as it is, whatever its other
      properties are. *)
Definition asResult {T} `{Inspect T} (input : ResultOr T) : ResultOr T :=
    match input with
    | IsResult r => IsResult r
    | Bare x =>
        match inspect x with
        | Some _ => Bare x
        | None => IsResult (success x)
        end
    end.

(** [result.success], and [result.data] or [...result.errors], of a [result]
      that [asResult] returned. The code reads these properties of no other
      value: of what [asResult] returned in [withResult], and of what a
      function made by [withResult] returned in [check] and in the loop of
      the study. The last case, a value that fails the test and has not
      gone through [asResult], is there to make the function total. *)
Definition reading {T} `{Inspect T} (result : ResultOr T) : Reading T :=
    match result with
    | IsResult (Success data) => ReadSuccess data
    | IsResult (Failure errors) => ReadFailure (Parts (map JsString errors))
    | Bare x =>
        match inspect x with
        | Some read => read
        | None => ReadSuccess x
        end
    end.

(** What [asResult] returns at a type none of whose values passes the test:
      a Result made by [success] or [failure]. *)
Definition made {T} `{Inspect T} `{!Plain T} (result : ResultOr T) : Result T :=
    match result with
    | IsResult r => r
    | Bare x => success x
    end.

Section WithWorld.
Context {W : Type}.

(** [failure (...result.errors)] is outside the [try]. *)
Definition withResult {T S} `{Inspect T} `{Inspect S} (fn : T -> Eff W (ResultOr S))
      (input : ResultOr T) : Eff W (ResultOr S) :=
      let result := asResult input in
      match reading result with
      | ReadFailure (Parts errors) => ret (IsResult (failure errors))
      | ReadFailure NotIterable => throw spreadError
      | ReadSuccess data =>
          tryCatch (do x <- fn data ;; ret (asResult x))
                   (fun e => ret (IsResult (failure [e])))
      end.

(** A promise is a computation that returns (resolves) or throws
        (rejects); [await] is sequencing. *)
Definition withResultAsync {T S} `{Inspect T} `{Inspect S} (fn : T -> Eff W (ResultOr S))
      (input : ResultOr T) : Eff W (ResultOr S) :=
      let inputResult := asResult input in
      match reading inputResult with
      | ReadFailure (Parts errors) => ret (IsResult (failure errors))
      | ReadFailure NotIterable => throw spreadError
      | ReadSuccess data =>
          tryCatch (do promiseResult <- fn data ;; ret (asResult promiseResult))
                   (fun e => ret (IsResult (failure [e])))
      end.
End WithWorld.

End ResultAlgebra.
Export ResultAlgebra.

(** ** structures/pipe.ts *)

Module Pipe.
Section WithWorld.
Context {W : Type}.

(** A function that returns a [Result<B>], where [Result<B> | B] is expected. *)
Definition resultStep {A B} (f : A -> Eff W (Result B)) : A -> Eff W (ResultOr B) :=
  fun a => do r <- f a ;; ret (IsResult r).

(** A [PipeBuilder<A, B>] is determined by its wrapped step [safeF]; the methods
    [run], [build], [into], [await] and [check] are functions of it. A promise
    of a Result is a computation of a Result, so an [AsyncPipeBuilder<A, B>]
    has the same type; its methods are [asyncRun], [asyncBuild], [asyncInto],
    [asyncAwait] and [asyncCheck]. *)
Definition PipeBuilder (A B : Type) : Type := ResultOr A -> Eff W (ResultOr B).

Definition asyncPipe {A B} `{Inspect A} `{Inspect B} (f : A -> Eff W (ResultOr B))
  : PipeBuilder A B :=
  withResultAsync f.

Definition asyncRun {A B} (safeF : PipeBuilder A B) (arg : A) : Eff W (ResultOr B) :=
  safeF (Bare arg).

Definition asyncBuild {A B} (safeF : PipeBuilder A B) : ResultOr A -> Eff W (ResultOr B) :=
  safeF.

Definition asyncInto {A B C} `{Inspect A} `{Inspect B} `{Inspect C}
  (safeF : PipeBuilder A B) (g : B -> Eff W (ResultOr C)) : PipeBuilder A C :=
  let safeG := withResult g in
  asyncPipe (fun arg => do fResult <- safeF (Bare arg) ;; safeG fResult).

Definition asyncAwait {A B C} `{Inspect A} `{Inspect B} `{Inspect C}
  (safeF : PipeBuilder A B) (g : B -> Eff W (ResultOr C)) : PipeBuilder A C :=
  let safeG := withResultAsync g in
  asyncPipe (fun arg => do fResult <- safeF (Bare arg) ;; safeG fResult).

Definition asyncCheck {A B} `{Inspect A} `{Inspect B}
  (safeF : PipeBuilder A B) (g : B -> bool) (error : string) : PipeBuilder A B :=
  asyncPipe (fun arg =>
    do fResult <- safeF (Bare arg) ;;
    match reading fResult with
    | ReadSuccess data =>
        if negb (g data) then ret (IsResult (failure [JsString error])) else ret fResult
    | ReadFailure _ => ret fResult
    end).

Definition pipe {A B} `{Inspect A} `{Inspect B} (f : A -> Eff W (ResultOr B))
  : PipeBuilder A B :=
  withResult f.

Definition run {A B} (safeF : PipeBuilder A B) (arg : A) : Eff W (ResultOr B) :=
  safeF (Bare arg).

Definition build {A B} (safeF : PipeBuilder A B) : ResultOr A -> Eff W (ResultOr B) :=
  safeF.

Definition into {A B C} `{Inspect A} `{Inspect B} `{Inspect C}
  (safeF : PipeBuilder A B) (g : B -> Eff W (ResultOr C)) : PipeBuilder A C :=
  let safeG := withResult g in
  pipe (fun arg => do fResult <- safeF (Bare arg) ;; safeG fResult).

Definition await {A B C} `{Inspect A} `{Inspect B} `{Inspect C}
  (safeF : PipeBuilder A B) (g : B -> Eff W (ResultOr C)) : PipeBuilder A C :=
  let safeG := withResultAsync g in
  asyncPipe (fun arg => do fResult <- safeF (Bare arg) ;; safeG fResult).

Definition check {A B} `{Inspect A} `{Inspect B}
  (safeF : PipeBuilder A B) (g : B -> bool) (error : string) : PipeBuilder A B :=
  pipe (fun arg =>
    do fResult <- safeF (Bare arg) ;;
    match reading fResult with
    | ReadSuccess data =>
        if negb (g data) then ret (IsResult (failure [JsString error])) else ret fResult
    | ReadFailure _ => ret fResult
    end).

End WithWorld.
End Pipe.

(** ** structures/queue.ts *)

Module Queue.

Record QueueEvent (T : Type) : Type := { length : Z; item : T }.
Arguments length {T} _.
Arguments item {T} _.

Section WithStore.
(** The queue lives in a store [St] that its listeners can also reach (a
    listener of the concurrency limiter takes from the queue it listens to):
    [items] reads the closure variable [queue], [setItems] writes it. *)
Context {T : Type} `{Truthy T} {St : Type}.
Variable items : St -> list T.
Variable setItems : list T -> St -> St.

Definition QueueAction : Type := QueueEvent T -> St -> St.

(** The arrays [addActions] and [takeActions], as registered so far. *)
Variable addActions : St -> list QueueAction.
Variable takeActions : St -> list QueueAction.

(** [actions.forEach ((action) => action ({ length: queue.length, item }))]:
    the length is read anew for every listener. *)
Definition trigger (actions : list QueueAction) (item : T) (st : St) : St :=
  fold_left
    (fun st action => action {| length := Z.of_nat (List.length (items st)); item := item |} st)
    actions st.

Definition triggerAddActions (item : T) (st : St) : St :=
  trigger (addActions st) item st.
Definition triggerTakeActions (item : T) (st : St) : St :=
  trigger (takeActions st) item st.

Definition add (item : T) (st : St) : St :=
  let st := setItems (items st ++ [item]) st in
  triggerAddActions item st.

(** [queue.shift ()] removes the first element, if any; [if (item)] then tests
    the element removed for truthiness. *)
Definition take (st : St) : Result T * St :=
  match items st with
  | [] => (failure [JsString "Empty Queue"], st)
  | item :: rest =>
      let st := setItems rest st in
      if truthy item then
        let st := triggerTakeActions item st in
        (success item, st)
      else (failure [JsString "Empty Queue"], st)
  end.

Definition getSize (st : St) : Z := Z.of_nat (List.length (items st)).

End WithStore.
End Queue.

(** ** utils/arrayUtils.ts *)

Module ArrayUtils.

(** [_.findIndex]: the index of the first element that passes, or [-1]. *)
Fixpoint findIndex {T} (array : list T) (test : T -> bool) : Z :=
  match array with
  | [] => -1
  | x :: rest =>
      if test x then 0
      else let i := findIndex rest test in if i <? 0 then -1 else i + 1
  end.

(** [array.slice (from)] and [array.slice (0, upTo)] for indices in range. *)
Definition sliceFromIndex {T} (array : list T) (from : Z) : list T :=
  drop (Z.to_nat from) array.
Definition sliceToIndex {T} (array : list T) (upTo : Z) : list T :=
  take (Z.to_nat upTo) array.

Definition sliceFrom {T} (array : list T) (test : T -> bool) : Result (list T) :=
  let sliceIndex := findIndex array test in
  if sliceIndex <? 0 then
    failure [JsString "Unable to find item in array that matches provided starting position test."]
  else success (sliceFromIndex array sliceIndex).

Definition sliceTo {T} (array : list T) (test : T -> bool) (inclusive : bool)
  : Result (list T) :=
  let sliceIndex := findIndex array test in
  if sliceIndex <? 0 then
    failure [JsString "Unable to find item in array that matches provided end position test."]
  else success (sliceToIndex array (sliceIndex + (if inclusive then 1 else 0))).

End ArrayUtils.
Export ArrayUtils.

(** ** external/song/types.ts *)

Module Song.

Record AnalysisType : Type := { name : string; version : Z }.

#[export] Instance AnalysisType_eq_dec : EqDecision AnalysisType.
Proof. solve_decision. Defined.

(** [_.isEqual] on two [AnalysisType] objects: both fields agree. *)
Definition isEqual (a b : AnalysisType) : bool := bool_decide (a = b).

(** An analysis: its schema identity, the identifiers the program reads, and
    the rest of the document (the schema is [passthrough]). *)
Record Analysis : Type := {
  analysisType : AnalysisType;
  analysisId : string;
  studyId : string;
  document : list (string * JsValue)
}.

(** [{ ...analysis, analysisType }] *)
Definition withAnalysisType (analysis : Analysis) (t : AnalysisType) : Analysis :=
  {| analysisType := t;
     analysisId := analysisId analysis;
     studyId := studyId analysis;
     document := document analysis |}.

(** [_.cloneDeep]: a copy with the same content. *)
Definition cloneDeep (analysis : Analysis) : Analysis := analysis.

Definition analysisTypeToJs (t : AnalysisType) : JsValue :=
  JsObject [("name", JsString (name t)); ("version", JsNumber (version t))].

Definition failureToJs (errors : list string) : JsValue :=
  JsObject [("success", JsBoolean false); ("errors", JsArray (map JsString errors))].

Record PagedAnalysisResponse : Type := {
  analyses : list Analysis;
  totalAnalyses : Z;
  currentTotalAnalyses : Z
}.

End Song.
Export Song.

(** ** Fields of the objects of a document *)

Module Fields.

(** [object[key]]: the value of the field named [key], if there is one. *)
Fixpoint getField (key : string) (fields : list (string * JsValue)) : option JsValue :=
  match fields with
  | [] => None
  | (k, v) :: rest => if decide (k = key) then Some v else getField key rest
  end.

(** [{ ...fields, [key]: value }]: a field that is there keeps its place and
    takes the value, a new one comes last. *)
Fixpoint setField (key : string) (value : JsValue) (fields : list (string * JsValue))
  : list (string * JsValue) :=
  match fields with
  | [] => [(key, value)]
  | (k, v) :: rest =>
      if decide (k = key) then (key, value) :: rest else (k, v) :: setField key value rest
  end.

(** [{ ...fields, ...updates }] and [Object.assign(fields, updates)]: the
    fields of [updates] are set one after the other. *)
Definition assignFields (fields updates : list (string * JsValue)) : list (string * JsValue) :=
  fold_left (fun acc update => setField (fst update) (snd update) acc) updates fields.

(** [Object.assign(analysis, updates)] for updates of the document. *)
Definition assign (analysis : Analysis) (updates : list (string * JsValue)) : Analysis :=
  {| analysisType := analysisType analysis;
     analysisId := analysisId analysis;
     studyId := studyId analysis;
     document := assignFields (document analysis) updates |}.

End Fields.
Export Fields.

(** ** What [asResult] finds in an analysis

    The schema of an analysis is [passthrough]: a record keeps every
    property the server sent, [success], [data] and [errors] among them. *)

Module Records.

(** [...value] for the value of a property, if there is one. The strings of
    this model are read character by character. *)
Definition spread (value : option JsValue) : Spread :=
  match value with
  | Some (JsArray items) => Parts items
  | Some (JsString s) =>
      Parts (map (fun c => JsString (String c EmptyString)) (list_ascii_of_string s))
  | _ => NotIterable
  end.

Definition stringOf (value : option JsValue) : string :=
  match value with Some (JsString s) => s | _ => "" end.
Definition numberOf (value : option JsValue) : Z :=
  match value with Some (JsNumber n) => n | _ => 0 end.
Definition fieldsOf (value : option JsValue) : list (string * JsValue) :=
  match value with Some (JsObject fields) => fields | _ => [] end.

(** The [data] property of a record that passes the test, as the analysis
    that the code takes it for without looking at it. An object with the
    properties of an analysis is that analysis. Of any other value the model
    keeps what it holds of an analysis: a property that is not there, or is
    of another kind, reads as the empty string, as 0 or as no field. *)
Definition asAnalysis (value : option JsValue) : Analysis :=
  let fields := fieldsOf value in
  let type := fieldsOf (getField "analysisType" fields) in
  {| analysisType := {| name := stringOf (getField "name" type);
                        version := numberOf (getField "version" type) |};
     analysisId := stringOf (getField "analysisId" fields);
     studyId := stringOf (getField "studyId" fields);
     document :=
       List.filter
         (fun field =>
            negb (bool_decide (fst field ∈ ["analysisType"; "analysisId"; "studyId"])))
         fields |}.

(** A record is an object; it passes the test when it has a property
    [success] that is a boolean. *)
#[export] Instance inspect_analysis : Inspect Analysis :=
  fun analysis =>
    match getField "success" (document analysis) with
    | Some (JsBoolean true) =>
        Some (ReadSuccess (asAnalysis (getField "data" (document analysis))))
    | Some (JsBoolean false) =>
        Some (ReadFailure (spread (getField "errors" (document analysis))))
    | _ => None
    end.

(** A page is parsed by a schema that keeps [analyses], [totalAnalyses] and
    [currentTotalAnalyses] and no other property. *)
#[export] Instance inspect_page : Inspect PagedAnalysisResponse := fun _ => None.

End Records.
Export Records.


(** ** migration/transform.ts *)

Module Transforms.
Section WithWorld.
Context {W : Type}.

Record Versions : Type := { vstart : AnalysisType; vend : AnalysisType }.

Definition versionsToJs (versions : Versions) : JsValue :=
  JsObject [("start", analysisTypeToJs (vstart versions));
            ("end", analysisTypeToJs (vend versions))].

(** [type Transform = ReturnType<typeof defineTransform>]: any object with
    these three fields. The field [end] is [end_] here. *)
Record Transform : Type := {
  start : AnalysisType;
  end_ : AnalysisType;
  apply : Analysis -> Eff W (Result Analysis)
}.

Definition defineTransform (versions : Versions)
  (transformer : Analysis -> Eff W (Result Analysis)) : Transform :=
  let start := vstart versions in
  let end_ := vend versions in
  let apply := fun input : Analysis =>
    if negb (isEqual (analysisType input) start) then
      ret (failure [JsString "Analysis type does not match expected input type"])
    else
      do transformResult <- transformer input ;;
      match transformResult with
      | Failure errors =>
          ret (failure [JsString "Error applying transform"; versionsToJs versions;
                        failureToJs errors])
      | Success data => ret (success (withAnalysisType data end_))
      end in
  {| start := start; end_ := end_; apply := apply |}.

End WithWorld.
Arguments Transform W : clear implicits.
End Transforms.
Export Transforms.

Module TransformChain.
Section WithWorld.
Context {W : Type}.

(** The chain object returned by [extendTransformChain]: its methods close
    over the array [chain]. *)
Record TransformChain : Type := { chain : list (Transform W) }.

Definition connectionError (index : nat) (received expected : AnalysisType) : string :=
  "Transform provided at index " +:+ pretty index
    +:+ " does not connect to the transform chain. Received: "
    +:+ stringify (analysisTypeToJs received)
    +:+ " - Expected: " +:+ stringify (analysisTypeToJs expected).

(** The body of [transforms.forEach ((transform, index) => ...)] from position
    [index] on, over the array [chain] built so far; it is left by [throw]. *)
Fixpoint forEachTransform (transforms : list (Transform W)) (index : nat)
  (chain : list (Transform W)) : Outcome (list (Transform W)) :=
  match transforms with
  | [] => Returned chain
  | transform :: rest =>
      let end' := match last chain with
                  | Some previous => end_ previous
                  | None => start transform
                  end in
      if negb (isEqual end' (start transform)) then
        Thrown (JsString (connectionError index (end_ transform) end'))
      else forEachTransform rest (S index) (chain ++ [transform])
  end.

(** The chain object is an object literal with the six methods and no other
    property. *)
#[global] Instance inspect_chain : Inspect TransformChain := fun _ => None.
#[global] Instance plain_chain : Plain TransformChain.
Proof. intros x. reflexivity. Qed.

Definition extendTransformChain (baseChain : list (Transform W))
  (transforms : list (Transform W)) : Result TransformChain :=
  match forEachTransform transforms 0 baseChain with
  | Thrown e => failure [e]
  | Returned chain => made (asResult (Bare {| chain := chain |}))
  end.

Definition createTransformChain (transforms : list (Transform W))
  : Result TransformChain :=
  extendTransformChain [] transforms.

(** Reading [.start] or [.end] of [undefined]. *)
Definition typeError (property : string) : JsValue :=
  JsError ("Cannot read properties of undefined (reading '" +:+ property +:+ "')").

Definition getStart (c : TransformChain) : Outcome AnalysisType :=
  match chain c with
  | first :: _ => Returned (start first)
  | [] => Thrown (typeError "start")
  end.

Definition getEnd (c : TransformChain) : Outcome AnalysisType :=
  match last (chain c) with
  | Some final => Returned (end_ final)
  | None => Thrown (typeError "end")
  end.

Definition add (c : TransformChain) (transform : Transform W) : Result TransformChain :=
  extendTransformChain (chain c) [transform].

Definition from (c : TransformChain) (version : AnalysisType) : Result TransformChain :=
  match sliceFrom (chain c) (fun transform => isEqual (start transform) version) with
  | Failure errors =>
      failure (JsString "Migration chain does not have a transform to start from for analyses of this type"
                 :: analysisTypeToJs version :: map JsString errors)
  | Success data => extendTransformChain data []
  end.

Definition to (c : TransformChain) (version : AnalysisType) : Result TransformChain :=
  match sliceTo (chain c) (fun transform => isEqual (end_ transform) version) true with
  | Failure errors =>
      failure (JsString "Migration chain does not have a transform to end on for analyses of this type"
                 :: analysisTypeToJs version :: map JsString errors)
  | Success data => extendTransformChain data []
  end.

(** [chain.reduce ((acc, transform) => withResult (transform.apply) (acc), init)] *)
Fixpoint reduce (transforms : list (Transform W)) (acc : ResultOr Analysis)
  : Eff W (ResultOr Analysis) :=
  match transforms with
  | [] => ret acc
  | transform :: rest =>
      do acc' <- withResult (Pipe.resultStep (Transforms.apply transform)) acc ;;
      reduce rest acc'
  end.

Definition apply (c : TransformChain) (analysis : Analysis) : Eff W (ResultOr Analysis) :=
  reduce (chain c) (asResult (Bare (cloneDeep analysis))).

End WithWorld.
Arguments TransformChain W : clear implicits.
End TransformChain.

(** ** structures/promiseQueue.ts *)

Module PromiseQueue.

(** A unit of work [() => Promise<void>], known by the order of its creation.
    A function is truthy. *)
Inductive Work : Type := work (id : nat).

#[export] Instance Work_eq_dec : EqDecision Work.
Proof. solve_decision. Defined.
#[export] Instance truthy_work : Truthy Work := fun _ => true.

(** [type QueueEvent = { running: number; queued: number }] *)
Record QueueEvent : Type := { running : Z; queued : Z }.

Inductive Hook : Type := OnAdd | OnStart | OnFinish | OnError.

(** One call of a registered listener: which one, on which hook, with which
    event (and error, for [onError]). *)
Record Call : Type := {
  listener : nat;
  hook : Hook;
  event : QueueEvent;
  error : option JsValue
}.

(** The closure variables of one [PromiseQueue], and what the run time holds
    for it: the calls made to listeners, the work functions called so far, the
    promises [attemptStart] is waiting for, and the errors it threw again. *)
Record State : Type := {
  activeProcesses : Z;
  queue : list Work;
  addObservers : list nat;
  startActions : list nat;
  finishActions : list nat;
  errorActions : list nat;
  calls : list Call;
  started : list Work;
  awaited : list Work;
  rethrown : list JsValue
}.

Definition setActiveProcesses (n : Z) (st : State) : State :=
  {| activeProcesses := n; queue := queue st; addObservers := addObservers st;
     startActions := startActions st; finishActions := finishActions st;
     errorActions := errorActions st; calls := calls st; started := started st;
     awaited := awaited st; rethrown := rethrown st |}.
Definition setQueue (q : list Work) (st : State) : State :=
  {| activeProcesses := activeProcesses st; queue := q; addObservers := addObservers st;
     startActions := startActions st; finishActions := finishActions st;
     errorActions := errorActions st; calls := calls st; started := started st;
     awaited := awaited st; rethrown := rethrown st |}.
Definition setCalls (c : list Call) (st : State) : State :=
  {| activeProcesses := activeProcesses st; queue := queue st; addObservers := addObservers st;
     startActions := startActions st; finishActions := finishActions st;
     errorActions := errorActions st; calls := c; started := started st;
     awaited := awaited st; rethrown := rethrown st |}.
Definition setAwaited (a : list Work) (st : State) : State :=
  {| activeProcesses := activeProcesses st; queue := queue st; addObservers := addObservers st;
     startActions := startActions st; finishActions := finishActions st;
     errorActions := errorActions st; calls := calls st; started := started st;
     awaited := a; rethrown := rethrown st |}.
Definition setStarted (s : list Work) (st : State) : State :=
  {| activeProcesses := activeProcesses st; queue := queue st; addObservers := addObservers st;
     startActions := startActions st; finishActions := finishActions st;
     errorActions := errorActions st; calls := calls st; started := s;
     awaited := awaited st; rethrown := rethrown st |}.
Definition setRethrown (r : list JsValue) (st : State) : State :=
  {| activeProcesses := activeProcesses st; queue := queue st; addObservers := addObservers st;
     startActions := startActions st; finishActions := finishActions st;
     errorActions := errorActions st; calls := calls st; started := started st;
     awaited := awaited st; rethrown := r |}.
Definition setListeners (h : Hook) (l : list nat) (st : State) : State :=
  {| activeProcesses := activeProcesses st; queue := queue st;
     addObservers := match h with OnAdd => l | _ => addObservers st end;
     startActions := match h with OnStart => l | _ => startActions st end;
     finishActions := match h with OnFinish => l | _ => finishActions st end;
     errorActions := match h with OnError => l | _ => errorActions st end;
     calls := calls st; started := started st;
     awaited := awaited st; rethrown := rethrown st |}.

Definition listeners (h : Hook) (st : State) : list nat :=
  match h with
  | OnAdd => addObservers st
  | OnStart => startActions st
  | OnFinish => finishActions st
  | OnError => errorActions st
  end.

Definition getSize (st : State) : Z := Queue.getSize queue st.
Definition getRunning (st : State) : Z := activeProcesses st.

(** [action ({ queued, running, error })] for one listener. A listener is
    taken to return: what happens when a listener throws is not part of
    this model. *)
Definition call (h : Hook) (queued : Z) (err : option JsValue) (l : nat) (st : State)
  : State :=
  setCalls (calls st ++ [{| listener := l; hook := h;
                            event := {| running := activeProcesses st; queued := queued |};
                            error := err |}]) st.

(** [actions.forEach ((action) => action ({ queued: queue.getSize (), running: activeProcesses }))] *)
Definition fire (h : Hook) (err : option JsValue) (st : State) : State :=
  fold_left (fun st l => call h (getSize st) err l st) (listeners h st) st.

Section WithLimit.
Variable maxConcurrency : Z.

(** [attemptStart] up to its [await]: the work function is called, and the
    rest of the body runs when its promise settles ([resume]). *)
Definition attemptStart (st : State) : State :=
  if activeProcesses st <? maxConcurrency then
    let '(next, st) := Queue.take queue setQueue (fun _ => []) st in
    match next with
    | Success data =>
        let st := setActiveProcesses (activeProcesses st + 1) st in
        let st := fire OnStart None st in
        setAwaited (awaited st ++ [data]) (setStarted (started st ++ [data]) st)
    | Failure _ => st
    end
  else st.

(** [attemptStart] from its [await] on, once the awaited promise has settled. *)
Definition resume (outcome : Outcome unit) (st : State) : State :=
  match outcome with
  | Returned _ =>
      let st := setActiveProcesses (activeProcesses st - 1) st in
      let st := fire OnFinish None st in
      attemptStart st
  | Thrown err =>
      let st := setActiveProcesses (activeProcesses st - 1) st in
      if negb (Z.of_nat (List.length (errorActions st)) =? 0) then
        let st := fire OnError (Some err) st in
        attemptStart st
      else setRethrown (rethrown st ++ [err]) st
  end.

(** The listeners of the inner queue: [attemptStart] first (registered by the
    constructor), then what [onAdd] registered. *)
Definition queueAddActions (st : State) : list (Queue.QueueEvent Work -> State -> State) :=
  (fun _ => attemptStart)
    :: map (fun l event => call OnAdd (Queue.length event) None l) (addObservers st).

Definition add (fn : Work) (st : State) : State :=
  Queue.add queue setQueue queueAddActions fn st.

(** [onAdd], [onStart], [onFinish], [onError] push a listener. *)
Definition on (h : Hook) (action : nat) (st : State) : State :=
  setListeners h (listeners h st ++ [action]) st.

(** What can happen to a queue: a call to [add], a registration, or the
    promise of a started work function settling. *)
Inductive Step : Type :=
| CallAdd (fn : Work)
| CallOn (h : Hook) (action : nat)
| Settle (fn : Work) (outcome : Outcome unit).

Fixpoint removeFirst (fn : Work) (l : list Work) : list Work :=
  match l with
  | [] => []
  | x :: rest => if decide (x = fn) then rest else x :: removeFirst fn rest
  end.

(** A promise settles only if it is awaited. *)
Definition step (s : Step) (st : State) : option State :=
  match s with
  | CallAdd fn => Some (add fn st)
  | CallOn h action => Some (on h action st)
  | Settle fn outcome =>
      if decide (fn ∈ awaited st)
      then Some (resume outcome (setAwaited (removeFirst fn (awaited st)) st))
      else None
  end.

Fixpoint exec (steps : list Step) (st : State) : option State :=
  match steps with
  | [] => Some st
  | s :: rest => match step s st with Some st' => exec rest st' | None => None end
  end.

(** Every work function resolves after the same delay: promises settle in the
    order in which the functions were called. *)
Fixpoint drain (fuel : nat) (st : State) : State :=
  match fuel with
  | O => st
  | S fuel =>
      match awaited st with
      | [] => st
      | fn :: rest => drain fuel (resume (Returned tt) (setAwaited rest st))
      end
  end.

End WithLimit.

(** [PromiseQueue (maxConcurrency)] *)
Definition create : State :=
  {| activeProcesses := 0; queue := []; addObservers := []; startActions := [];
     finishActions := []; errorActions := []; calls := []; started := [];
     awaited := []; rethrown := [] |}.

End PromiseQueue.


(** ** tasks/migrateAndUpdateStudy.ts *)

Module MigrateStudy.

Record Counts : Type := {
  successful : Z;
  error : Z;
  skipped : Z;
  processed : Z;
  total : Z
}.

Record MigrationSummary : Type := {
  study : string;
  completed : bool;
  counts : Counts
}.

Section WithWorld.
Context {W : Type}.

(** What one run of [migrateAndUpdateStudy] holds: the summary object, which
    is updated in place, the variables [totalAnalyses] and [nextOffset],
    whether the one-time logger has run, and the world outside. *)
Record Run : Type := {
  summary : MigrationSummary;
  totalAnalyses : Z;
  nextOffset : Z;
  logged : bool;
  world : W
}.

Definition setSummary (s : MigrationSummary) (run : Run) : Run :=
  {| summary := s; totalAnalyses := totalAnalyses run; nextOffset := nextOffset run;
     logged := logged run; world := world run |}.
Definition setWorld (w : W) (run : Run) : Run :=
  {| summary := summary run; totalAnalyses := totalAnalyses run; nextOffset := nextOffset run;
     logged := logged run; world := w |}.
Definition setCounts (c : Counts) (s : MigrationSummary) : MigrationSummary :=
  {| study := study s; completed := completed s; counts := c |}.

(** A computation of the world outside, run from within the study. *)
Definition outside {A} (m : Eff W A) : Eff Run A :=
  fun run => let '(a, w) := m (world run) in (a, setWorld w run).

(** A computation that only reads the program's own values. *)
Definition pure {A} (o : Outcome A) : Eff Run A := fun run => (o, run).

(** [array.forEach (body)] for a body that may throw. *)
Fixpoint forEach {A} (body : A -> Eff Run unit) (l : list A) : Eff Run unit :=
  match l with
  | [] => ret tt
  | x :: rest => do _ <- body x ;; forEach body rest
  end.

(** [array.filter (test)] for a test that may throw. *)
Fixpoint filterEff {A} (test : A -> Eff Run bool) (l : list A) : Eff Run (list A) :=
  match l with
  | [] => ret []
  | x :: rest =>
      do keep <- test x ;;
      do kept <- filterEff test rest ;;
      ret (if keep then x :: kept else kept)
  end.

(** The chain exported by migration/transforms/consensus_sequence, the page
    size and the request limit of the configuration, and the two operations
    of the Song client. *)
Variable consensusSequenceMigrationChain : TransformChain.TransformChain W.
Variable pageSize : Z.
Variable maxConcurrent : Z.
Variable getAnalysesPage : Z -> Z -> Eff W (Result PagedAnalysisResponse).
Variable updateAnalysis : Analysis -> Eff W (Result Analysis).

Definition filterSkippedAnalyses (analyses : list Analysis) : Eff Run (list Analysis) :=
  do filtered <-
    filterEff
      (fun analysis =>
         do chainEnd <- pure (TransformChain.getEnd consensusSequenceMigrationChain) ;;
         ret (version (analysisType analysis) <? version chainEnd))
      analyses ;;
  let skippedCount := Z.of_nat (List.length analyses) - Z.of_nat (List.length filtered) in
  fun run =>
    let c := counts (summary run) in
    let c := {| successful := successful c; error := error c;
                skipped := skipped c + skippedCount;
                processed := processed c + skippedCount; total := total c |} in
    (Returned filtered, setSummary (setCounts c (summary run)) run).

Section WithMigrate.
(** [migrateAnalyses] of tasks/migrateAnalyses.ts, whatever it does with the
    analyses it is given. *)
Variable migrateAnalyses : list Analysis -> Eff Run (ResultOr (list (ResultOr Analysis))).

Definition applyMigrationsToPage
  : ResultOr PagedAnalysisResponse -> Eff Run (ResultOr (list (ResultOr Analysis))) :=
  Pipe.build
    (Pipe.into
       (Pipe.into
          (Pipe.pipe (fun page : PagedAnalysisResponse => ret (Bare (Song.analyses page))))
          (fun analyses => do filtered <- filterSkippedAnalyses analyses ;; ret (Bare filtered)))
       migrateAnalyses).

(** Modelled from the spec: structures/once.ts is not among the sources.
    Section 4.6: "the total is learned from the first page's response"; the
    function wrapped by [once] runs at the first call and not again. *)
Definition oneTimeLogger (page : PagedAnalysisResponse) : Eff Run unit :=
  fun run =>
    if logged run then (Returned tt, run)
    else
      let c := counts (summary run) in
      let c := {| successful := successful c; error := error c; skipped := skipped c;
                  processed := processed c; total := Song.totalAnalyses page |} in
      (Returned tt,
       {| summary := setCounts c (summary run); totalAnalyses := totalAnalyses run;
          nextOffset := nextOffset run; logged := true; world := world run |}).

Definition fetchNextPage : Eff Run (Result PagedAnalysisResponse) :=
  do offset <- (fun run => (Returned (nextOffset run), run)) ;;
  do result <- outside (getAnalysesPage offset pageSize) ;;
  match result with
  | Success data =>
      do _ <- oneTimeLogger data ;;
      fun run =>
        (Returned result,
         {| summary := summary run; totalAnalyses := Song.totalAnalyses data;
            nextOffset := nextOffset run + pageSize; logged := logged run;
            world := world run |})
  | Failure _ => ret result
  end.

(** Modelled from the spec: structures/limitConcurrency.ts is not among the
    sources. Section 4.6: each record is dispatched "to the update capability
    through the concurrency limiter"; the limiter decides when the call is
    made, the result is that of the function it wraps. *)
Definition limitConcurrency {A B} (limit : Z) (fn : A -> Eff Run B) : A -> Eff Run B := fn.

Definition sendAnalysisUpdate : ResultOr Analysis -> Eff Run (ResultOr Analysis) :=
  limitConcurrency maxConcurrent
    (withResultAsync (fun analysis =>
       do r <- outside (updateAnalysis analysis) ;; ret (IsResult r))).

(** [mapAsync (fn) (input) = Promise.all (input.map (fn))] *)
Definition mapAsync {A B} (fn : A -> Eff Run B) (input : list A) : Eff Run (list B) :=
  mapEff fn input.

(** The pipeline of one pass through the loop, from the page fetched on. *)
Definition pagePipeline (fetch : Eff Run (Result PagedAnalysisResponse))
  : Eff Run (ResultOr (list (ResultOr Analysis))) :=
  Pipe.asyncRun
    (Pipe.asyncAwait
       (Pipe.asyncInto
          (Pipe.asyncPipe (Pipe.resultStep (fun _ : unit => fetch)))
          (fun page => applyMigrationsToPage (Bare page)))
       (fun results => do updated <- mapAsync sendAnalysisUpdate results ;; ret (Bare updated)))
    tt.

(** The body of [pageResult.data.forEach]: the counts and then, for a result
    that is not a success, [logger.error (...result.errors)]. *)
Definition countResult (result : ResultOr Analysis) : Eff Run unit :=
  fun run =>
    let c := counts (summary run) in
    match reading result with
    | ReadSuccess _ =>
        let c := {| successful := successful c + 1; error := error c; skipped := skipped c;
                    processed := processed c + 1; total := total c |} in
        (Returned tt, setSummary (setCounts c (summary run)) run)
    | ReadFailure errors =>
        let c := {| successful := successful c; error := error c + 1; skipped := skipped c;
                    processed := processed c + 1; total := total c |} in
        let run := setSummary (setCounts c (summary run)) run in
        match errors with
        | Parts _ => (Returned tt, run)
        | NotIterable => (Thrown spreadError, run)
        end
    end.

(** One pass through the body of the [while] loop: [None] when the loop goes
    on, the summary returned when the page failed. The page result is a
    Result of an array. *)
Definition pass (fetch : Eff Run (Result PagedAnalysisResponse))
  : Eff Run (option MigrationSummary) :=
  do pageResult <- pagePipeline fetch ;;
  match made pageResult with
  | Failure _ => fun run => (Returned (Some (summary run)), run)
  | Success data => do _ <- forEach countResult data ;; ret None
  end.

End WithMigrate.

(** Modelled from the spec: tasks/migrateAnalyses.ts is not among the sources.
    Section 4.6: "apply the Transform Chain to every remaining record (a
    record-level failure here is also reported as an error and does not abort
    the page)": one Result per record, in the order of the page. *)
Definition migrateAnalyses (analyses : list Analysis)
  : Eff Run (ResultOr (list (ResultOr Analysis))) :=
  do results <-
    mapEff (fun analysis =>
              outside (TransformChain.apply consensusSequenceMigrationChain analysis))
           analyses ;;
  ret (Bare results).

End WithWorld.
Arguments Run W : clear implicits.
End MigrateStudy.

(** ** migration/transform.ts, with arrays held by reference

    [TransformChain] above reads an array as its content. Here an array is a
    location of a store, [push] writes in place, and a chain object is the
    location of the array its methods close over: this is the level at which
    a method could change the chain it is called on. *)

Module ChainStore.

(** The arrays of transforms, by location. *)
Abbreviation Store W := (gmap nat (list (Transform W))).

Section WithWorld.
Context {W : Type}.

(** A new array with the given content. *)
Definition alloc (content : list (Transform W)) (s : Store W) : nat * Store W :=
  let r := fresh (dom s) in (r, <[r := content]> s).

(** [array.push (transform)] *)
Definition push (r : nat) (transform : Transform W) (s : Store W) : Store W :=
  alter (fun content => content ++ [transform]) r s.

Definition read (r : nat) (s : Store W) : list (Transform W) :=
  default [] (s !! r).

Fixpoint forEachTransform (transforms : list (Transform W)) (index : nat)
  (chain : nat) (s : Store W) : Outcome unit * Store W :=
  match transforms with
  | [] => (Returned tt, s)
  | transform :: rest =>
      let end' := match last (read chain s) with
                  | Some previous => end_ previous
                  | None => start transform
                  end in
      if negb (isEqual end' (start transform)) then
        (Thrown (JsString (TransformChain.connectionError index (end_ transform) end')), s)
      else forEachTransform rest (S index) chain (push chain transform s)
  end.

(** A chain object, known by the location of its array: an object literal
    with the six methods and no other property. *)
#[global] Instance inspect_location : Inspect nat := fun _ => None.
#[global] Instance plain_location : Plain nat.
Proof. intros x. reflexivity. Qed.

(** [const chain = [...baseChain]], then the loop over [chain]. *)
Definition extendTransformChain (baseChain : nat) (transforms : list (Transform W))
  (s : Store W) : Result nat * Store W :=
  let '(chain, s) := alloc (read baseChain s) s in
  match forEachTransform transforms 0 chain s with
  | (Thrown e, s) => (failure [e], s)
  | (Returned _, s) => (made (asResult (Bare chain)), s)
  end.

Definition add (c : nat) (transform : Transform W) (s : Store W) : Result nat * Store W :=
  extendTransformChain c [transform] s.

(** [sliceFrom] and [sliceTo] return a new array ([array.slice]). *)
Definition from (c : nat) (version : AnalysisType) (s : Store W) : Result nat * Store W :=
  match sliceFrom (read c s) (fun transform => isEqual (start transform) version) with
  | Failure errors =>
      (failure (JsString "Migration chain does not have a transform to start from for analyses of this type"
                  :: analysisTypeToJs version :: map JsString errors), s)
  | Success data =>
      let '(sliced, s) := alloc data s in
      extendTransformChain sliced [] s
  end.

Definition to (c : nat) (version : AnalysisType) (s : Store W) : Result nat * Store W :=
  match sliceTo (read c s) (fun transform => isEqual (end_ transform) version) true with
  | Failure errors =>
      (failure (JsString "Migration chain does not have a transform to end on for analyses of this type"
                  :: analysisTypeToJs version :: map JsString errors), s)
  | Success data =>
      let '(sliced, s) := alloc data s in
      extendTransformChain sliced [] s
  end.

End WithWorld.
End ChainStore.

(** ** tasks/migrateAndUpdateStudy.ts: the loop *)

Module StudyLoop.
Section WithWorld.
Context {W : Type}.
Variable consensusSequenceMigrationChain : TransformChain.TransformChain W.
Variable pageSize : Z.
Variable maxConcurrent : Z.
Variable getAnalysesPage : Z -> Z -> Eff W (Result PagedAnalysisResponse).
Variable updateAnalysis : Analysis -> Eff W (Result Analysis).
Variable migrateAnalyses : list Analysis -> Eff W (ResultOr (list (ResultOr Analysis))).

(** The state set up before the loop. *)
Definition setup (study : string) (w : W) : MigrateStudy.Run W :=
  {| MigrateStudy.summary :=
       {| MigrateStudy.study := study;
          MigrateStudy.completed := false;
          MigrateStudy.counts :=
            {| MigrateStudy.successful := 0; MigrateStudy.error := 0;
               MigrateStudy.skipped := 0; MigrateStudy.processed := 0;
               MigrateStudy.total := 0 |} |};
     MigrateStudy.totalAnalyses := 1;
     MigrateStudy.nextOffset := 0;
     MigrateStudy.logged := false;
     MigrateStudy.world := w |}.

(** One pass of the loop as the function runs it: the page comes from
    [fetchNextPage], and [migrateAnalyses], a function of another module, acts
    on the world outside only. *)
Definition onePass : Eff (MigrateStudy.Run W) (option MigrateStudy.MigrationSummary) :=
  MigrateStudy.pass consensusSequenceMigrationChain maxConcurrent updateAnalysis
    (fun analyses => MigrateStudy.outside (migrateAnalyses analyses))
    (MigrateStudy.fetchNextPage pageSize getAnalysesPage).

(** [while (nextOffset < totalAnalyses) { ... }] followed by
    [return { ...summary, completed: true }]; the summary is returned from
    within the loop when a page failed. [fuel] bounds the number of passes:
    the result is [None] when it is used up. *)
Fixpoint loop (fuel : nat) (run : MigrateStudy.Run W)
  : Outcome (option MigrateStudy.MigrationSummary) * MigrateStudy.Run W :=
  if MigrateStudy.nextOffset run <? MigrateStudy.totalAnalyses run then
    match fuel with
    | O => (Returned None, run)
    | S fuel =>
        match onePass run with
        | (Returned None, run') => loop fuel run'
        | (Returned (Some summary), run') => (Returned (Some summary), run')
        | (Thrown e, run') => (Thrown e, run')
        end
    end
  else
    (Returned (Some {| MigrateStudy.study := MigrateStudy.study (MigrateStudy.summary run);
                       MigrateStudy.completed := true;
                       MigrateStudy.counts := MigrateStudy.counts (MigrateStudy.summary run) |}),
     run).

Definition migrateAndUpdateStudy (fuel : nat) (study : string) (w : W)
  : Outcome (option MigrateStudy.MigrationSummary) * MigrateStudy.Run W :=
  loop fuel (setup study w).

End WithWorld.
End StudyLoop.

(** ** migration/transforms/consensus_sequence/03_to_04.ts *)

Module Cs3to4.
Section WithName.
Context {W : Type}.
(** [CS_NAME] of constants.ts. *)
Variable CS_NAME : string.
(** [fasta_header_nameRegex.test]. *)
Variable fasta_header_nameRegex : string -> bool.

(** What [InputSchema] reads of an analysis that matches it. *)
Record InputSchema : Type := {
  sample_collection : list (string * JsValue);
  fasta_header_name : string
}.

(** [InputSchema.safeParse(input)]: the type is [CS_NAME] at version 3,
    [sample_collection] is an object and its [fasta_header_name] a string. *)
Definition safeParse (input : Analysis) : option InputSchema :=
  if bool_decide (name (analysisType input) = CS_NAME) && (version (analysisType input) =? 3)
  then
    match getField "sample_collection" (document input) with
    | Some (JsObject fields) =>
        match getField "fasta_header_name" fields with
        | Some (JsString header) =>
            Some {| sample_collection := fields; fasta_header_name := header |}
        | _ => None
        end
    | _ => None
    end
  else None.

Definition matchesInputSchema (input : Analysis) : bool :=
  match safeParse input with Some _ => true | None => false end.

Definition transform (analysis : Analysis) : Result Analysis :=
  match safeParse analysis with
  | None =>
      failure [JsString "Provided analysis does not match the version 3 schema and cannot be migrated to version 4"]
  | Some input =>
      let currentFastaHeaderName := fasta_header_name input in
      if negb (fasta_header_nameRegex currentFastaHeaderName) then
        failure [JsString "Cannot update `sample_collection.fasta_header_name` since the available value does not match the required regular expression.";
                 JsString (studyId analysis);
                 JsString (analysisId analysis);
                 JsString (fasta_header_name input)]
      else
        success
          (assign (cloneDeep analysis)
             [("sample_collection",
               JsObject (assignFields (sample_collection input)
                           [("fasta_header_name", JsString currentFastaHeaderName)]))])
  end.

Definition cs3to4 : Transform W :=
  defineTransform
    {| vstart := {| name := CS_NAME; version := 3 |};
       vend := {| name := CS_NAME; version := 4 |} |}
    (fun analysis => ret (transform analysis)).

End WithName.
End Cs3to4.

(** ** migration/transforms/consensus_sequence/05_to_06.ts

    The ages of this model are whole numbers. *)

Module Cs5to6.
Section WithName.
Context {W : Type}.
(** [CS_NAME] of constants.ts. *)
Variable CS_NAME : string.

(** The values of [host_age_bin] in [InputSchema]. *)
Definition host_age_bins : list string :=
  ["0 - 9"; "10 - 19"; "20 - 29"; "30 - 39"; "40 - 49"; "50 - 59"; "60 - 69"; "70 - 79";
   "80 - 89"; "90 - 99"; "100+"; "Not Applicable"; "Missing"; "Not Collected"; "Not Provided";
   "Restricted Access"].

(** What [InputSchema] reads of an analysis that matches it; [host_age] is
    [None] for [null]. *)
Record InputSchema : Type := {
  host : list (string * JsValue);
  host_age : option Z;
  host_age_bin : string
}.

(** [zod.number().nullable()] on a field. *)
Definition nullableNumber (field : option JsValue) : option (option Z) :=
  match field with
  | Some (JsNumber n) => Some (Some n)
  | Some JsNull => Some None
  | _ => None
  end.

(** [InputSchema.safeParse(input)]. *)
Definition safeParse (input : Analysis) : option InputSchema :=
  if bool_decide (name (analysisType input) = CS_NAME) && (version (analysisType input) =? 5)
  then
    match getField "host" (document input) with
    | Some (JsObject fields) =>
        match nullableNumber (getField "host_age" fields), getField "host_age_bin" fields with
        | Some age, Some (JsString bin) =>
            if bool_decide (bin ∈ host_age_bins)
            then Some {| host := fields; host_age := age; host_age_bin := bin |}
            else None
        | _, _ => None
        end
    | _ => None
    end
  else None.

Definition matchesInputSchema (input : Analysis) : bool :=
  match safeParse input with Some _ => true | None => false end.

Definition isValidAgeBin (min max : Z) (age : option Z) : bool :=
  match age with
  | None => true
  | Some age => (min <=? age) && (age <=? max)
  end.

(** [Number(bin.charAt(0))] for a bin whose first character is a digit, as
    it is for the nine bins the function is called with. *)
Definition firstDigit (bin : string) : Z :=
  match bin with
  | EmptyString => 0
  | String c _ => Z.of_nat (Ascii.nat_of_ascii c) - 48
  end.

Definition getAgeBinValidator (bin : string) : option Z -> bool :=
  let decade := firstDigit bin * 10 in
  isValidAgeBin decade (decade + 9).

Definition ageToJs (age : option Z) : JsValue :=
  match age with Some n => JsNumber n | None => JsNull end.

Definition transform (analysis : Analysis) : Result Analysis :=
  match safeParse analysis with
  | None =>
      failure [JsString "Provided analysis does not match the version 5 schema and cannot be migrated to version 6"]
  | Some input =>
      if bool_decide (host_age_bin input
                      ∈ ["0 - 9"; "10 - 19"; "20 - 29"; "30 - 39"; "40 - 49"; "50 - 59";
                         "60 - 69"; "70 - 79"; "80 - 89"])
      then
        if getAgeBinValidator (host_age_bin input) (host_age input) then success analysis
        else
          failure [JsString "host.host_age is non-null and that value is outside of the given age bin";
                   JsObject [("bin", JsString (host_age_bin input));
                             ("age", ageToJs (host_age input))]]
      else if bool_decide (host_age_bin input ∈ ["90 - 99"; "100+"])
      then
        success
          (assign (cloneDeep analysis)
             [("host",
               JsObject (assignFields (host input)
                           [("host_age", JsNull);
                            ("host_age_null_reason", JsString "Restricted Access");
                            ("host_age_bin", JsString "90+")]))])
      else success analysis
  end.

Definition cs5to6 : Transform W :=
  defineTransform
    {| vstart := {| name := CS_NAME; version := 5 |};
       vend := {| name := CS_NAME; version := 6 |} |}
    (fun analysis => ret (transform analysis)).

End WithName.
End Cs5to6.

(** ** migration/transforms/consensus_sequence/12_to_13.ts *)

Module Cs12to13.
Section WithName.
Context {W : Type}.
(** [CS_NAME] of constants.ts. *)
Variable CS_NAME : string.

(** What [InputSchema] reads of an analysis that matches it. *)
Record InputSchema : Type := {
  experiment : list (string * JsValue);
  purpose_of_sequencing : string;
  sample_collection : list (string * JsValue);
  anatomical_part : string
}.

(** [InputSchema.safeParse(input)]: the type is [CS_NAME] at version 12,
    [experiment] and [sample_collection] are objects, and the two fields
    read of them are strings. *)
Definition safeParse (input : Analysis) : option InputSchema :=
  if bool_decide (name (analysisType input) = CS_NAME) && (version (analysisType input) =? 12)
  then
    match getField "experiment" (document input),
          getField "sample_collection" (document input) with
    | Some (JsObject experimentFields), Some (JsObject sampleFields) =>
        match getField "purpose_of_sequencing" experimentFields,
              getField "anatomical_part" sampleFields with
        | Some (JsString purpose), Some (JsString part) =>
            Some {| experiment := experimentFields; purpose_of_sequencing := purpose;
                    sample_collection := sampleFields; anatomical_part := part |}
        | _, _ => None
        end
    | _, _ => None
    end
  else None.

Definition matchesInputSchema (input : Analysis) : bool :=
  match safeParse input with Some _ => true | None => false end.

Definition transform (analysis : Analysis) : Result Analysis :=
  match safeParse analysis with
  | None =>
      failure [JsString "Provided analysis does not match the version 12 schema and cannot be migrated to version 13"]
  | Some input =>
      success
        (assign (cloneDeep analysis)
           [("sample_collection",
             JsObject (assignFields (sample_collection input)
                         [("anatomical_part", JsArray [JsString (anatomical_part input)])]));
            ("experiment",
             JsObject (assignFields (experiment input)
                         [("purpose_of_sequencing",
                           JsArray [JsString (purpose_of_sequencing input)])]))])
  end.

Definition cs12to13 : Transform W :=
  defineTransform
    {| vstart := {| name := CS_NAME; version := 12 |};
       vend := {| name := CS_NAME; version := 13 |} |}
    (fun analysis => ret (transform analysis)).

End WithName.
End Cs12to13.

(** ** The Ego client, [createEgoClient]: the stored public key and client token *)

Module Ego.
Section WithWorld.
Context {W : Type}.

(** The variables [publicKey] and [token] of the closure of
    [createEgoClient], declared without a value, and the world outside. *)
Record Client : Type := {
  publicKey : option string;
  token : option string;
  world : W
}.

Definition setPublicKey (key : string) (client : Client) : Client :=
  {| publicKey := Some key; token := token client; world := world client |}.

Definition setToken (t : string) (client : Client) : Client :=
  {| publicKey := publicKey client; token := Some t; world := world client |}.

Definition setWorld (w : W) (client : Client) : Client :=
  {| publicKey := publicKey client; token := token client; world := w |}.

(** [config.appCredentials]. *)
Variable appCredentials : option (string * string).
(** The requests of [fetchPublicKey] and [fetchClientToken], and
    [jwt.verify], which throws for a token that is not valid and otherwise
    returns a value whose truthiness is the boolean. *)
Variable fetchPublicKey : unit -> Eff W (Result string).
Variable fetchClientToken : unit -> Eff W (Result string).
Variable verify : string -> string -> Eff W bool.

(** A computation on the world outside, within the closure. *)
Definition outside {A} (m : Eff W A) : Eff Client A :=
  fun client => let '(o, w') := m (world client) in (o, setWorld w' client).

(** The value of a variable when it is truthy: [if (publicKey)], [token && ...]. *)
Definition held (variable : option string) : option string :=
  match variable with
  | Some value => if truthy value then Some value else None
  | None => None
  end.

Definition getPublicKey : Eff Client (Result string) :=
  fun client =>
    match held (publicKey client) with
    | Some key => ret (success key) client
    | None =>
        (do fetchResult <- outside (fetchPublicKey tt) ;;
         match fetchResult with
         | Failure errors =>
             ret (failure (JsString "Failed to fetch public key" :: map JsString errors))
         | Success data =>
             fun client => (Returned (success data), setPublicKey data client)
         end) client
    end.

Definition getClientToken : Eff Client (Result string) :=
  match appCredentials with
  | None => ret (failure [JsString "Cannot retrieve JWT, no application credentials provided."])
  | Some _ =>
      do publicKeyResult <- getPublicKey ;;
      match publicKeyResult with
      | Failure errors =>
          ret (failure
                 (JsString "Unable to retrieve client token, failed to get public key to validate tokens with"
                  :: map JsString errors))
      | Success key =>
          do existing <-
            tryCatch
              (fun client =>
                 match held (token client) with
                 | Some t =>
                     (do valid <- outside (verify t key) ;;
                      ret (if valid then Some t else None)) client
                 | None => ret None client
                 end)
              (fun _ => ret None) ;;
          match existing with
          | Some t => ret (success t)
          | None =>
              do fetchResult <- outside (fetchClientToken tt) ;;
              match fetchResult with
              | Failure errors =>
                  ret (failure (JsString "Failure fetching new client token"
                                :: map JsString errors))
              | Success data =>
                  fun client => (Returned (success data), setToken data client)
              end
          end
      end
  end.

End WithWorld.
Arguments Client W : clear implicits.
End Ego.

(** ** Vocabulary of the properties *)

(** A store for a queue on its own: the array, and the events its
    take-listeners were called with. *)
Definition QueueStore (T : Type) : Type := list T * list (Queue.QueueEvent T).

Definition recordEvent {T} : Queue.QueueEvent T -> QueueStore T -> QueueStore T :=
  fun event st => (fst st, snd st ++ [event]).

Definition setArray {T} (l : list T) (st : QueueStore T) : QueueStore T := (l, snd st).

(** Every transform of [transforms] starts where the one before it ends;
    [previous] is the end of the transform before the first, if there is one. *)
Fixpoint connects {W} (previous : option AnalysisType) (transforms : list (Transform W))
  : bool :=
  match transforms with
  | [] => true
  | transform :: rest =>
      match previous with
      | Some e => isEqual e (start transform)
      | None => true
      end && connects (Some (end_ transform)) rest
  end.

(** The end of the last transform of an array, if it has one. *)
Definition lastEnd {W} (chain : list (Transform W)) : option AnalysisType :=
  end_ <$> last chain.

(** Version [n] of the schema family "consensus_sequence". *)
Definition cs (n : Z) : AnalysisType := {| name := "consensus_sequence"; version := n |}.

(** A transform from version [a] to version [b] that keeps the document. *)
Definition keep (a b : Z) : Transform unit :=
  defineTransform {| vstart := cs a; vend := cs b |} (fun analysis => ret (success analysis)).

(** A transform from version [a] to version [b] that rejects every document. *)
Definition reject (a b : Z) : Transform unit :=
  defineTransform {| vstart := cs a; vend := cs b |}
    (fun _ => ret (failure [JsString "rejected"])).

Definition sample (n : Z) : Analysis :=
  {| analysisType := cs n; analysisId := "a1"; studyId := "s1"; document := [] |}.

(** The analysis with the properties [fields] besides those of every analysis. *)
Definition withDocument (fields : list (string * JsValue)) (analysis : Analysis) : Analysis :=
  {| analysisType := analysisType analysis; analysisId := analysisId analysis;
     studyId := studyId analysis; document := fields |}.

Definition record (fields : list (string * JsValue)) : Analysis :=
  withDocument fields (sample 1).

(** An object with [success] [false] whose [errors] cannot be spread. *)
Definition unspreadable {T} `{Inspect T} (x : T) : Prop :=
  inspect x = Some (ReadFailure NotIterable).

(** A call that has returned, and returned what [asResult] takes for a
    Result. *)
Definition returnsResult {W T} `{Inspect T} (o : Outcome (ResultOr T) * W) : Prop :=
  exists r w', o = (Returned r, w') /\ asResult r = r.

(** The part of an array from the first element that passes [test] on, and
    the part up to and including that element. *)
Fixpoint suffixFromFirst {T} (test : T -> bool) (array : list T) : option (list T) :=
  match array with
  | [] => None
  | x :: rest => if test x then Some (x :: rest) else suffixFromFirst test rest
  end.

Fixpoint prefixThroughFirst {T} (test : T -> bool) (array : list T) : option (list T) :=
  match array with
  | [] => None
  | x :: rest =>
      if test x then Some [x]
      else match prefixThroughFirst test rest with
           | Some prefix => Some (x :: prefix)
           | None => None
           end
  end.

(** A chain has a first and a last transform, and [getStart] and [getEnd]
    return the start of the one and the end of the other. *)
Definition hasEnds {W} (c : TransformChain.TransformChain W) : Prop :=
  exists first final,
    head (TransformChain.chain c) = Some first
    /\ last (TransformChain.chain c) = Some final
    /\ TransformChain.getStart c = Returned (start first)
    /\ TransformChain.getEnd c = Returned (end_ final).

(** The chain object at a location of the store, read as its content. *)
Definition contentAt {W} (s : ChainStore.Store W) (r : Result nat)
  : Result (TransformChain.TransformChain W) :=
  match r with
  | Success c => Success {| TransformChain.chain := ChainStore.read c s |}
  | Failure errors => Failure errors
  end.

(** A method call that took the store from [s] to [s'] and returned [r] left
    every array of [s] as it was, and the chain it returned is a new one. *)
Definition leavesChains {W} (s s' : ChainStore.Store W) (r : Result nat) : Prop :=
  s ⊆ s' /\ match r with Success c => s !! c = None | Failure _ => True end.

(** The summary of a run with [dSuccessful] more records successful and
    [dError] more records in error, all of them processed. *)
Definition tally {W} (dSuccessful dError : Z) (run : MigrateStudy.Run W) : MigrateStudy.Run W :=
  let c := MigrateStudy.counts (MigrateStudy.summary run) in
  MigrateStudy.setSummary
    (MigrateStudy.setCounts
       {| MigrateStudy.successful := MigrateStudy.successful c + dSuccessful;
          MigrateStudy.error := MigrateStudy.error c + dError;
          MigrateStudy.skipped := MigrateStudy.skipped c;
          MigrateStudy.processed := MigrateStudy.processed c + dSuccessful + dError;
          MigrateStudy.total := MigrateStudy.total c |}
       (MigrateStudy.summary run))
    run.

(** The number of Successes and the number of Failures among results. *)
Definition successes {T} (results : list (Result T)) : Z :=
  Z.of_nat (List.length (List.filter isSuccess results)).

Definition failures {T} (results : list (Result T)) : Z :=
  Z.of_nat (List.length (List.filter (fun r => negb (isSuccess r)) results)).

(** The records of a page below version [e], and the number of the others. *)
Definition below (e : AnalysisType) (analyses : list Analysis) : list Analysis :=
  List.filter (fun analysis => version (analysisType analysis) <? version e) analyses.

Definition atOrBeyond (e : AnalysisType) (analyses : list Analysis) : Z :=
  Z.of_nat (List.length
              (List.filter (fun analysis => version e <=? version (analysisType analysis))
                 analyses)).

(** The summary of a run with [n] more records skipped, and processed. *)
Definition skipRecords {W} (n : Z) (run : MigrateStudy.Run W) : MigrateStudy.Run W :=
  let c := MigrateStudy.counts (MigrateStudy.summary run) in
  MigrateStudy.setSummary
    (MigrateStudy.setCounts
       {| MigrateStudy.successful := MigrateStudy.successful c;
          MigrateStudy.error := MigrateStudy.error c;
          MigrateStudy.skipped := MigrateStudy.skipped c + n;
          MigrateStudy.processed := MigrateStudy.processed c + n;
          MigrateStudy.total := MigrateStudy.total c |}
       (MigrateStudy.summary run))
    run.

(** A run that has processed nothing yet, in the world [tt]. *)
Definition freshRun : MigrateStudy.Run unit :=
  {| MigrateStudy.summary :=
       {| MigrateStudy.study := "study";
          MigrateStudy.completed := false;
          MigrateStudy.counts :=
            {| MigrateStudy.successful := 0; MigrateStudy.error := 0;
               MigrateStudy.skipped := 0; MigrateStudy.processed := 0;
               MigrateStudy.total := 0 |} |};
     MigrateStudy.totalAnalyses := 1;
     MigrateStudy.nextOffset := 0;
     MigrateStudy.logged := false;
     MigrateStudy.world := tt |}.

Definition pageOf (analyses : list Analysis) : PagedAnalysisResponse :=
  {| Song.analyses := analyses;
     Song.totalAnalyses := Z.of_nat (List.length analyses);
     Song.currentTotalAnalyses := Z.of_nat (List.length analyses) |}.

(** A record of another schema family. *)
Definition foreign (n : Z) : Analysis :=
  {| analysisType := {| name := "other"; version := n |};
     analysisId := "a2"; studyId := "s1"; document := [] |}.

Definition mismatch : string := "Analysis type does not match expected input type".

(** A record whose schema family is not the one the first transform of the
    chain, built from [versions], starts from. *)
Definition otherFamily (versions : Versions) (analysis : Analysis) : Prop :=
  name (analysisType analysis) <> name (vstart versions).

(** The work functions handed to [add] in a sequence of steps, in order. *)
Definition added (steps : list PromiseQueue.Step) : list PromiseQueue.Work :=
  flat_map (fun s => match s with PromiseQueue.CallAdd fn => [fn] | _ => [] end) steps.

(** A step other than the rejection of a promise. *)
Definition resolves (s : PromiseQueue.Step) : Prop :=
  match s with
  | PromiseQueue.Settle _ (Thrown _) => False
  | _ => True
  end.

(** What holds of a [PromiseQueue (maxConcurrency)] at all times: the number
    of active processes is between 0 and the limit and is the number of
    promises awaited, and so is the [running] of every event a listener saw. *)
Definition withinLimit (maxConcurrency : Z) (st : PromiseQueue.State) : Prop :=
  0 <= PromiseQueue.activeProcesses st <= maxConcurrency
  /\ PromiseQueue.activeProcesses st = Z.of_nat (List.length (PromiseQueue.awaited st))
  /\ Forall (fun c => 0 <= PromiseQueue.running (PromiseQueue.event c) <= maxConcurrency)
       (PromiseQueue.calls st).

(** Work waits in the queue only while every slot is taken. *)
Definition saturated (maxConcurrency : Z) (st : PromiseQueue.State) : Prop :=
  PromiseQueue.queue st <> [] -> PromiseQueue.activeProcesses st = maxConcurrency.

(** The state in which [attemptStart] goes on after its [await]: the promise
    of [fn] is no longer awaited, and one process fewer is active. *)
Definition settled (fn : PromiseQueue.Work) (st : PromiseQueue.State) : PromiseQueue.State :=
  PromiseQueue.setActiveProcesses (PromiseQueue.activeProcesses st - 1)
    (PromiseQueue.setAwaited (PromiseQueue.removeFirst fn (PromiseQueue.awaited st)) st).

(** [add] called once for each work function, in order, on a new queue. *)
Definition addAll (maxConcurrency : Z) (items : list PromiseQueue.Work) : PromiseQueue.State :=
  fold_left (fun st fn => PromiseQueue.add maxConcurrency fn st) items PromiseQueue.create.

(** A function run in a world that also holds a call counter it does not
    touch: the companion of [counted] for the steps that are not watched. *)
Definition uncounted {W T A} (fn : T -> Eff W A) : T -> Eff (nat * W) A :=
  fun x cw =>
    let '(o, w') := fn x (snd cw) in (o, (fst cw, w')).

(** A queue on its own whose add-listener and take-listener both record the
    event they are called with. *)
Definition enqueue {T} (x : T) (st : QueueStore T) : QueueStore T :=
  Queue.add fst setArray (fun _ => [recordEvent]) x st.

Definition dequeue {T} `{Truthy T} (st : QueueStore T) : Result T * QueueStore T :=
  Queue.take fst setArray (fun _ => [recordEvent]) st.

(** [take ()] called [n] times. *)
Fixpoint dequeueMany {T} `{Truthy T} (n : nat) (st : QueueStore T)
  : list (Result T) * QueueStore T :=
  match n with
  | O => ([], st)
  | S n =>
      let '(r, st) := dequeue st in
      let '(rs, st) := dequeueMany n st in
      (r :: rs, st)
  end.

(** The events of adding [items] one by one to a queue that holds [before]
    elements, and of taking them one by one from a queue that holds them. *)
Definition addEvents {T} (before : nat) (items : list T) : list (Queue.QueueEvent T) :=
  imap (fun i x => {| Queue.length := Z.of_nat (before + i + 1); Queue.item := x |}) items.

Definition takeEvents {T} (items : list T) : list (Queue.QueueEvent T) :=
  imap (fun i x => {| Queue.length := Z.of_nat (List.length items - i - 1); Queue.item := x |})
    items.

(** A transform made by [defineTransform]. *)
Definition built {W} (t : Transform W) : Prop :=
  exists versions transformer, t = defineTransform versions transformer.

(** Transforms made by [defineTransform] for one schema family that each go
    from one version to the next, from version [first] on, with the given
    transformers: the shape of the list in transforms/consensus_sequence. *)
Fixpoint ladder {W} (family : string) (first : Z)
  (transformers : list (Analysis -> Eff W (Result Analysis))) : list (Transform W) :=
  match transformers with
  | [] => []
  | transformer :: rest =>
      defineTransform
        {| vstart := {| name := family; version := first |};
           vend := {| name := family; version := first + 1 |} |} transformer
      :: ladder family (first + 1) rest
  end.

(** A computation leaves a property of the state as it found it. *)
Definition keeps {V A} (Q : V -> Prop) (m : Eff V A) : Prop :=
  forall v, Q v -> Q (snd (m v)).

(** What a computation returns, when it returns, has a property. *)
Definition yields {V A} (P : A -> Prop) (m : Eff V A) : Prop :=
  forall v a v', m v = (Returned a, v') -> P a.

(** A Result made by [success] or [failure]. *)
Definition isMade {T} (r : ResultOr T) : Prop := exists r', r = IsResult r'.

(** Every record counted as processed is counted once as successful, in
    error or skipped. *)
Definition balanced (c : MigrateStudy.Counts) : Prop :=
  MigrateStudy.processed c
  = MigrateStudy.successful c + MigrateStudy.error c + MigrateStudy.skipped c.

(** The field [key] of the object [object] of the document of [analysis] is
    the string [value], and [fields] are the fields of that object. *)
Definition stringAt (object key : string) (analysis : Analysis)
  (fields : list (string * JsValue)) (value : string) : Prop :=
  getField object (document analysis) = Some (JsObject fields)
  /\ getField key fields = Some (JsString value).

(** [after] has, at the field [key] of the object [object], the array whose
    one element is the string that [before] has there; the object has the
    same fields in the same order, and its other fields are as in [before]. *)
Definition wrappedAt (object key : string) (before after : Analysis) : Prop :=
  exists fields value fields',
    stringAt object key before fields value
    /\ getField object (document after) = Some (JsObject fields')
    /\ getField key fields' = Some (JsArray [JsString value])
    /\ (forall other, other <> key -> getField other fields' = getField other fields)
    /\ fields'.*1 = fields.*1.

(** The age bins that name a decade, with the ages their names give. *)
Definition decadeBins : list (string * (Z * Z)) :=
  [("0 - 9", (0, 9)); ("10 - 19", (10, 19)); ("20 - 29", (20, 29)); ("30 - 39", (30, 39));
   ("40 - 49", (40, 49)); ("50 - 59", (50, 59)); ("60 - 69", (60, 69)); ("70 - 79", (70, 79));
   ("80 - 89", (80, 89))].

(** The age of a host object is [null], or a number from [min] to [max]. *)
Definition ageWithin (min max : Z) (host : list (string * JsValue)) : Prop :=
  getField "host_age" host = Some JsNull
  \/ exists age, getField "host_age" host = Some (JsNumber age) /\ min <= age <= max.

(** An analysis of the consensus sequence family at version [n] whose only
    other field is a host with the given age and age bin. *)
Definition hosted (n : Z) (age : JsValue) (bin : string) : Analysis :=
  {| analysisType := cs n; analysisId := "a1"; studyId := "s1";
     document := [("host", JsObject [("host_age", age); ("host_age_bin", JsString bin)])] |}.

(** An analysis of the family [family] at version 3 whose
    [sample_collection.fasta_header_name] is a string that passes [test]. *)
Definition headerPasses (family : string) (test : string -> bool) (analysis : Analysis)
  : Prop :=
  analysisType analysis = {| name := family; version := 3 |}
  /\ exists fields header,
       stringAt "sample_collection" "fasta_header_name" analysis fields header
       /\ test header = true.

(** * Properties *)

(** ** Result algebra *)

Section ResultFacts.
Context {W : Type}.

Lemma unknownToString_strings (errors : list string) :
  map unknownToString (map JsString errors) = errors.
Proof.
  induction errors as [|e errors IH]; simpl; [reflexivity|]. now rewrite IH.
Qed.

Lemma failure_strings {T} (errors : list string) :
  @failure T (map JsString errors) = Failure errors.
Proof. unfold failure. now rewrite unknownToString_strings. Qed.

Lemma asResult_plain {T} `{Inspect T} (x : T) :
  inspect x = None -> asResult (Bare x) = IsResult (Success x).
Proof. intros E. unfold asResult. now rewrite E. Qed.

Lemma asResult_passes {T} `{Inspect T} (x : T) (read : Reading T) :
  inspect x = Some read -> asResult (Bare x) = Bare x.
Proof. intros E. unfold asResult. now rewrite E. Qed.

Lemma reading_asResult {T} `{Inspect T} (input : ResultOr T) :
  reading (asResult input) = reading input.
Proof.
  destruct input as [r|x]; [reflexivity|]. unfold asResult.
  destruct (inspect x) eqn:E; simpl; now rewrite ?E.
Qed.

Lemma reading_plain {T} `{Inspect T} (x : T) :
  inspect x = None -> reading (Bare x) = ReadSuccess x.
Proof. intros E. simpl. now rewrite E. Qed.

Lemma withResult_failure {T S} `{Inspect T} `{Inspect S} (fn : T -> Eff W (ResultOr S))
  (errors : list string) (w : W) :
  withResult fn (IsResult (Failure errors)) w = (Returned (IsResult (Failure errors)), w).
Proof. unfold withResult; simpl. now rewrite failure_strings. Qed.

Lemma withResultAsync_failure {T S} `{Inspect T} `{Inspect S} (fn : T -> Eff W (ResultOr S))
  (errors : list string) (w : W) :
  withResultAsync fn (IsResult (Failure errors)) w
  = (Returned (IsResult (Failure errors)), w).
Proof. unfold withResultAsync; simpl. now rewrite failure_strings. Qed.

Lemma withResult_success {T S} `{Inspect T} `{Inspect S} (fn : T -> Eff W (ResultOr S))
  (input : ResultOr T) (data : T) (w : W) :
  reading input = ReadSuccess data ->
  withResult fn input w =
    match fn data w with
    | (Returned x, w') => (Returned (asResult x), w')
    | (Thrown e, w') => (Returned (IsResult (Failure [unknownToString e])), w')
    end.
Proof.
  intros E. unfold withResult. cbv zeta. rewrite reading_asResult, E.
  unfold tryCatch, bind, ret.
  destruct (fn data w) as [[x|e] w']; reflexivity.
Qed.

Lemma withResultAsync_success {T S} `{Inspect T} `{Inspect S} (fn : T -> Eff W (ResultOr S))
  (input : ResultOr T) (data : T) (w : W) :
  reading input = ReadSuccess data ->
  withResultAsync fn input w =
    match fn data w with
    | (Returned x, w') => (Returned (asResult x), w')
    | (Thrown e, w') => (Returned (IsResult (Failure [unknownToString e])), w')
    end.
Proof. apply withResult_success. Qed.

Lemma withResultAsync_withResult {T S} `{Inspect T} `{Inspect S}
  (fn : T -> Eff W (ResultOr S)) (input : ResultOr T) :
  withResultAsync fn input = withResult fn input.
Proof. reflexivity. Qed.

Lemma asResult_twice {T} `{Inspect T} (input : ResultOr T) :
  asResult (asResult input) = asResult input.
Proof.
  destruct input as [r|x]; [reflexivity|]. simpl.
  destruct (inspect x) eqn:E; simpl; now rewrite ?E.
Qed.

(** What [withResult] returns is as [asResult] returns it. *)
Lemma withResult_normal {T S} `{Inspect T} `{Inspect S} (fn : T -> Eff W (ResultOr S))
  (input : ResultOr T) (w w' : W) (r : ResultOr S) :
  withResult fn input w = (Returned r, w') -> asResult r = r.
Proof.
  unfold withResult. cbv zeta. destruct (reading (asResult input)) as [data|[errors|]].
  - unfold tryCatch, bind, ret. destruct (fn data w) as [[x|e] w1]; intros [= <- <-];
      [apply asResult_twice|reflexivity].
  - unfold ret. now intros [= <- <-].
  - discriminate.
Qed.

(** Of a value that passes the test, [withResult] reads the properties. *)
Lemma withResult_passes {T S} `{Inspect T} `{Inspect S} (fn : T -> Eff W (ResultOr S))
  (x : T) (read : Reading T) (w : W) :
  inspect x = Some read ->
  withResult fn (Bare x) w =
    match read with
    | ReadSuccess data => withResult fn (IsResult (Success data)) w
    | ReadFailure (Parts errors) => (Returned (IsResult (failure errors)), w)
    | ReadFailure NotIterable => (Thrown spreadError, w)
    end.
Proof.
  intros E. unfold withResult at 1. cbv zeta. rewrite reading_asResult. simpl. rewrite E.
  destruct read as [data|[errors|]]; reflexivity.
Qed.

(** [withResult] returns unless its argument is an object with [success]
    [false] whose [errors] cannot be spread. *)
Lemma withResult_returns {T S} `{Inspect T} `{Inspect S} (fn : T -> Eff W (ResultOr S))
  (input : ResultOr T) (w : W) :
  reading input <> ReadFailure NotIterable ->
  exists r w', withResult fn input w = (Returned r, w').
Proof.
  intros Hr. unfold withResult. cbv zeta. rewrite reading_asResult.
  destruct (reading input) as [data|[errors|]]; [| |congruence].
  - unfold tryCatch, bind, ret. destruct (fn data w) as [[x|e] w']; eauto.
  - unfold ret. eauto.
Qed.

End ResultFacts.

(** C5, as amended. [withResult (f)] given a Failure made by [failure] returns
    a Failure with the same errors in the same order, and [f] is not called
    (its call count and the world are as before). Given a Success, [f] is
    called once on the payload; what it returns comes back through
    [asResult], and what it throws comes back as a Failure: nothing is
    thrown. A value that is not an object with a boolean [success] is treated
    as the Success of that value. A value that is such an object is read as a
    Result: with [success] [true], [f] is called on its [data]; with
    [success] [false], [f] is not called, and the call returns a Failure of
    the parts of its [errors], or throws when its [errors] cannot be spread. *)
Theorem withResult_contract {W T U} `{Inspect T} `{Inspect U} (fn : T -> Eff W (ResultOr U)) :
  (forall (errors : list string) (n : nat) (w : W),
      withResult (counted fn) (IsResult (Failure errors)) (n, w)
      = (Returned (IsResult (Failure errors)), (n, w)))
  /\ (forall (data : T) (n : nat) (w : W),
         withResult (counted fn) (IsResult (Success data)) (n, w)
         = match fn data w with
           | (Returned x, w') => (Returned (asResult x), (S n, w'))
           | (Thrown e, w') => (Returned (IsResult (Failure [unknownToString e])), (S n, w'))
           end)
  /\ (forall (value : T) (n : nat) (w : W),
         inspect value = None ->
         withResult (counted fn) (Bare value) (n, w)
         = withResult (counted fn) (IsResult (Success value)) (n, w))
  /\ (forall (value : T) (read : Reading T) (n : nat) (w : W),
         inspect value = Some read ->
         withResult (counted fn) (Bare value) (n, w)
         = match read with
           | ReadSuccess data => withResult (counted fn) (IsResult (Success data)) (n, w)
           | ReadFailure (Parts errors) =>
               (Returned (IsResult (Failure (map unknownToString errors))), (n, w))
           | ReadFailure NotIterable => (Thrown spreadError, (n, w))
           end).
Proof.
  split; [|split; [|split]].
  - intros errors n w. apply withResult_failure.
  - intros data n w.
    rewrite (withResult_success _ _ data) by reflexivity.
    unfold counted; simpl. destruct (fn data w) as [[x|e] w']; reflexivity.
  - intros value n w E.
    rewrite (withResult_success _ (Bare value) value) by now apply reading_plain.
    now rewrite (withResult_success _ (IsResult (Success value)) value).
  - intros value read n w E. now rewrite (withResult_passes _ value read).
Qed.

Lemma withResult_contract_witness :
  (inspect (record []) = None
   /\ withResult (counted (fun a : Analysis => @ret unit _ (Bare a))) (Bare (record [])) (0%nat, tt)
      = withResult (counted (fun a : Analysis => @ret unit _ (Bare a)))
          (IsResult (Success (record []))) (0%nat, tt))
  /\ inspect (record [("success", JsBoolean false); ("errors", JsArray [JsNumber 404])])
     = Some (ReadFailure (Parts [JsNumber 404]))
  /\ withResult (counted (fun a : Analysis => @ret unit _ (Bare a)))
       (Bare (record [("success", JsBoolean false); ("errors", JsArray [JsNumber 404])]))
       (0%nat, tt)
     = (Returned (IsResult (Failure ["404"])), (0%nat, tt)).
Proof.
  split; [split; [reflexivity|]|split; [reflexivity|]].
  - apply (withResult_contract (fun a : Analysis => @ret unit _ (Bare a))). reflexivity.
  - apply (proj2 (proj2 (proj2
             (withResult_contract (fun a : Analysis => @ret unit _ (Bare a)))))
             (record [("success", JsBoolean false); ("errors", JsArray [JsNumber 404])])
             (ReadFailure (Parts [JsNumber 404])) 0%nat tt).
    reflexivity.
Defined.

(** C5 fails as stated. A record with the property [success] [false] and no
    [errors] is a value that no one made with [failure], and it is taken for
    a Failure: [f] is not called on it, and the call throws. *)
Lemma withResult_of_record_with_success :
  withResult (counted (fun a : Analysis => @ret unit _ (Bare a)))
    (Bare (record [("success", JsBoolean false)])) (0%nat, tt)
  = (Thrown spreadError, (0%nat, tt)).
Proof. reflexivity. Qed.

(** C9, as amended. [success (data)] has the data and no errors;
    [failure (...parts)] has no data and one error string for each part, in
    order. [asResult] returns a Result made by them as it is, makes a Success
    of a value that is not an object with a boolean [success], and returns a
    value that is such an object as it is, without looking at its [data] or
    [errors]. *)
Theorem result_constructors {T} `{Inspect T} :
  (forall data : T, dataOf (success data) = Some data /\ errorsOf (success data) = None)
  /\ (forall parts : list JsValue,
         dataOf (@failure T parts) = None
         /\ errorsOf (@failure T parts) = Some (map unknownToString parts)
         /\ List.length (map unknownToString parts) = List.length parts)
  /\ (forall r : Result T, asResult (IsResult r) = IsResult r)
  /\ (forall value : T, inspect value = None -> asResult (Bare value) = IsResult (success value))
  /\ (forall value : T, inspect value <> None -> asResult (Bare value) = Bare value).
Proof.
  split; [|split; [|split; [|split]]].
  - intros data. now split.
  - intros parts. repeat split. apply length_map.
  - reflexivity.
  - intros value E. now apply asResult_plain.
  - intros value E. destruct (inspect value) as [read|] eqn:E'; [|congruence].
    now apply (asResult_passes value read).
Qed.

Lemma result_constructors_witness :
  (inspect (record []) = None /\ asResult (Bare (record [])) = IsResult (success (record [])))
  /\ inspect (record [("success", JsBoolean true)]) <> None
  /\ asResult (Bare (record [("success", JsBoolean true)]))
     = Bare (record [("success", JsBoolean true)]).
Proof.
  split; [split; [reflexivity|]|split; [discriminate|]].
  - apply (proj1 (proj2 (proj2 (proj2 (@result_constructors Analysis _))))). reflexivity.
  - apply (proj2 (proj2 (proj2 (proj2 (@result_constructors Analysis _))))). discriminate.
Defined.

(** C9 fails as stated: [failure ()] is a Failure with no error string, and
    [asResult] returns a record whose only property besides those of an
    analysis is [success] as it is, with neither [data] nor [errors]. *)
Lemma failure_of_no_part :
  @failure unit [] = Failure []
  /\ ~ (forall parts : list JsValue, errorsOf (@failure unit parts) <> Some [])
  /\ asResult (Bare (record [("success", JsBoolean false)]))
     = Bare (record [("success", JsBoolean false)])
  /\ getField "data" (document (record [("success", JsBoolean false)])) = None
  /\ getField "errors" (document (record [("success", JsBoolean false)])) = None.
Proof.
  split; [reflexivity|]. split; [|repeat split]. intros H. now apply (H []).
Qed.

(** ** The queue *)

Section QueueFacts.
Context {T : Type} `{Truthy T} {St : Type}.
Variable items : St -> list T.
Variable setItems : list T -> St -> St.
Variable takeActions : St -> list (Queue.QueueEvent T -> St -> St).

Lemma take_empty (st : St) :
  items st = [] ->
  Queue.take items setItems takeActions st = (Failure ["Empty Queue"], st).
Proof. intros E. unfold Queue.take. now rewrite E. Qed.

Lemma take_truthy (st : St) (item : T) (rest : list T) :
  items st = item :: rest -> truthy item = true ->
  Queue.take items setItems takeActions st
  = (Success item, Queue.triggerTakeActions items takeActions item (setItems rest st)).
Proof. intros E Ht. unfold Queue.take. now rewrite E, Ht. Qed.

Lemma take_falsy (st : St) (item : T) (rest : list T) :
  items st = item :: rest -> truthy item = false ->
  Queue.take items setItems takeActions st = (Failure ["Empty Queue"], setItems rest st).
Proof. intros E Ht. unfold Queue.take. now rewrite E, Ht. Qed.

End QueueFacts.

(** C7, where the code departs from it. A queue of numbers that holds [0]
    and [1]: [take ()] removes the [0], calls no listener, and returns the
    Failure "Empty Queue", with [1] still in the queue. *)
Theorem take_of_falsy_item :
  Queue.take fst setArray (fun _ => [recordEvent]) ([0; 1], [])
  = (Failure ["Empty Queue"], ([1], [])).
Proof. reflexivity. Qed.

(** ** Building a chain *)

Section ChainFacts.
Context {W : Type}.
Implicit Types (chain transforms : list (Transform W)) (c : TransformChain.TransformChain W).

Lemma isEqual_true (a b : AnalysisType) : isEqual a b = true <-> a = b.
Proof. unfold isEqual. apply bool_decide_eq_true. Qed.

Lemma lastEnd_snoc chain (transform : Transform W) :
  lastEnd (chain ++ [transform]) = Some (end_ transform).
Proof. unfold lastEnd. now rewrite last_snoc. Qed.

(** The loop returns exactly when every transform connects, and then the
    array has the transforms appended. *)
Lemma forEachTransform_connects transforms : forall index chain,
  connects (lastEnd chain) transforms = true ->
  TransformChain.forEachTransform transforms index chain = Returned (chain ++ transforms).
Proof.
  induction transforms as [|t rest IH]; intros index chain Hc; simpl.
  - now rewrite app_nil_r.
  - simpl in Hc. apply andb_true_iff in Hc as [Hhead Hrest].
    assert (isEqual match last chain with
                    | Some previous => end_ previous
                    | None => start t
                    end (start t) = true) as ->.
    { unfold lastEnd in Hhead. destruct (last chain); simpl in *; [assumption|].
      now apply isEqual_true. }
    simpl. rewrite IH.
    + now rewrite <- app_assoc.
    + now rewrite lastEnd_snoc.
Qed.

(** Otherwise it throws at the first transform that does not connect: the
    message has its index, its [end] as "Received" and the end of the
    transform before it as "Expected". *)
Lemma forEachTransform_break (before : list (Transform W)) (previous offending : Transform W)
  (after : list (Transform W)) : forall index chain,
  connects (lastEnd chain) (before ++ [previous]) = true ->
  end_ previous <> start offending ->
  TransformChain.forEachTransform (before ++ previous :: offending :: after) index chain
  = Thrown (JsString (TransformChain.connectionError
                        (index + List.length before + 1)
                        (end_ offending) (end_ previous))).
Proof.
  induction before as [|t before IH]; intros index chain Hc Hne.
  - simpl in *. rewrite andb_true_r in Hc.
    assert (isEqual match last chain with
                    | Some p => end_ p
                    | None => start previous
                    end (start previous) = true) as ->.
    { unfold lastEnd in Hc. destruct (last chain); simpl in *; [assumption|].
      now apply isEqual_true. }
    simpl. rewrite last_snoc.
    assert (isEqual (end_ previous) (start offending) = false) as ->.
    { apply not_true_is_false. rewrite isEqual_true. exact Hne. }
    simpl. do 3 f_equal. lia.
  - simpl in Hc. apply andb_true_iff in Hc as [Hhead Hrest]. simpl.
    assert (isEqual match last chain with
                    | Some p => end_ p
                    | None => start t
                    end (start t) = true) as ->.
    { unfold lastEnd in Hhead. destruct (last chain); simpl in *; [assumption|].
      now apply isEqual_true. }
    simpl. rewrite IH; [do 3 f_equal; lia| |exact Hne].
    now rewrite lastEnd_snoc.
Qed.

Lemma forEachTransform_returned transforms : forall index chain chain',
  TransformChain.forEachTransform transforms index chain = Returned chain' ->
  connects (lastEnd chain) transforms = true /\ chain' = chain ++ transforms.
Proof.
  induction transforms as [|t rest IH]; intros index chain chain' E; simpl in E.
  - injection E as <-. now rewrite app_nil_r.
  - destruct (isEqual _ (start t)) eqn:Heq; simpl in E; [|discriminate].
    apply IH in E as [Hc ->]. rewrite lastEnd_snoc in Hc. split.
    + simpl. rewrite Hc, andb_true_r. unfold lastEnd.
      destruct (last chain); simpl in *; [assumption|reflexivity].
    + now rewrite <- app_assoc.
Qed.

Lemma extendTransformChain_success chain transforms c :
  TransformChain.extendTransformChain chain transforms = Success c <->
  connects (lastEnd chain) transforms = true
  /\ c = {| TransformChain.chain := chain ++ transforms |}.
Proof.
  unfold TransformChain.extendTransformChain. split.
  - destruct (TransformChain.forEachTransform transforms 0 chain) as [chain'|e] eqn:E;
      [|discriminate].
    apply forEachTransform_returned in E as [Hc ->]. simpl. intros [= <-]. now split.
  - intros [Hc ->]. now rewrite forEachTransform_connects.
Qed.

Lemma extendTransformChain_nil chain :
  TransformChain.extendTransformChain chain [] = Success {| TransformChain.chain := chain |}.
Proof. apply extendTransformChain_success. simpl. now rewrite app_nil_r. Qed.

(** [createTransformChain] succeeds exactly when all neighbours connect. *)
Lemma createTransformChain_success transforms :
  isSuccess (TransformChain.createTransformChain transforms) = connects None transforms.
Proof.
  unfold TransformChain.createTransformChain.
  destruct (connects None transforms) eqn:Hc.
  - assert (TransformChain.extendTransformChain [] transforms
            = Success {| TransformChain.chain := transforms |}) as ->; [|reflexivity].
    apply extendTransformChain_success. now split.
  - destruct (TransformChain.extendTransformChain [] transforms) as [c|es] eqn:E;
      [|reflexivity].
    apply extendTransformChain_success in E as [Hc' _]. unfold lastEnd in Hc'; simpl in Hc'.
    congruence.
Qed.

Lemma createTransformChain_break (before : list (Transform W)) (previous offending : Transform W)
  (after : list (Transform W)) :
  connects None (before ++ [previous]) = true ->
  end_ previous <> start offending ->
  TransformChain.createTransformChain (before ++ previous :: offending :: after)
  = Failure [TransformChain.connectionError (List.length before + 1)
               (end_ offending) (end_ previous)].
Proof.
  intros Hc Hne. unfold TransformChain.createTransformChain, TransformChain.extendTransformChain.
  now rewrite (forEachTransform_break before previous offending after 0 []).
Qed.

End ChainFacts.

(** C1, where the code departs from it. For the transforms 1 -> 2 and 3 -> 4
    construction fails and names index 1 and, as expected, version 2; what it
    prints as received is version 4, the end of the transform at index 1, and
    not version 3, its start. *)
Theorem createTransformChain_received_version :
  TransformChain.createTransformChain [keep 1 2; keep 3 4]
  = Failure [TransformChain.connectionError 1 (cs 4) (cs 2)]
  /\ TransformChain.connectionError 1 (cs 4) (cs 2)
     <> TransformChain.connectionError 1 (cs 3) (cs 2).
Proof.
  split; [reflexivity|]. vm_compute. discriminate.
Qed.

(** ** One transform *)

(** C2. For [T = defineTransform ({ start, end }, f)]: on a record whose
    analysis type is not [start], [T.apply] returns a Failure, [f] has not
    been called and the world, which holds every object [f] could have
    changed, is as before; and whenever [T.apply] returns a Success, the
    analysis type of the record returned is [end]. *)
Theorem defineTransform_apply {W} (versions : Versions)
  (f : Analysis -> Eff W (Result Analysis)) :
  (forall (r : Analysis) (n : nat) (w : W),
      analysisType r <> vstart versions ->
      apply (defineTransform versions (counted f)) r (n, w)
      = (Returned (Failure ["Analysis type does not match expected input type"]), (n, w)))
  /\ (forall (r out : Analysis) (w w' : W),
         apply (defineTransform versions f) r w = (Returned (Success out), w') ->
         analysisType out = vend versions).
Proof.
  split.
  - intros r n w Hne. simpl.
    assert (isEqual (analysisType r) (vstart versions) = false) as ->; [|reflexivity].
    apply not_true_is_false. rewrite isEqual_true. exact Hne.
  - intros r out w w'. simpl.
    destruct (isEqual (analysisType r) (vstart versions)); simpl; [|discriminate].
    unfold bind. destruct (f r w) as [[[data|errors]|e] w1]; simpl; try discriminate.
    intros [= <- _]. reflexivity.
Qed.

Lemma defineTransform_apply_witness :
  apply (defineTransform {| vstart := cs 1; vend := cs 2 |}
           (counted (fun analysis : Analysis => @ret unit _ (success analysis))))
        (sample 3) (0%nat, tt)
  = (Returned (Failure ["Analysis type does not match expected input type"]), (0%nat, tt))
  /\ analysisType (withAnalysisType (sample 1) (cs 2)) = cs 2.
Proof.
  pose proof (defineTransform_apply (W:=unit) {| vstart := cs 1; vend := cs 2 |}
                (fun analysis => ret (success analysis))) as [Hreject Hstamp].
  split.
  - apply Hreject. vm_compute. discriminate.
  - apply (Hstamp (sample 1) _ tt tt). reflexivity.
Defined.

(** ** Slices *)

Section SliceFacts.
Context {T : Type}.
Implicit Types (array : list T) (test : T -> bool).

Lemma findIndex_suffix array test :
  match suffixFromFirst test array with
  | Some suffix =>
      0 <= findIndex array test /\ sliceFromIndex array (findIndex array test) = suffix
  | None => findIndex array test = -1
  end.
Proof.
  induction array as [|x rest IH]; simpl; [reflexivity|].
  destruct (test x); [split; [lia|reflexivity]|].
  destruct (suffixFromFirst test rest) as [suffix|].
  - destruct IH as [Hi Hs].
    destruct (Z.ltb_spec (findIndex rest test) 0) as [Hlt|_]; [lia|].
    split; [lia|]. unfold sliceFromIndex in *.
    replace (Z.to_nat (findIndex rest test + 1)) with (S (Z.to_nat (findIndex rest test))) by lia.
    exact Hs.
  - rewrite IH. reflexivity.
Qed.

Lemma findIndex_prefix array test :
  match prefixThroughFirst test array with
  | Some prefix =>
      0 <= findIndex array test /\ sliceToIndex array (findIndex array test + 1) = prefix
  | None => findIndex array test = -1
  end.
Proof.
  induction array as [|x rest IH]; simpl; [reflexivity|].
  destruct (test x); [split; [lia|reflexivity]|].
  destruct (prefixThroughFirst test rest) as [prefix|].
  - destruct IH as [Hi Hs].
    destruct (Z.ltb_spec (findIndex rest test) 0) as [Hlt|_]; [lia|].
    split; [lia|]. unfold sliceToIndex in *.
    replace (Z.to_nat (findIndex rest test + 1 + 1))
      with (S (Z.to_nat (findIndex rest test + 1))) by lia.
    simpl. now rewrite Hs.
  - rewrite IH. reflexivity.
Qed.

Lemma sliceFrom_suffix array test :
  sliceFrom array test =
  match suffixFromFirst test array with
  | Some suffix => Success suffix
  | None =>
      Failure ["Unable to find item in array that matches provided starting position test."]
  end.
Proof.
  unfold sliceFrom. pose proof (findIndex_suffix array test) as H.
  destruct (suffixFromFirst test array) as [suffix|].
  - destruct H as [Hi <-]. destruct (Z.ltb_spec (findIndex array test) 0); [lia|reflexivity].
  - rewrite H. reflexivity.
Qed.

Lemma sliceTo_prefix array test :
  sliceTo array test true =
  match prefixThroughFirst test array with
  | Some prefix => Success prefix
  | None => Failure ["Unable to find item in array that matches provided end position test."]
  end.
Proof.
  unfold sliceTo. pose proof (findIndex_prefix array test) as H.
  destruct (prefixThroughFirst test array) as [prefix|].
  - destruct H as [Hi <-]. destruct (Z.ltb_spec (findIndex array test) 0); [lia|reflexivity].
  - rewrite H. reflexivity.
Qed.

Lemma suffixFromFirst_None array test :
  suffixFromFirst test array = None <-> Forall (fun x => test x = false) array.
Proof.
  induction array as [|x rest IH]; simpl.
  - split; [constructor|reflexivity].
  - destruct (test x) eqn:E.
    + split; [discriminate|]. intros Hall. inversion Hall; congruence.
    + rewrite IH. split; [now constructor|]. intros Hall. now inversion Hall.
Qed.

Lemma suffixFromFirst_Some array test suffix :
  suffixFromFirst test array = Some suffix ->
  exists before first rest, array = before ++ suffix /\ suffix = first :: rest.
Proof.
  induction array as [|x l IH]; simpl; [discriminate|].
  destruct (test x).
  - intros [= <-]. now exists [], x, l.
  - intros E. destruct (IH E) as (before & first & rest & -> & ->).
    now exists (x :: before), first, rest.
Qed.

Lemma prefixThroughFirst_snoc (body : list T) (final : T) test :
  Forall (fun x => test x = false) body -> test final = true ->
  prefixThroughFirst test (body ++ [final]) = Some (body ++ [final]).
Proof.
  intros Hall Hfinal. induction Hall as [|x body Hx Hall IH]; simpl.
  - now rewrite Hfinal.
  - now rewrite Hx, IH.
Qed.

Lemma prefixThroughFirst_Some array test prefix :
  prefixThroughFirst test array = Some prefix ->
  exists body final, prefix = body ++ [final].
Proof.
  revert prefix. induction array as [|x l IH]; simpl; intros prefix; [discriminate|].
  destruct (test x).
  - intros [= <-]. now exists [], x.
  - destruct (prefixThroughFirst test l) as [p|]; [|discriminate].
    intros [= <-]. destruct (IH p eq_refl) as (body & final & ->).
    now exists (x :: body), final.
Qed.

End SliceFacts.

(** ** Methods of a chain *)

Section MethodFacts.
Context {W : Type}.
Implicit Types (c : TransformChain.TransformChain W) (v : AnalysisType).

Lemma from_suffix c v :
  TransformChain.from c v =
  match suffixFromFirst (fun t => isEqual (start t) v) (TransformChain.chain c) with
  | Some suffix => Success {| TransformChain.chain := suffix |}
  | None =>
      Failure ["Migration chain does not have a transform to start from for analyses of this type";
               stringify (analysisTypeToJs v);
               "Unable to find item in array that matches provided starting position test."]
  end.
Proof.
  unfold TransformChain.from. rewrite sliceFrom_suffix.
  destruct (suffixFromFirst _ _); [apply extendTransformChain_nil|reflexivity].
Qed.

Lemma to_prefix c v :
  TransformChain.to c v =
  match prefixThroughFirst (fun t => isEqual (end_ t) v) (TransformChain.chain c) with
  | Some prefix => Success {| TransformChain.chain := prefix |}
  | None =>
      Failure ["Migration chain does not have a transform to end on for analyses of this type";
               stringify (analysisTypeToJs v);
               "Unable to find item in array that matches provided end position test."]
  end.
Proof.
  unfold TransformChain.to. rewrite sliceTo_prefix.
  destruct (prefixThroughFirst _ _); [apply extendTransformChain_nil|reflexivity].
Qed.

Lemma isEqual_false (a b : AnalysisType) : isEqual a b = false <-> a <> b.
Proof. unfold isEqual. apply bool_decide_eq_false. Qed.

End MethodFacts.

(** C3, as amended. [c.from (v)] is a Failure exactly when no transform of
    [c] starts at [v]. When it succeeds, and no transform of the chain it
    returns other than the last ends at [c.getEnd ()], then [to (c.getEnd ())]
    of that chain succeeds, and applying the result gives, for every record
    and in every world, what folding the transforms of the suffix of [c] that
    begins at the first transform starting at [v] gives. *)
Theorem from_then_to_end {W} (c c1 : TransformChain.TransformChain W) (v e : AnalysisType)
  (body : list (Transform W)) (final : Transform W) :
  (isSuccess (TransformChain.from c v) = false
   <-> Forall (fun t => start t <> v) (TransformChain.chain c))
  /\ (TransformChain.from c v = Success c1 ->
      TransformChain.getEnd c = Returned e ->
      TransformChain.chain c1 = body ++ [final] ->
      Forall (fun t => end_ t <> e) body ->
      exists suffix c2,
        suffixFromFirst (fun t => isEqual (start t) v) (TransformChain.chain c) = Some suffix
        /\ TransformChain.to c1 e = Success c2
        /\ forall (r : Analysis) (w : W),
             TransformChain.apply c2 r w
             = TransformChain.reduce suffix (asResult (Bare (cloneDeep r))) w).
Proof.
  split.
  - rewrite from_suffix.
    destruct (suffixFromFirst _ _) as [suffix|] eqn:E; simpl.
    + split; [discriminate|]. intros Hall.
      assert (suffixFromFirst (fun t => isEqual (start t) v) (TransformChain.chain c) = None)
        as E'; [|congruence].
      apply suffixFromFirst_None. eapply Forall_impl; [exact Hall|].
      intros t Ht. now apply isEqual_false.
    + split; [|reflexivity]. intros _. apply suffixFromFirst_None in E.
      eapply Forall_impl; [exact E|]. intros t Ht. now apply isEqual_false.
  - rewrite from_suffix. intros Hfrom Hend Hc1 Hbody.
    destruct (suffixFromFirst _ _) as [suffix|] eqn:E; [|discriminate].
    injection Hfrom as <-. simpl in Hc1. subst suffix.
    exists (body ++ [final]), {| TransformChain.chain := body ++ [final] |}.
    split; [reflexivity|]. split; [|reflexivity].
    rewrite to_prefix. simpl.
    apply suffixFromFirst_Some in E as (before & first & rest & Hchain & _).
    unfold TransformChain.getEnd in Hend. rewrite Hchain, app_assoc, last_snoc in Hend.
    injection Hend as <-.
    rewrite prefixThroughFirst_snoc; [reflexivity| |now apply isEqual_true].
    eapply Forall_impl; [exact Hbody|]. intros t Ht. now apply isEqual_false.
Qed.

Lemma from_then_to_end_witness :
  exists suffix c2,
    suffixFromFirst (fun t => isEqual (start t) (cs 2)) [keep 1 2; keep 2 3; keep 3 4]
    = Some suffix
    /\ TransformChain.to {| TransformChain.chain := [keep 2 3; keep 3 4] |} (cs 4) = Success c2
    /\ forall (r : Analysis) (w : unit),
         TransformChain.apply c2 r w
         = TransformChain.reduce suffix (asResult (Bare (cloneDeep r))) w.
Proof.
  apply (proj2 (from_then_to_end
                  {| TransformChain.chain := [keep 1 2; keep 2 3; keep 3 4] |}
                  {| TransformChain.chain := [keep 2 3; keep 3 4] |}
                  (cs 2) (cs 4) [keep 2 3] (keep 3 4))).
  - reflexivity.
  - reflexivity.
  - reflexivity.
  - constructor; [discriminate|constructor].
Defined.

(** C3 fails as stated. In the chain 1 -> 2, 2 -> 1, 1 -> 2, built by
    [createTransformChain], whose second transform rejects every record,
    [from (1)] is the whole chain and [to (getEnd ())] of it is the first
    transform alone: applied to a record of version 1 it succeeds, while the
    suffix fails. *)
Lemma from_then_to_end_stops_early :
  let c := {| TransformChain.chain := [keep 1 2; reject 2 1; keep 1 2] |} in
  TransformChain.createTransformChain [keep 1 2; reject 2 1; keep 1 2] = Success c
  /\ TransformChain.from c (cs 1) = Success c
  /\ suffixFromFirst (fun t => isEqual (start t) (cs 1)) (TransformChain.chain c)
     = Some (TransformChain.chain c)
  /\ TransformChain.getEnd c = Returned (cs 2)
  /\ TransformChain.to c (cs 2) = Success {| TransformChain.chain := [keep 1 2] |}
  /\ TransformChain.apply {| TransformChain.chain := [keep 1 2] |} (sample 1) tt
     <> TransformChain.reduce (TransformChain.chain c)
          (asResult (Bare (cloneDeep (sample 1)))) tt.
Proof.
  repeat split. vm_compute. discriminate.
Qed.

(** ** Chains in the store *)

Section StoreFacts.
Context {W : Type}.
Implicit Types (s : ChainStore.Store W) (l : list (Transform W)).

Lemma read_insert s (r : nat) l : ChainStore.read r (<[r := l]> s) = l.
Proof. unfold ChainStore.read. now rewrite lookup_insert_eq. Qed.

Lemma fresh_lookup s : s !! fresh (dom s) = None.
Proof. apply not_elem_of_dom_1, is_fresh. Qed.

(** The loop in the store writes to the array it was given and to no other,
    and does what the loop on contents does. *)
Lemma store_forEachTransform (transforms : list (Transform W)) : forall index l s (r : nat),
  exists l',
    ChainStore.forEachTransform transforms index r (<[r := l]> s)
    = (match TransformChain.forEachTransform transforms index l with
       | Returned _ => Returned tt
       | Thrown e => Thrown e
       end, <[r := l']> s)
    /\ match TransformChain.forEachTransform transforms index l with
       | Returned chain => l' = chain
       | Thrown _ => True
       end.
Proof.
  induction transforms as [|t rest IH]; intros index l s r; simpl.
  - now exists l.
  - rewrite read_insert.
    destruct (negb (isEqual _ (start t))).
    + now exists l.
    + unfold ChainStore.push. rewrite alter_insert_eq. apply IH.
Qed.

Lemma store_extendTransformChain (base : nat) (transforms : list (Transform W)) s :
  let '(r, s') := ChainStore.extendTransformChain base transforms s in
  leavesChains s s' r
  /\ contentAt s' r = TransformChain.extendTransformChain (ChainStore.read base s) transforms.
Proof.
  unfold ChainStore.extendTransformChain, ChainStore.alloc,
    TransformChain.extendTransformChain.
  destruct (store_forEachTransform transforms 0 (ChainStore.read base s) s (fresh (dom s)))
    as (l' & -> & Hl').
  destruct (TransformChain.forEachTransform transforms 0 (ChainStore.read base s))
    as [chain|e]; simpl.
  - subst l'. rewrite read_insert. repeat split.
    + apply insert_subseteq, fresh_lookup.
    + apply fresh_lookup.
  - repeat split. apply insert_subseteq, fresh_lookup.
Qed.

Lemma leavesChains_after s s1 s2 (r : Result nat) :
  s ⊆ s1 -> leavesChains s1 s2 r -> leavesChains s s2 r.
Proof.
  intros H1 [H2 Hr]. split; [now transitivity s1|].
  destruct r as [c|]; [|exact I].
  destruct (s !! c) as [l|] eqn:E; [|reflexivity].
  apply (lookup_weaken _ s1) in E; [congruence|assumption].
Qed.

Lemma store_add (c : nat) (t : Transform W) s :
  let '(r, s') := ChainStore.add c t s in
  leavesChains s s' r
  /\ contentAt s' r = TransformChain.add {| TransformChain.chain := ChainStore.read c s |} t.
Proof. apply store_extendTransformChain. Qed.

Lemma store_from (c : nat) (v : AnalysisType) s :
  let '(r, s') := ChainStore.from c v s in
  leavesChains s s' r
  /\ contentAt s' r = TransformChain.from {| TransformChain.chain := ChainStore.read c s |} v.
Proof.
  unfold ChainStore.from, TransformChain.from; simpl.
  destruct (sliceFrom (ChainStore.read c s) _) as [data|errors].
  - unfold ChainStore.alloc.
    pose proof (store_extendTransformChain (fresh (dom s)) [] (<[fresh (dom s) := data]> s)) as H.
    destruct (ChainStore.extendTransformChain _ _ _) as [r s'].
    destruct H as [Hleave Hcontent]. rewrite read_insert in Hcontent. split; [|exact Hcontent].
    eapply leavesChains_after; [|exact Hleave]. apply insert_subseteq, fresh_lookup.
  - repeat split. reflexivity.
Qed.

Lemma store_to (c : nat) (v : AnalysisType) s :
  let '(r, s') := ChainStore.to c v s in
  leavesChains s s' r
  /\ contentAt s' r = TransformChain.to {| TransformChain.chain := ChainStore.read c s |} v.
Proof.
  unfold ChainStore.to, TransformChain.to; simpl.
  destruct (sliceTo (ChainStore.read c s) _ true) as [data|errors].
  - unfold ChainStore.alloc.
    pose proof (store_extendTransformChain (fresh (dom s)) [] (<[fresh (dom s) := data]> s)) as H.
    destruct (ChainStore.extendTransformChain _ _ _) as [r s'].
    destruct H as [Hleave Hcontent]. rewrite read_insert in Hcontent. split; [|exact Hcontent].
    eapply leavesChains_after; [|exact Hleave]. apply insert_subseteq, fresh_lookup.
  - repeat split. reflexivity.
Qed.

Lemma hasEnds_snoc (body : list (Transform W)) (final : Transform W) :
  hasEnds {| TransformChain.chain := body ++ [final] |}.
Proof.
  destruct body as [|first body].
  - exists final, final. repeat split.
  - exists first, final. unfold TransformChain.getEnd; simpl TransformChain.chain.
    rewrite app_comm_cons, last_snoc. repeat split.
Qed.

Lemma hasEnds_cons (first : Transform W) (rest : list (Transform W)) :
  hasEnds {| TransformChain.chain := first :: rest |}.
Proof.
  destruct (last (first :: rest)) as [final|] eqn:E.
  - apply last_Some in E as [body ->]. apply hasEnds_snoc.
  - apply last_None in E. discriminate.
Qed.

End StoreFacts.

(** C8, as amended. A chain returned as a Success by [createTransformChain]
    called with at least one transform, or by [add], [from] or [to] of any
    chain, has a first and a last transform, and [getStart ()] and
    [getEnd ()] return the start of the first and the end of the last. With
    arrays held by reference, [add], [from] and [to] leave every array of the
    store as it was, the array of the chain they are called on among them,
    and the chain they return is a new array, whose content is what the
    methods on contents compute. *)
Theorem chains_built_have_ends {W} :
  (forall (t : Transform W) ts c,
      TransformChain.createTransformChain (t :: ts) = Success c -> hasEnds c)
  /\ (forall c (t : Transform W) c', TransformChain.add c t = Success c' -> hasEnds c')
  /\ (forall (c : TransformChain.TransformChain W) v c',
         TransformChain.from c v = Success c' -> hasEnds c')
  /\ (forall (c : TransformChain.TransformChain W) v c',
         TransformChain.to c v = Success c' -> hasEnds c')
  /\ (forall (s : ChainStore.Store W) (c : nat) (t : Transform W),
         let '(r, s') := ChainStore.add c t s in
         leavesChains s s' r
         /\ contentAt s' r
            = TransformChain.add {| TransformChain.chain := ChainStore.read c s |} t)
  /\ (forall (s : ChainStore.Store W) (c : nat) (v : AnalysisType),
         let '(r, s') := ChainStore.from c v s in
         leavesChains s s' r
         /\ contentAt s' r
            = TransformChain.from {| TransformChain.chain := ChainStore.read c s |} v)
  /\ (forall (s : ChainStore.Store W) (c : nat) (v : AnalysisType),
         let '(r, s') := ChainStore.to c v s in
         leavesChains s s' r
         /\ contentAt s' r
            = TransformChain.to {| TransformChain.chain := ChainStore.read c s |} v).
Proof.
  repeat apply conj.
  - intros t ts c E. apply extendTransformChain_success in E as [_ ->]. apply hasEnds_cons.
  - intros c t c' E. apply extendTransformChain_success in E as [_ ->]. apply hasEnds_snoc.
  - intros c v c'. rewrite from_suffix.
    destruct (suffixFromFirst _ _) as [suffix|] eqn:E; [|discriminate].
    intros [= <-]. apply suffixFromFirst_Some in E as (_ & first & rest & _ & ->).
    apply hasEnds_cons.
  - intros c v c'. rewrite to_prefix.
    destruct (prefixThroughFirst _ _) as [prefix|] eqn:E; [|discriminate].
    intros [= <-]. apply prefixThroughFirst_Some in E as (body & final & ->).
    apply hasEnds_snoc.
  - intros s c t. apply store_add.
  - intros s c v. apply store_from.
  - intros s c v. apply store_to.
Qed.

(** C8 fails as stated: [createTransformChain ()] is a Success whose chain has
    no transform, and [getStart ()] and [getEnd ()] of it throw. *)
Lemma createTransformChain_of_nothing :
  TransformChain.createTransformChain (W:=unit) [] = Success {| TransformChain.chain := [] |}
  /\ TransformChain.getStart (W:=unit) {| TransformChain.chain := [] |}
     = Thrown (TransformChain.typeError "start")
  /\ TransformChain.getEnd (W:=unit) {| TransformChain.chain := [] |}
     = Thrown (TransformChain.typeError "end")
  /\ ~ hasEnds (W:=unit) {| TransformChain.chain := [] |}.
Proof.
  repeat split. intros (first & final & Hhead & _). discriminate.
Qed.

Lemma chains_built_have_ends_witness :
  hasEnds {| TransformChain.chain := [keep 1 2; keep 2 3] |}
  /\ hasEnds {| TransformChain.chain := [keep 1 2; keep 2 3; keep 3 4] |}
  /\ hasEnds {| TransformChain.chain := [keep 2 3] |}
  /\ hasEnds {| TransformChain.chain := [keep 1 2] |}.
Proof.
  pose proof (chains_built_have_ends (W:=unit)) as (Hcreate & Hadd & Hfrom & Hto & _).
  repeat apply conj.
  - apply (Hcreate (keep 1 2) [keep 2 3]). reflexivity.
  - apply (Hadd {| TransformChain.chain := [keep 1 2; keep 2 3] |} (keep 3 4)). reflexivity.
  - apply (Hfrom {| TransformChain.chain := [keep 1 2; keep 2 3] |} (cs 2)). reflexivity.
  - apply (Hto {| TransformChain.chain := [keep 1 2; keep 2 3] |} (cs 2)). reflexivity.
Defined.

(** ** The page loop *)

Section PageFacts.
Context {W : Type}.
Implicit Types (c : TransformChain.TransformChain W) (run : MigrateStudy.Run W).

Lemma filterEff_end c (e : AnalysisType) (analyses : list Analysis) run :
  TransformChain.getEnd c = Returned e ->
  MigrateStudy.filterEff
    (fun analysis =>
       do chainEnd <- MigrateStudy.pure (TransformChain.getEnd c) ;;
       ret (version (analysisType analysis) <? version chainEnd))
    analyses run
  = (Returned (below e analyses), run).
Proof.
  intros He. rewrite He. induction analyses as [|a rest IH]; [reflexivity|].
  cbn [MigrateStudy.filterEff below List.filter]. fold (below e rest).
  unfold bind at 1. unfold bind at 1. unfold MigrateStudy.pure at 1.
  unfold ret at 1. unfold bind at 1. rewrite IH. unfold ret.
  now destruct (version (analysisType a) <? version e).
Qed.

Lemma atOrBeyond_count (e : AnalysisType) (analyses : list Analysis) :
  Z.of_nat (List.length analyses) - Z.of_nat (List.length (below e analyses))
  = atOrBeyond e analyses.
Proof.
  unfold atOrBeyond, below. induction analyses as [|a rest IH]; simpl; [reflexivity|].
  destruct (Z.ltb_spec (version (analysisType a)) (version e));
    destruct (Z.leb_spec (version e) (version (analysisType a))); try lia;
    simpl List.length; lia.
Qed.

Lemma filterSkippedAnalyses_below c (e : AnalysisType) (analyses : list Analysis) run :
  TransformChain.getEnd c = Returned e ->
  MigrateStudy.filterSkippedAnalyses c analyses run
  = (Returned (below e analyses), skipRecords (atOrBeyond e analyses) run).
Proof.
  intros He. unfold MigrateStudy.filterSkippedAnalyses, bind.
  rewrite (filterEff_end c e) by exact He.
  unfold skipRecords. now rewrite atOrBeyond_count.
Qed.

Lemma applyMigrationsToPage_below c (e : AnalysisType)
  (migrate : list Analysis -> Eff (MigrateStudy.Run W) (ResultOr (list (ResultOr Analysis))))
  (page : PagedAnalysisResponse) run :
  TransformChain.getEnd c = Returned e ->
  MigrateStudy.applyMigrationsToPage c migrate (Bare page) run
  = withResult migrate
      (IsResult (Success (below e (Song.analyses page))))
      (skipRecords (atOrBeyond e (Song.analyses page)) run).
Proof.
  intros He.
  unfold MigrateStudy.applyMigrationsToPage, Pipe.build, Pipe.into, Pipe.pipe.
  rewrite (withResult_success _ _ page) by reflexivity.
  unfold bind at 1.
  rewrite (withResult_success _ _ page) by reflexivity.
  unfold bind at 1.
  rewrite (withResult_success _ _ page) by reflexivity.
  unfold ret at 1. cbn [asResult inspect inspect_array].
  rewrite (withResult_success _ _ (Song.analyses page)) by reflexivity.
  unfold bind at 1. rewrite (filterSkippedAnalyses_below c e) by exact He.
  unfold ret at 1. cbn [asResult inspect inspect_array]. unfold success.
  destruct (withResult_returns migrate
              (IsResult (Success (below e (Song.analyses page))))
              (skipRecords (atOrBeyond e (Song.analyses page)) run))
    as (r & run' & E); [discriminate|].
  rewrite E. now rewrite (withResult_normal _ _ _ _ _ E).
Qed.

End PageFacts.

Lemma below_versions (e : AnalysisType) (analyses : list Analysis) :
  Forall (fun analysis => version (analysisType analysis) < version e) (below e analyses).
Proof.
  unfold below. induction analyses as [|a rest IH]; simpl; [constructor|].
  destruct (Z.ltb_spec (version (analysisType a)) (version e)); [constructor|]; assumption.
Qed.

(** C6. With [e] the end of the chain: the filter returns the records of the
    page whose version is below that of [e], in their order, so that a record
    at or beyond it is not among them; [skipped] and [processed] grow by the
    number of records at or beyond [e]; and in [applyMigrationsToPage] the
    migration step is entered through [withResult] with the records the
    filter returned, so that it is given no other. *)
Theorem filter_skips_current_records {W} (c : TransformChain.TransformChain W)
  (e : AnalysisType)
  (migrate : list Analysis -> Eff (MigrateStudy.Run W) (ResultOr (list (ResultOr Analysis))))
  (page : PagedAnalysisResponse) (run : MigrateStudy.Run W) :
  TransformChain.getEnd c = Returned e ->
  MigrateStudy.filterSkippedAnalyses c (Song.analyses page) run
  = (Returned (below e (Song.analyses page)),
     skipRecords (atOrBeyond e (Song.analyses page)) run)
  /\ Forall (fun analysis => version (analysisType analysis) < version e)
       (below e (Song.analyses page))
  /\ MigrateStudy.applyMigrationsToPage c migrate (Bare page) run
     = withResult migrate
         (IsResult (Success (below e (Song.analyses page))))
         (skipRecords (atOrBeyond e (Song.analyses page)) run).
Proof.
  intros He. split; [|split].
  - now apply filterSkippedAnalyses_below.
  - apply below_versions.
  - now apply applyMigrationsToPage_below.
Qed.

Lemma filter_skips_current_records_witness :
  MigrateStudy.filterSkippedAnalyses {| TransformChain.chain := [keep 1 2] |}
    [sample 1; sample 2; sample 3] freshRun
  = (Returned [sample 1], skipRecords 2 freshRun)
  /\ Forall (fun analysis => version (analysisType analysis) < 2) [sample 1]
  /\ MigrateStudy.applyMigrationsToPage {| TransformChain.chain := [keep 1 2] |}
       (MigrateStudy.migrateAnalyses {| TransformChain.chain := [keep 1 2] |})
       (Bare (pageOf [sample 1; sample 2; sample 3])) freshRun
     = withResult (MigrateStudy.migrateAnalyses {| TransformChain.chain := [keep 1 2] |})
         (IsResult (Success [sample 1])) (skipRecords 2 freshRun).
Proof.
  apply (filter_skips_current_records {| TransformChain.chain := [keep 1 2] |} (cs 2)
           (MigrateStudy.migrateAnalyses {| TransformChain.chain := [keep 1 2] |})
           (pageOf [sample 1; sample 2; sample 3]) freshRun).
  reflexivity.
Defined.

Section MadeFacts.
Context {W : Type}.

Lemma reduce_failure (transforms : list (Transform W)) (errors : list string) (w : W) :
  TransformChain.reduce transforms (IsResult (Failure errors)) w
  = (Returned (IsResult (Failure errors)), w).
Proof.
  induction transforms as [|t transforms IH]; simpl; [reflexivity|].
  unfold bind. now rewrite withResult_failure.
Qed.

(** From a Result made by [success] or [failure], the fold returns one. *)
Lemma reduce_made (transforms : list (Transform W)) : forall (r : Result Analysis) (w : W),
  exists r' w', TransformChain.reduce transforms (IsResult r) w = (Returned (IsResult r'), w').
Proof.
  induction transforms as [|t transforms IH]; intros r w; [simpl; unfold ret; eauto|].
  cbn [TransformChain.reduce]. unfold bind at 1. destruct r as [data|errors].
  - rewrite (withResult_success _ _ data) by reflexivity.
    unfold Pipe.resultStep, bind, ret.
    destruct (Transforms.apply t data w) as [[x|e] w1]; cbn [asResult]; apply IH.
  - rewrite withResult_failure. apply IH.
Qed.

Lemma apply_made (c : TransformChain.TransformChain W) (analysis : Analysis) (w : W) :
  inspect analysis = None ->
  exists r w', TransformChain.apply c analysis w = (Returned (IsResult r), w').
Proof.
  intros E. unfold TransformChain.apply, cloneDeep. rewrite asResult_plain by exact E.
  apply reduce_made.
Qed.

Lemma setWorld_world (run : MigrateStudy.Run W) :
  MigrateStudy.setWorld (MigrateStudy.world run) run = run.
Proof. now destruct run. Qed.

Lemma outside_returns {A} (m : Eff W A) (a : A) (w' : W) (run : MigrateStudy.Run W) :
  m (MigrateStudy.world run) = (Returned a, w') ->
  MigrateStudy.outside m run = (Returned a, MigrateStudy.setWorld w' run).
Proof. intros E. unfold MigrateStudy.outside. now rewrite E. Qed.

Variable maxConcurrent : Z.
Variable updateAnalysis : Analysis -> Eff W (Result Analysis).

Lemma sendAnalysisUpdate_failure (errors : list string) (run : MigrateStudy.Run W) :
  MigrateStudy.sendAnalysisUpdate maxConcurrent updateAnalysis (IsResult (Failure errors)) run
  = (Returned (IsResult (Failure errors)), run).
Proof.
  unfold MigrateStudy.sendAnalysisUpdate, MigrateStudy.limitConcurrency.
  apply withResultAsync_failure.
Qed.

(** Given a Result made by [success] or [failure], the update returns one,
    and has changed nothing but the world outside. *)
Lemma sendAnalysisUpdate_made (r : Result Analysis) (run : MigrateStudy.Run W) :
  exists r' w',
    MigrateStudy.sendAnalysisUpdate maxConcurrent updateAnalysis (IsResult r) run
    = (Returned (IsResult r'), MigrateStudy.setWorld w' run)
    /\ (isSuccess r = false -> r' = r).
Proof.
  destruct r as [data|errors].
  - unfold MigrateStudy.sendAnalysisUpdate, MigrateStudy.limitConcurrency.
    rewrite withResultAsync_withResult, (withResult_success _ _ data) by reflexivity.
    unfold bind, ret, MigrateStudy.outside.
    destruct (updateAnalysis data (MigrateStudy.world run)) as [[x|e] w1]; cbn [asResult];
      eexists _, w1; (split; [reflexivity|discriminate]).
  - exists (Failure errors), (MigrateStudy.world run).
    rewrite sendAnalysisUpdate_failure, setWorld_world. now split.
Qed.

Lemma mapAsync_made (results : list (Result Analysis)) : forall run : MigrateStudy.Run W,
  exists updated w',
    MigrateStudy.mapAsync (MigrateStudy.sendAnalysisUpdate maxConcurrent updateAnalysis)
      (map IsResult results) run
    = (Returned (map IsResult updated), MigrateStudy.setWorld w' run)
    /\ Forall2 (fun r r' => isSuccess r = false -> r' = r) results updated.
Proof.
  unfold MigrateStudy.mapAsync.
  induction results as [|r results IH]; intros run.
  - exists [], (MigrateStudy.world run). rewrite setWorld_world. split; [reflexivity|constructor].
  - cbn [mapEff map]. unfold bind at 1.
    destruct (sendAnalysisUpdate_made r run) as (r' & w1 & -> & Hr).
    unfold bind at 1.
    destruct (IH (MigrateStudy.setWorld w1 run)) as (updated & w2 & -> & Hall).
    exists (r' :: updated), w2. split; [reflexivity|]. now constructor.
Qed.

Lemma countResult_made (r : Result Analysis) (run : MigrateStudy.Run W) :
  MigrateStudy.countResult (IsResult r) run
  = (Returned tt, if isSuccess r then tally 1 0 run else tally 0 1 run).
Proof.
  destruct run as [[study completed [n1 n2 n3 n4 n5]] t o l' w].
  destruct r as [data|errors];
    unfold MigrateStudy.countResult, tally, MigrateStudy.setSummary, MigrateStudy.setCounts;
    simpl; do 4 f_equal; lia.
Qed.

Lemma tally_tally (a b a' b' : Z) (run : MigrateStudy.Run W) :
  tally a' b' (tally a b run) = tally (a + a') (b + b') run.
Proof.
  destruct run as [[study completed [n1 n2 n3 n4 n5]] t o l' w].
  unfold tally, MigrateStudy.setSummary, MigrateStudy.setCounts; simpl. do 3 f_equal; lia.
Qed.

Lemma tally_nothing (run : MigrateStudy.Run W) : tally 0 0 run = run.
Proof.
  destruct run as [[study completed [n1 n2 n3 n4 n5]] t o l' w].
  unfold tally, MigrateStudy.setSummary, MigrateStudy.setCounts; simpl. do 3 f_equal; lia.
Qed.

Lemma forEach_countResult (updated : list (Result Analysis)) : forall run : MigrateStudy.Run W,
  MigrateStudy.forEach MigrateStudy.countResult (map IsResult updated) run
  = (Returned tt, tally (successes updated) (failures updated) run).
Proof.
  induction updated as [|r updated IH]; intros run.
  - unfold successes, failures. simpl. unfold ret. now rewrite tally_nothing.
  - cbn [MigrateStudy.forEach map]. unfold bind at 1. rewrite countResult_made, IH.
    unfold successes, failures. cbn [List.filter].
    destruct (isSuccess r); cbn [negb List.length]; rewrite tally_tally; do 2 f_equal; lia.
Qed.

End MadeFacts.

Section ForeignFacts.
Context {W : Type}.
Variable versions : Versions.
Variable f : Analysis -> Eff W (Result Analysis).
Variable rest : list (Transform W).
Variable maxConcurrent : Z.
Variable updateAnalysis : Analysis -> Eff W (Result Analysis).

Let c : TransformChain.TransformChain W :=
  {| TransformChain.chain := defineTransform versions f :: rest |}.

Lemma apply_otherFamily (analysis : Analysis) (w : W) :
  otherFamily versions analysis ->
  inspect analysis = None ->
  TransformChain.apply c analysis w = (Returned (IsResult (Failure [mismatch])), w).
Proof.
  intros Hname Hplain. unfold TransformChain.apply, c, cloneDeep.
  rewrite asResult_plain by exact Hplain. simpl. unfold bind at 1.
  rewrite (withResult_success _ _ analysis) by reflexivity.
  unfold Pipe.resultStep, bind. simpl.
  assert (isEqual (analysisType analysis) (vstart versions) = false) as ->.
  { apply isEqual_false. intros E. apply Hname. now rewrite E. }
  simpl. apply reduce_failure.
Qed.

(** The records of a page that have no [success] property all get a Result
    made by [success] or [failure], and those of another family the Failure
    of the first transform; nothing but the world outside has changed. *)
Lemma migrateAnalyses_plain (analyses : list Analysis) : forall run : MigrateStudy.Run W,
  Forall (fun analysis => inspect analysis = None) analyses ->
  exists results w',
    MigrateStudy.migrateAnalyses c analyses run
    = (Returned (Bare (map IsResult results)), MigrateStudy.setWorld w' run)
    /\ Forall2 (fun analysis r => otherFamily versions analysis -> r = Failure [mismatch])
         analyses results.
Proof.
  intros run Hall. unfold MigrateStudy.migrateAnalyses. unfold bind at 1.
  assert (exists results w',
             mapEff (fun analysis => MigrateStudy.outside (TransformChain.apply c analysis))
               analyses run
             = (Returned (map IsResult results), MigrateStudy.setWorld w' run)
             /\ Forall2 (fun analysis r => otherFamily versions analysis -> r = Failure [mismatch])
                  analyses results) as (results & w' & -> & H2).
  { clear - Hall. revert run. induction Hall as [|a l Ha Hall IH]; intros run.
    - exists [], (MigrateStudy.world run). rewrite setWorld_world.
      split; [reflexivity|constructor].
    - cbn [mapEff]. unfold bind at 1.
      destruct (apply_made c a (MigrateStudy.world run) Ha) as (r & w1 & E).
      rewrite (outside_returns _ _ _ _ E). unfold bind at 1.
      destruct (IH (MigrateStudy.setWorld w1 run)) as (results & w2 & -> & H2).
      exists (r :: results), w2. split; [reflexivity|]. constructor; [|exact H2].
      intros Hname. rewrite (apply_otherFamily a _ Hname Ha) in E. congruence. }
  exists results, w'. now split.
Qed.

Lemma pass_mixed (e : AnalysisType)
  (fetch : Eff (MigrateStudy.Run W) (Result PagedAnalysisResponse))
  (page : PagedAnalysisResponse) (run run1 : MigrateStudy.Run W) :
  TransformChain.getEnd c = Returned e ->
  fetch run = (Returned (Success page), run1) ->
  Forall (fun analysis => inspect analysis = None) (below e (Song.analyses page)) ->
  exists (updated : list (Result Analysis)) (w' : W),
    Forall2 (fun analysis r => otherFamily versions analysis -> r = Failure [mismatch])
      (below e (Song.analyses page)) updated
    /\ MigrateStudy.pass c maxConcurrent updateAnalysis (MigrateStudy.migrateAnalyses c)
         fetch run
       = (Returned None,
          tally (successes updated) (failures updated)
            (MigrateStudy.setWorld w'
               (skipRecords (atOrBeyond e (Song.analyses page)) run1))).
Proof.
  intros He Hfetch Hplain.
  destruct (migrateAnalyses_plain (below e (Song.analyses page))
              (skipRecords (atOrBeyond e (Song.analyses page)) run1) Hplain)
    as (results & w1 & Hmigrate & Hresults).
  destruct (mapAsync_made maxConcurrent updateAnalysis results
              (MigrateStudy.setWorld w1 (skipRecords (atOrBeyond e (Song.analyses page)) run1)))
    as (updated & w2 & Hupdate & Hupdated).
  exists updated, w2. split.
  { clear - Hresults Hupdated. revert updated Hupdated.
    induction Hresults as [|a r l results Hr Hresults IH]; intros updated Hupdated;
      inversion Hupdated as [|? r' ? updated' Hr' Hupdated']; subst; constructor.
    - intros Hname. rewrite (Hr Hname) in *. now apply Hr'.
    - now apply IH. }
  unfold MigrateStudy.pass, MigrateStudy.pagePipeline, Pipe.asyncRun, Pipe.asyncAwait,
    Pipe.asyncInto, Pipe.asyncPipe, Pipe.resultStep.
  rewrite !withResultAsync_withResult.
  unfold bind at 1.
  rewrite (withResult_success _ _ tt) by reflexivity.
  unfold bind at 1.
  rewrite withResultAsync_withResult.
  rewrite (withResult_success _ _ tt) by reflexivity.
  unfold bind at 1.
  rewrite withResultAsync_withResult.
  rewrite (withResult_success _ _ tt) by reflexivity.
  unfold bind at 1. rewrite Hfetch. unfold ret at 1. cbn [asResult].
  rewrite (withResult_success _ _ page) by reflexivity.
  rewrite (applyMigrationsToPage_below c e) by exact He.
  rewrite (withResult_success _ _ (below e (Song.analyses page))) by reflexivity.
  rewrite Hmigrate. cbn [asResult inspect inspect_array]. unfold success at 1.
  cbn [asResult].
  rewrite withResultAsync_withResult.
  rewrite (withResult_success _ _ (map IsResult results)) by reflexivity.
  unfold bind at 1. rewrite Hupdate.
  unfold ret at 1. cbn [asResult inspect inspect_array]. unfold success at 1.
  cbn [asResult made]. unfold bind at 1. rewrite forEach_countResult. reflexivity.
Qed.

End ForeignFacts.

(** C10, as amended. For a chain whose first transform was built by
    [defineTransform] and whose end is [e]: the filter keeps the records
    below the version of [e] and skips the others, whatever their family;
    the chain applied to a record of another family that has no boolean
    [success] property returns the Failure of the first transform, "Analysis
    type does not match expected input type", and leaves the world as it
    was; for a Failure no update is sent, and it is counted as an error. One
    pass of the loop over a page, of whatever families, whose records below
    [e] have no boolean [success] property counts the records at or beyond
    [e] as skipped, and counts one result for each record below [e], in
    order, where the result of each record of another family is that
    Failure. [migrateAnalyses] and [limitConcurrency] are modelled from the
    spec. *)
Theorem other_family_records {W} (versions : Versions)
  (f : Analysis -> Eff W (Result Analysis)) (rest : list (Transform W))
  (maxConcurrent : Z) (updateAnalysis : Analysis -> Eff W (Result Analysis))
  (e : AnalysisType) :
  let c := {| TransformChain.chain := defineTransform versions f :: rest |} in
  TransformChain.getEnd c = Returned e ->
  (forall (analyses : list Analysis) (run : MigrateStudy.Run W),
      MigrateStudy.filterSkippedAnalyses c analyses run
      = (Returned (below e analyses), skipRecords (atOrBeyond e analyses) run))
  /\ (forall (analysis : Analysis) (w : W),
         otherFamily versions analysis ->
         inspect analysis = None ->
         TransformChain.apply c analysis w = (Returned (IsResult (Failure [mismatch])), w))
  /\ (forall (errors : list string) (run : MigrateStudy.Run W),
         MigrateStudy.sendAnalysisUpdate maxConcurrent updateAnalysis
           (IsResult (Failure errors)) run
         = (Returned (IsResult (Failure errors)), run)
         /\ MigrateStudy.countResult (IsResult (Failure errors)) run
            = (Returned tt, tally 0 1 run))
  /\ (forall (fetch : Eff (MigrateStudy.Run W) (Result PagedAnalysisResponse))
             (page : PagedAnalysisResponse) (run run1 : MigrateStudy.Run W),
         fetch run = (Returned (Success page), run1) ->
         Forall (fun analysis => inspect analysis = None) (below e (Song.analyses page)) ->
         exists (updated : list (Result Analysis)) (w' : W),
           Forall2 (fun analysis r => otherFamily versions analysis -> r = Failure [mismatch])
             (below e (Song.analyses page)) updated
           /\ MigrateStudy.pass c maxConcurrent updateAnalysis (MigrateStudy.migrateAnalyses c)
                fetch run
              = (Returned None,
                 tally (successes updated) (failures updated)
                   (MigrateStudy.setWorld w'
                      (skipRecords (atOrBeyond e (Song.analyses page)) run1)))).
Proof.
  intros c He. split; [|split; [|split]].
  - intros analyses run. now apply filterSkippedAnalyses_below.
  - intros analysis w Hname Hplain. now apply apply_otherFamily.
  - intros errors run. split; [apply sendAnalysisUpdate_failure|].
    apply (countResult_made (Failure errors)).
  - intros fetch page run run1 Hfetch Hplain. now apply pass_mixed.
Qed.

Lemma other_family_records_witness :
  TransformChain.apply {| TransformChain.chain := [keep 1 2] |} (foreign 1) tt
  = (Returned (IsResult (Failure [mismatch])), tt)
  /\ exists (updated : list (Result Analysis)) (w' : unit),
       Forall2 (fun analysis r =>
                  otherFamily {| vstart := cs 1; vend := cs 2 |} analysis ->
                  r = Failure [mismatch])
         (below (cs 2) [foreign 1; sample 1; foreign 2; sample 2; foreign 5]) updated
       /\ MigrateStudy.pass {| TransformChain.chain := [keep 1 2] |} 5
            (fun analysis => ret (success analysis))
            (MigrateStudy.migrateAnalyses {| TransformChain.chain := [keep 1 2] |})
            (ret (Success (pageOf [foreign 1; sample 1; foreign 2; sample 2; foreign 5])))
            freshRun
          = (Returned None,
             tally (successes updated) (failures updated)
               (MigrateStudy.setWorld w'
                  (skipRecords
                     (atOrBeyond (cs 2) [foreign 1; sample 1; foreign 2; sample 2; foreign 5])
                     freshRun))).
Proof.
  destruct (other_family_records (W:=unit) {| vstart := cs 1; vend := cs 2 |}
              (fun analysis => ret (success analysis)) [] 5
              (fun analysis => ret (success analysis)) (cs 2) eq_refl)
    as (_ & Happly & _ & Hpass).
  split.
  - apply Happly; [vm_compute; discriminate|reflexivity].
  - apply (Hpass (ret (Success (pageOf [foreign 1; sample 1; foreign 2; sample 2; foreign 5])))
             (pageOf [foreign 1; sample 1; foreign 2; sample 2; foreign 5]) freshRun freshRun).
    + reflexivity.
    + repeat constructor.
Defined.

(** C10 fails as stated. A record of another family below the end of the
    chain whose document has the property [success] [false] is not rejected
    by the first transform: applying the chain to it throws, and there is no
    Failure to count. *)
Lemma other_family_record_with_success :
  otherFamily {| vstart := cs 1; vend := cs 2 |}
    (withDocument [("success", JsBoolean false)] (foreign 1))
  /\ version (analysisType (withDocument [("success", JsBoolean false)] (foreign 1))) < 2
  /\ TransformChain.getEnd {| TransformChain.chain := [keep 1 2] |} = Returned (cs 2)
  /\ TransformChain.apply {| TransformChain.chain := [keep 1 2] |}
       (withDocument [("success", JsBoolean false)] (foreign 1)) tt
     = (Thrown spreadError, tt).
Proof.
  split; [vm_compute; discriminate|]. split; [reflexivity|]. split; reflexivity.
Qed.

(** ** The concurrency limit *)

Section LimitFacts.
Import PromiseQueue.
Variable maxConcurrency : Z.
Implicit Types (st : State) (fn : Work).

Lemma setCalls_nil st : setCalls (calls st ++ []) st = st.
Proof. destruct st. unfold setCalls; simpl. now rewrite app_nil_r. Qed.

Lemma setCalls_app st (new more : list Call) :
  setCalls (calls (setCalls (calls st ++ new) st) ++ more) (setCalls (calls st ++ new) st)
  = setCalls (calls st ++ new ++ more) st.
Proof. unfold setCalls; simpl. now rewrite app_assoc. Qed.

(** Calling listeners adds the calls made, each with the current number of
    active processes, and changes nothing else. *)
Lemma fire_calls (h : Hook) (err : option JsValue) st :
  exists new,
    fire h err st = setCalls (calls st ++ new) st
    /\ Forall (fun c => running (event c) = activeProcesses st) new.
Proof.
  unfold fire. generalize (listeners h st) as ls. intros ls.
  assert (forall st0, activeProcesses st0 = activeProcesses st ->
            exists new,
              fold_left (fun st l => call h (getSize st) err l st) ls st0
              = setCalls (calls st0 ++ new) st0
              /\ Forall (fun c => running (event c) = activeProcesses st) new) as H;
    [|now apply H].
  induction ls as [|l ls IH]; intros st0 Hact; simpl.
  - exists []. now rewrite setCalls_nil.
  - destruct (IH (call h (getSize st0) err l st0)) as (new & -> & Hnew); [exact Hact|].
    eexists (_ :: new). unfold call. rewrite setCalls_app. split; [reflexivity|].
    constructor; [exact Hact|exact Hnew].
Qed.

Lemma observers_calls (observers : list nat) (fn : Work) st :
  exists new,
    fold_left
      (fun st (action : Queue.QueueEvent Work -> State -> State) =>
         action {| Queue.length := Z.of_nat (List.length (queue st)); Queue.item := fn |} st)
      (map (fun l event => call OnAdd (Queue.length event) None l) observers) st
    = setCalls (calls st ++ new) st
    /\ Forall (fun c => running (event c) = activeProcesses st) new.
Proof.
  assert (forall st0, activeProcesses st0 = activeProcesses st ->
            exists new,
              fold_left
                (fun st (action : Queue.QueueEvent Work -> State -> State) =>
                   action {| Queue.length := Z.of_nat (List.length (queue st));
                             Queue.item := fn |} st)
                (map (fun l event => call OnAdd (Queue.length event) None l) observers) st0
              = setCalls (calls st0 ++ new) st0
              /\ Forall (fun c => running (event c) = activeProcesses st) new) as H;
    [|now apply H].
  induction observers as [|l ls IH]; intros st0 Hact; simpl.
  - exists []. now rewrite setCalls_nil.
  - destruct (IH (call OnAdd (Z.of_nat (List.length (queue st0))) None l st0))
      as (new & -> & Hnew); [exact Hact|].
    eexists (_ :: new). unfold call. rewrite setCalls_app. split; [reflexivity|].
    constructor; [exact Hact|exact Hnew].
Qed.

Lemma take_queue st :
  Queue.take queue setQueue (fun _ => []) st
  = match queue st with
    | [] => (Failure ["Empty Queue"], st)
    | next :: rest => (Success next, setQueue rest st)
    end.
Proof. unfold Queue.take. destruct (queue st); reflexivity. Qed.

(** [attemptStart] starts the oldest work waiting if a slot is free, and
    otherwise does nothing. *)
Lemma attemptStart_cases st :
  (exists next rest new,
      activeProcesses st < maxConcurrency
      /\ queue st = next :: rest
      /\ Forall (fun c => running (event c) = activeProcesses st + 1) new
      /\ attemptStart maxConcurrency st
         = {| activeProcesses := activeProcesses st + 1; queue := rest;
              addObservers := addObservers st; startActions := startActions st;
              finishActions := finishActions st; errorActions := errorActions st;
              calls := calls st ++ new; started := started st ++ [next];
              awaited := awaited st ++ [next]; rethrown := rethrown st |})
  \/ ((maxConcurrency <= activeProcesses st \/ queue st = [])
      /\ attemptStart maxConcurrency st = st).
Proof.
  unfold attemptStart. rewrite take_queue.
  destruct (Z.ltb_spec (activeProcesses st) maxConcurrency) as [Hlt|Hge].
  - destruct (queue st) as [|next rest] eqn:Hq.
    + right. split; [now right|reflexivity].
    + left.
      destruct (fire_calls OnStart None
                  (setActiveProcesses (activeProcesses (setQueue rest st) + 1)
                     (setQueue rest st))) as (new & -> & Hnew).
      exists next, rest, new. repeat split; [exact Hlt|exact Hnew].
  - right. split; [now left|reflexivity].
Qed.

Lemma add_cases fn st :
  let st1 := attemptStart maxConcurrency (setQueue (queue st ++ [fn]) st) in
  exists new,
    add maxConcurrency fn st = setCalls (calls st1 ++ new) st1
    /\ Forall (fun c => running (event c) = activeProcesses st1) new.
Proof.
  intros st1. unfold add, Queue.add, Queue.triggerAddActions, Queue.trigger, queueAddActions.
  cbn [fold_left].
  apply (observers_calls (addObservers (setQueue (queue st ++ [fn]) st)) fn st1).
Qed.

Lemma withinLimit_calls st (new : list Call) :
  withinLimit maxConcurrency st ->
  Forall (fun c => running (event c) = activeProcesses st) new ->
  withinLimit maxConcurrency (setCalls (calls st ++ new) st).
Proof.
  intros (Hact & Hawait & Hcalls) Hnew. repeat split; simpl; try tauto.
  apply Forall_app. split; [exact Hcalls|].
  eapply Forall_impl; [exact Hnew|]. simpl. intros c ->. exact Hact.
Qed.

Lemma withinLimit_attemptStart st :
  withinLimit maxConcurrency st -> withinLimit maxConcurrency (attemptStart maxConcurrency st).
Proof.
  intros (Hact & Hawait & Hcalls).
  destruct (attemptStart_cases st) as [(next & rest & new & Hlt & Hq & Hnew & ->)|[_ ->]];
    [|now repeat split].
  repeat split; simpl; try lia.
  - rewrite length_app. simpl. lia.
  - apply Forall_app. split; [exact Hcalls|].
    eapply Forall_impl; [exact Hnew|]. simpl. intros c ->. lia.
Qed.

Lemma order_attemptStart st :
  started (attemptStart maxConcurrency st) ++ queue (attemptStart maxConcurrency st)
  = started st ++ queue st.
Proof.
  destruct (attemptStart_cases st) as [(next & rest & new & Hlt & Hq & Hnew & ->)|[_ ->]];
    [|reflexivity].
  simpl. rewrite Hq, <- app_assoc. reflexivity.
Qed.

Lemma saturated_attemptStart st :
  activeProcesses st <= maxConcurrency ->
  (List.length (queue st) <= 1)%nat \/ maxConcurrency - 1 <= activeProcesses st ->
  saturated maxConcurrency (attemptStart maxConcurrency st).
Proof.
  intros Hle Hpre.
  destruct (attemptStart_cases st)
    as [(next & rest & new & Hlt & Hq & Hnew & ->)|[Hno ->]]; unfold saturated; simpl.
  - intros Hrest. rewrite Hq in Hpre. simpl in Hpre.
    destruct Hpre as [Hlen|Hslot]; [|lia].
    destruct rest; [congruence|simpl in Hlen; lia].
  - intros Hq. destruct Hno as [Hfull|Hempty]; [lia|congruence].
Qed.

Lemma measure_attemptStart st :
  (List.length (awaited (attemptStart maxConcurrency st))
   + List.length (queue (attemptStart maxConcurrency st)))%nat
  = (List.length (awaited st) + List.length (queue st))%nat.
Proof.
  destruct (attemptStart_cases st) as [(next & rest & new & Hlt & Hq & Hnew & ->)|[_ ->]];
    [|reflexivity].
  simpl. rewrite Hq, length_app. simpl. lia.
Qed.

Lemma removeFirst_length fn (l : list Work) :
  fn ∈ l -> List.length l = S (List.length (removeFirst fn l)).
Proof.
  induction l as [|x l IH]; intros Hin; [now apply elem_of_nil in Hin|].
  simpl. destruct (decide (x = fn)) as [->|Hne]; [reflexivity|].
  apply elem_of_cons in Hin as [->|Hin]; [congruence|].
  simpl. now rewrite <- IH.
Qed.

Lemma resume_cases fn (outcome : Outcome unit) st :
  resume maxConcurrency outcome (setAwaited (removeFirst fn (awaited st)) st)
  = match outcome with
    | Thrown err =>
        match errorActions st with
        | [] => setRethrown (rethrown st ++ [err]) (settled fn st)
        | _ => attemptStart maxConcurrency (fire OnError (Some err) (settled fn st))
        end
    | Returned _ => attemptStart maxConcurrency (fire OnFinish None (settled fn st))
    end.
Proof.
  unfold resume, settled. destruct outcome as [u|err]; [reflexivity|].
  simpl. destruct (errorActions st); reflexivity.
Qed.

Lemma withinLimit_settled fn st :
  fn ∈ awaited st -> withinLimit maxConcurrency st -> withinLimit maxConcurrency (settled fn st).
Proof.
  intros Hin (Hact & Hawait & Hcalls). apply removeFirst_length in Hin.
  repeat split; simpl; try assumption; lia.
Qed.

Lemma withinLimit_fire (h : Hook) (err : option JsValue) st :
  withinLimit maxConcurrency st -> withinLimit maxConcurrency (fire h err st).
Proof.
  intros H. destruct (fire_calls h err st) as (new & -> & Hnew). now apply withinLimit_calls.
Qed.

Lemma step_withinLimit (s : Step) st st' :
  withinLimit maxConcurrency st -> step maxConcurrency s st = Some st' ->
  withinLimit maxConcurrency st'.
Proof.
  intros Hin. destruct s as [fn|h action|fn outcome]; simpl.
  - intros [= <-]. destruct (add_cases fn st) as (new & -> & Hnew).
    apply withinLimit_calls; [|exact Hnew]. apply withinLimit_attemptStart.
    destruct Hin as (Hact & Hawait & Hcalls). now repeat split.
  - intros [= <-]. destruct Hin as (Hact & Hawait & Hcalls). now repeat split.
  - destruct (decide (fn ∈ awaited st)) as [Hfn|]; [|discriminate].
    intros [= <-]. rewrite resume_cases.
    pose proof (withinLimit_settled fn st Hfn Hin) as Hs.
    destruct outcome as [u|err].
    + now apply withinLimit_attemptStart, withinLimit_fire.
    + destruct (errorActions st).
      * destruct Hs as (Hact & Hawait & Hcalls). now repeat split.
      * now apply withinLimit_attemptStart, withinLimit_fire.
Qed.

Lemma order_fire (h : Hook) (err : option JsValue) st :
  started (fire h err st) = started st /\ queue (fire h err st) = queue st
  /\ awaited (fire h err st) = awaited st
  /\ activeProcesses (fire h err st) = activeProcesses st.
Proof. destruct (fire_calls h err st) as (new & -> & _). now repeat split. Qed.

Lemma step_order (s : Step) st st' :
  step maxConcurrency s st = Some st' ->
  started st' ++ queue st' = started st ++ queue st ++ added [s].
Proof.
  destruct s as [fn|h action|fn outcome]; simpl.
  - intros [= <-]. destruct (add_cases fn st) as (new & -> & _). simpl.
    rewrite order_attemptStart. reflexivity.
  - intros [= <-]. simpl. now rewrite app_nil_r.
  - destruct (decide (fn ∈ awaited st)) as [Hfn|]; [|discriminate].
    intros [= <-]. rewrite resume_cases, app_nil_r.
    destruct outcome as [u|err].
    + rewrite order_attemptStart.
      destruct (order_fire OnFinish None (settled fn st)) as (-> & -> & _). reflexivity.
    + destruct (errorActions st); [reflexivity|].
      rewrite order_attemptStart.
      destruct (order_fire OnError (Some err) (settled fn st)) as (-> & -> & _). reflexivity.
Qed.

Lemma step_saturated (s : Step) st st' :
  resolves s -> withinLimit maxConcurrency st -> saturated maxConcurrency st ->
  step maxConcurrency s st = Some st' -> saturated maxConcurrency st'.
Proof.
  intros Hres (Hact & Hawait & Hcalls) Hsat.
  destruct s as [fn|h action|fn outcome]; simpl.
  - intros [= <-]. destruct (add_cases fn st) as (new & -> & _).
    assert (saturated maxConcurrency
              (attemptStart maxConcurrency (setQueue (queue st ++ [fn]) st))) as H; [|exact H].
    apply saturated_attemptStart; simpl; [lia|].
    destruct (queue st) as [|x q] eqn:Hq; [left; simpl; lia|].
    right. rewrite Hsat; [lia|]. congruence.
  - intros [= <-]. exact Hsat.
  - destruct (decide (fn ∈ awaited st)) as [Hfn|]; [|discriminate].
    intros [= <-]. rewrite resume_cases.
    destruct outcome as [u|err]; [|contradiction].
    apply saturated_attemptStart.
    + destruct (order_fire OnFinish None (settled fn st)) as (_ & _ & _ & ->). simpl. lia.
    + destruct (order_fire OnFinish None (settled fn st)) as (_ & -> & _ & ->). simpl.
      destruct (queue st) as [|x q] eqn:Hq; [left; simpl; lia|].
      right. rewrite Hsat; [lia|]. congruence.
Qed.

Lemma step_measure fn st st' :
  step maxConcurrency (Settle fn (Returned tt)) st = Some st' ->
  S (List.length (awaited st') + List.length (queue st'))
  = (List.length (awaited st) + List.length (queue st))%nat.
Proof.
  unfold step. destruct (decide (fn ∈ awaited st)) as [Hfn|]; [|discriminate].
  intros [= <-]. fold (settled fn st). rewrite measure_attemptStart.
  destruct (order_fire OnFinish None (settled fn st)) as (_ & -> & -> & _). simpl.
  rewrite (removeFirst_length fn (awaited st) Hfn). lia.
Qed.

Lemma withinLimit_create : 0 <= maxConcurrency -> withinLimit maxConcurrency create.
Proof. intros H. repeat split; simpl; [lia|lia|constructor]. Qed.

Lemma exec_invariants (steps : list Step) : forall st st',
  withinLimit maxConcurrency st -> exec maxConcurrency steps st = Some st' ->
  withinLimit maxConcurrency st'
  /\ started st' ++ queue st' = started st ++ queue st ++ added steps.
Proof.
  induction steps as [|s steps IH]; intros st st' Hin; simpl.
  - intros [= <-]. now rewrite app_nil_r.
  - destruct (step maxConcurrency s st) as [st1|] eqn:Hstep; [|discriminate].
    intros Hexec. destruct (IH st1 st' (step_withinLimit s st st1 Hin Hstep) Hexec) as [H1 H2].
    split; [exact H1|]. rewrite H2, app_assoc, (step_order s st st1 Hstep).
    unfold added. simpl. rewrite app_nil_r. now rewrite <- !app_assoc.
Qed.

Lemma exec_saturated (steps : list Step) : forall st st',
  Forall resolves steps -> withinLimit maxConcurrency st -> saturated maxConcurrency st ->
  exec maxConcurrency steps st = Some st' -> saturated maxConcurrency st'.
Proof.
  induction steps as [|s steps IH]; intros st st' Hres Hin Hsat; simpl.
  - now intros [= <-].
  - destruct (step maxConcurrency s st) as [st1|] eqn:Hstep; [|discriminate].
    inversion Hres as [|? ? Hs Hrest]; subst.
    apply (IH st1 st' Hrest).
    + exact (step_withinLimit s st st1 Hin Hstep).
    + exact (step_saturated s st st1 Hs Hin Hsat Hstep).
Qed.

(** When every promise resolves, in the order of the calls, all the work
    that waits is started, in the order of the queue. *)
Lemma drain_all (fuel : nat) : forall st,
  1 <= maxConcurrency -> withinLimit maxConcurrency st -> saturated maxConcurrency st ->
  (List.length (awaited st) + List.length (queue st) <= fuel)%nat ->
  started (drain maxConcurrency fuel st) = started st ++ queue st
  /\ queue (drain maxConcurrency fuel st) = []
  /\ awaited (drain maxConcurrency fuel st) = []
  /\ activeProcesses (drain maxConcurrency fuel st) = 0.
Proof.
  induction fuel as [|fuel IH]; intros st Hmax Hin Hsat Hfuel.
  - simpl. destruct (awaited st) eqn:Ha; [|simpl in Hfuel; lia].
    destruct (queue st) eqn:Hq; [|simpl in Hfuel; lia].
    destruct Hin as (_ & Hact & _). rewrite Ha in Hact. rewrite app_nil_r. now repeat split.
  - cbn [drain]. destruct (awaited st) as [|fn rest] eqn:Ha.
    + destruct Hin as (_ & Hact & _). rewrite Ha in Hact. simpl in Hact.
      destruct (queue st) as [|x q] eqn:Hq.
      * rewrite app_nil_r. now repeat split.
      * unfold saturated in Hsat. rewrite Hq in Hsat. specialize (Hsat ltac:(discriminate)). lia.
    + assert (step maxConcurrency (Settle fn (Returned tt)) st
              = Some (resume maxConcurrency (Returned tt) (setAwaited rest st))) as Hstep.
      { simpl. rewrite Ha. destruct (decide (fn ∈ fn :: rest)) as [_|Hno].
        - simpl. destruct (decide (fn = fn)); [reflexivity|congruence].
        - exfalso. apply Hno. apply elem_of_cons. now left. }
      pose proof (step_measure fn st _ Hstep) as Hm.
      destruct (IH (resume maxConcurrency (Returned tt) (setAwaited rest st)) Hmax
                  (step_withinLimit _ st _ Hin Hstep)
                  (step_saturated (Settle fn (Returned tt)) st _ I Hin Hsat Hstep))
        as (H1 & H2 & H3 & H4).
      * rewrite Ha in Hm. lia.
      * rewrite H1, (step_order _ st _ Hstep). simpl. rewrite app_nil_r. now repeat split.
Qed.

End LimitFacts.

(** C4. For every limit that is not negative and every sequence of calls to
    [add], registrations of listeners and settlings of awaited promises, the
    number of active processes is at most the limit, as is the [running] of
    every event a listener was called with, and the work started followed by
    the work waiting is the work added, in the order it was added; with limit
    2, [getRunning ()] is at most 2 in every such state. When no promise
    rejects and the limit is at least 1, resolving the promises awaited, as
    many times as there is work started or waiting, has every work function
    added started, in the order it was added. For five work functions added
    to a queue of limit 2: two are started at once and three wait; each
    promise resolved starts the next one waiting; after five, all five have
    been started in the order they were added and nothing is active. *)
Theorem promiseQueue_limit_and_order :
  (forall (maxConcurrency : Z) (steps : list PromiseQueue.Step) (st : PromiseQueue.State),
      0 <= maxConcurrency ->
      PromiseQueue.exec maxConcurrency steps PromiseQueue.create = Some st ->
      withinLimit maxConcurrency st
      /\ PromiseQueue.started st ++ PromiseQueue.queue st = added steps)
  /\ (forall (steps : list PromiseQueue.Step) (st : PromiseQueue.State),
         PromiseQueue.exec 2 steps PromiseQueue.create = Some st ->
         PromiseQueue.getRunning st <= 2)
  /\ (forall (maxConcurrency : Z) (steps : list PromiseQueue.Step) (st : PromiseQueue.State),
         1 <= maxConcurrency ->
         Forall resolves steps ->
         PromiseQueue.exec maxConcurrency steps PromiseQueue.create = Some st ->
         let st' :=
           PromiseQueue.drain maxConcurrency
             (List.length (PromiseQueue.awaited st) + List.length (PromiseQueue.queue st)) st in
         PromiseQueue.started st' = added steps
         /\ PromiseQueue.queue st' = []
         /\ PromiseQueue.awaited st' = []
         /\ PromiseQueue.getRunning st' = 0)
  /\ (forall w1 w2 w3 w4 w5 : PromiseQueue.Work,
         let st := addAll 2 [w1; w2; w3; w4; w5] in
         (PromiseQueue.started st = [w1; w2]
          /\ PromiseQueue.queue st = [w3; w4; w5]
          /\ PromiseQueue.getRunning st = 2)
         /\ PromiseQueue.started (PromiseQueue.drain 2 1 st) = [w1; w2; w3]
         /\ PromiseQueue.started (PromiseQueue.drain 2 2 st) = [w1; w2; w3; w4]
         /\ PromiseQueue.started (PromiseQueue.drain 2 3 st) = [w1; w2; w3; w4; w5]
         /\ (PromiseQueue.started (PromiseQueue.drain 2 5 st) = [w1; w2; w3; w4; w5]
             /\ PromiseQueue.queue (PromiseQueue.drain 2 5 st) = []
             /\ PromiseQueue.awaited (PromiseQueue.drain 2 5 st) = []
             /\ PromiseQueue.getRunning (PromiseQueue.drain 2 5 st) = 0)).
Proof.
  repeat apply conj.
  - intros maxConcurrency steps st Hmax Hexec.
    destruct (exec_invariants maxConcurrency steps PromiseQueue.create st
                (withinLimit_create maxConcurrency Hmax) Hexec) as [Hin Horder].
    split; [exact Hin|exact Horder].
  - intros steps st Hexec.
    destruct (exec_invariants 2 steps PromiseQueue.create st
                (withinLimit_create 2 ltac:(lia)) Hexec) as [(Hact & _) _].
    unfold PromiseQueue.getRunning. lia.
  - intros maxConcurrency steps st Hmax Hres Hexec st'.
    assert (0 <= maxConcurrency) as Hmax0 by lia.
    destruct (exec_invariants maxConcurrency steps PromiseQueue.create st
                (withinLimit_create maxConcurrency Hmax0) Hexec) as [Hin Horder].
    assert (saturated maxConcurrency st) as Hsat.
    { apply (exec_saturated maxConcurrency steps PromiseQueue.create st Hres
               (withinLimit_create maxConcurrency Hmax0)); [|exact Hexec].
      intros Hq. now contradiction Hq. }
    destruct (drain_all maxConcurrency
                (List.length (PromiseQueue.awaited st) + List.length (PromiseQueue.queue st))
                st Hmax Hin Hsat ltac:(lia)) as (H1 & H2 & H3 & H4).
    subst st'. rewrite H1, Horder. now repeat split.
  - intros w1 w2 w3 w4 w5 st. repeat split.
Qed.

Lemma promiseQueue_limit_and_order_witness :
  let steps :=
    map PromiseQueue.CallAdd
      [PromiseQueue.work 1; PromiseQueue.work 2; PromiseQueue.work 3;
       PromiseQueue.work 4; PromiseQueue.work 5]
    ++ [PromiseQueue.Settle (PromiseQueue.work 2) (Returned tt)] in
  match PromiseQueue.exec 2 steps PromiseQueue.create with
  | Some st =>
      withinLimit 2 st
      /\ PromiseQueue.getRunning st <= 2
      /\ PromiseQueue.started st ++ PromiseQueue.queue st = added steps
      /\ PromiseQueue.started
           (PromiseQueue.drain 2
              (List.length (PromiseQueue.awaited st) + List.length (PromiseQueue.queue st)) st)
         = added steps
  | None => False
  end.
Proof.
  intros steps.
  destruct (PromiseQueue.exec 2 steps PromiseQueue.create) as [st|] eqn:Hexec;
    [|vm_compute in Hexec; discriminate].
  destruct promiseQueue_limit_and_order as (Hany & Htwo & Hall & _).
  destruct (Hany 2 steps st ltac:(lia) Hexec) as [Hin Horder].
  destruct (Hall 2 steps st ltac:(lia) ltac:(repeat constructor) Hexec) as (Hstarted & _).
  exact (conj Hin (conj (Htwo steps st Hexec) (conj Horder Hstarted))).
Defined.

(** * Further properties *)

(** ** Pipes *)

Section PipeFacts.
Context {W : Type}.

Lemma withResult_returnsResult {T U} `{Inspect T} `{Inspect U} (fn : T -> Eff W (ResultOr U))
  (x : T) (w : W) :
  ~ unspreadable x -> returnsResult (withResult fn (Bare x) w).
Proof.
  intros Hx.
  destruct (withResult_returns fn (Bare x) w) as (r & w' & E).
  - simpl. unfold unspreadable in Hx. destruct (inspect x) as [read|]; congruence.
  - exists r, w'. split; [exact E|]. exact (withResult_normal _ _ _ _ _ E).
Qed.

Lemma withResult_unspreadable {T U} `{Inspect T} `{Inspect U} (fn : T -> Eff W (ResultOr U))
  (x : T) (w : W) :
  unspreadable x -> withResult fn (Bare x) w = (Thrown spreadError, w).
Proof. intros Hx. now rewrite (withResult_passes _ _ _ _ Hx). Qed.

End PipeFacts.

(** X1. Running a builder made by [pipe], [into], [check] or [await], or by
    their asynchronous counterparts, returns a Result and throws nothing,
    whatever the steps and the builder it extends do, unless the argument is
    an object with [success] [false] whose [errors] cannot be spread: run on
    such an argument every one of them throws, and nothing else has happened. *)
Theorem pipes_return_results {W A B C} `{Inspect A} `{Inspect B} `{Inspect C}
  (f : A -> Eff W (ResultOr B)) (g : B -> Eff W (ResultOr C)) (test : B -> bool)
  (message : string) (safeF : Pipe.PipeBuilder A B) (arg : A) (w : W) :
  (~ unspreadable arg ->
   returnsResult (Pipe.run (Pipe.pipe f) arg w)
   /\ returnsResult (Pipe.run (Pipe.into safeF g) arg w)
   /\ returnsResult (Pipe.run (Pipe.check safeF test message) arg w)
   /\ returnsResult (Pipe.asyncRun (Pipe.await safeF g) arg w)
   /\ returnsResult (Pipe.asyncRun (Pipe.asyncPipe f) arg w)
   /\ returnsResult (Pipe.asyncRun (Pipe.asyncInto safeF g) arg w)
   /\ returnsResult (Pipe.asyncRun (Pipe.asyncCheck safeF test message) arg w)
   /\ returnsResult (Pipe.asyncRun (Pipe.asyncAwait safeF g) arg w))
  /\ (unspreadable arg ->
      Pipe.run (Pipe.pipe f) arg w = (Thrown spreadError, w)
      /\ Pipe.run (Pipe.into safeF g) arg w = (Thrown spreadError, w)
      /\ Pipe.run (Pipe.check safeF test message) arg w = (Thrown spreadError, w)
      /\ Pipe.asyncRun (Pipe.await safeF g) arg w = (Thrown spreadError, w)
      /\ Pipe.asyncRun (Pipe.asyncPipe f) arg w = (Thrown spreadError, w)
      /\ Pipe.asyncRun (Pipe.asyncInto safeF g) arg w = (Thrown spreadError, w)
      /\ Pipe.asyncRun (Pipe.asyncCheck safeF test message) arg w = (Thrown spreadError, w)
      /\ Pipe.asyncRun (Pipe.asyncAwait safeF g) arg w = (Thrown spreadError, w)).
Proof.
  split; intros Harg.
  - repeat apply conj; now apply withResult_returnsResult.
  - repeat apply conj; now apply withResult_unspreadable.
Qed.

Lemma pipes_return_results_witness :
  (~ unspreadable (record [])
   /\ returnsResult
        (Pipe.run (Pipe.pipe (fun a : Analysis => @ret unit _ (Bare a))) (record []) tt))
  /\ unspreadable (record [("success", JsBoolean false)])
  /\ Pipe.run (Pipe.pipe (fun a : Analysis => @ret unit _ (Bare a)))
       (record [("success", JsBoolean false)]) tt
     = (Thrown spreadError, tt).
Proof.
  split; [split; [discriminate|]|split; [reflexivity|]].
  - apply (proj1 (pipes_return_results (fun a : Analysis => @ret unit _ (Bare a))
                    (fun a : Analysis => @ret unit _ (Bare a)) (fun _ => true) "no"
                    (Pipe.pipe (fun a : Analysis => @ret unit _ (Bare a))) (record []) tt)).
    discriminate.
  - apply (proj2 (pipes_return_results (fun a : Analysis => @ret unit _ (Bare a))
                    (fun a : Analysis => @ret unit _ (Bare a)) (fun _ => true) "no"
                    (Pipe.pipe (fun a : Analysis => @ret unit _ (Bare a)))
                    (record [("success", JsBoolean false)]) tt)).
    reflexivity.
Defined.

(** X2. [pipe (f).into (g).check (test, message)] run on an argument that is
    not an object with a boolean [success]: when [f] throws or returns a
    Failure, [g] is not called and the Failure of [f] is the result, and so
    it is when [f] returns an object with [success] [false], where an
    [errors] that cannot be spread gives the Failure of that TypeError;
    otherwise [g] is called once on what [f] returned, and when it throws
    that Failure is the result; when it returns a Failure, or an object with
    [success] [false], that is the result as it is; otherwise the result is
    what [g] returned if [test] accepts its payload and the Failure carrying
    [message] if it does not. *)
Theorem pipe_into_check {W A B C} `{Inspect A} `{Inspect B} `{Inspect C}
  (f : A -> Eff W (ResultOr B)) (g : B -> Eff W (ResultOr C)) (test : C -> bool)
  (message : string) (arg : A) (n : nat) (w : W) :
  inspect arg = None ->
  Pipe.run (Pipe.check (Pipe.into (Pipe.pipe (uncounted f)) (counted g)) test message)
    arg (n, w)
  = match f arg w with
    | (Thrown e, w1) => (Returned (IsResult (Failure [unknownToString e])), (n, w1))
    | (Returned x, w1) =>
        match reading x with
        | ReadFailure NotIterable =>
            (Returned (IsResult (Failure [unknownToString spreadError])), (n, w1))
        | ReadFailure (Parts errors) =>
            (Returned (IsResult (Failure (map unknownToString errors))), (n, w1))
        | ReadSuccess b =>
            match g b w1 with
            | (Thrown e, w2) => (Returned (IsResult (Failure [unknownToString e])), (S n, w2))
            | (Returned y, w2) =>
                match reading y with
                | ReadSuccess c =>
                    (Returned (if test c then asResult y else IsResult (Failure [message])),
                     (S n, w2))
                | ReadFailure _ => (Returned (asResult y), (S n, w2))
                end
            end
        end
    end.
Proof.
  intros Harg.
  unfold Pipe.run, Pipe.check, Pipe.into, Pipe.pipe.
  rewrite (withResult_success _ _ arg) by now apply reading_plain.
  unfold bind at 1.
  rewrite (withResult_success _ _ arg) by now apply reading_plain.
  unfold bind at 1.
  rewrite (withResult_success _ _ arg) by now apply reading_plain.
  unfold uncounted at 1. simpl fst. simpl snd.
  destruct (f arg w) as [[x|e] w1].
  - unfold withResult at 1. cbv zeta. rewrite asResult_twice, reading_asResult.
    destruct (reading x) as [b|[errors|]] eqn:Hx.
    + unfold tryCatch, bind, ret, counted. simpl fst. simpl snd.
      destruct (g b w1) as [[y|e] w2].
      * rewrite !asResult_twice, !reading_asResult.
        destruct (reading y) as [c|errors] eqn:Hy.
        -- destruct (test c); cbn [negb]; [now rewrite asResult_twice|reflexivity].
        -- now rewrite asResult_twice.
      * reflexivity.
    + reflexivity.
    + reflexivity.
  - rewrite withResult_failure. reflexivity.
Qed.

Lemma pipe_into_check_witness :
  Pipe.run
    (Pipe.check
       (Pipe.into (Pipe.pipe (uncounted (fun x : Z => @ret unit _ (Bare (x + 1)))))
          (counted (fun x : Z => @ret unit _ (Bare (2 * x)))))
       (fun x => x <? 10) "too large")
    1 (0%nat, tt)
  = (Returned (IsResult (Success 4)), (1%nat, tt)).
Proof.
  exact (pipe_into_check (fun x : Z => @ret unit _ (Bare (x + 1)))
           (fun x : Z => @ret unit _ (Bare (2 * x))) (fun x => x <? 10) "too large"
           1 0%nat tt eq_refl).
Defined.

(** ** The queue, first in first out *)

Section FifoFacts.
Context {T : Type} `{Truthy T}.
Implicit Types (items q : list T) (log : list (Queue.QueueEvent T)).

Lemma enqueue_all items : forall q log,
  fold_left (fun st x => enqueue x st) items (q, log)
  = (q ++ items, log ++ addEvents (List.length q) items).
Proof.
  induction items as [|x items IH]; intros q log; simpl.
  - now rewrite !app_nil_r.
  - unfold enqueue at 2, Queue.add, Queue.triggerAddActions, Queue.trigger, recordEvent, setArray.
    simpl. rewrite IH, <- !app_assoc. f_equal. f_equal. unfold addEvents. simpl. f_equal.
    + f_equal. rewrite length_app. simpl. lia.
    + apply imap_ext. intros i y _. simpl. f_equal. rewrite length_app. simpl. lia.
Qed.

Lemma dequeue_all q : forall log,
  Forall (fun x => truthy x = true) q ->
  dequeueMany (List.length q) (q, log) = (map Success q, ([], log ++ takeEvents q)).
Proof.
  induction q as [|x q IH]; intros log Hall; simpl.
  - now rewrite app_nil_r.
  - inversion Hall as [|? ? Hx Hq]; subst.
    unfold dequeue at 1, Queue.take. simpl. rewrite Hx.
    unfold Queue.triggerTakeActions, Queue.trigger, recordEvent, setArray. simpl.
    rewrite IH by exact Hq. rewrite <- app_assoc. unfold success. do 3 f_equal.
    unfold takeEvents. simpl. f_equal. do 2 f_equal. lia.
Qed.

End FifoFacts.

(** X3. Items that are all truthy, added one by one to an empty queue, are in
    the queue in that order; taking as many times returns them as Successes
    in the order they were added and leaves the queue empty, and the next
    [take ()] is the Failure "Empty Queue". The add-listener was called once
    for each item with the length after the append, the take-listener once
    for each with the length after the removal. *)
Theorem queue_first_in_first_out {T} `{Truthy T} (items : list T) :
  Forall (fun x => truthy x = true) items ->
  let st := fold_left (fun st x => enqueue x st) items ([], []) in
  st = (items, addEvents 0 items)
  /\ Queue.getSize fst st = Z.of_nat (List.length items)
  /\ dequeueMany (List.length items) st
     = (map Success items, ([], addEvents 0 items ++ takeEvents items))
  /\ dequeue (snd (dequeueMany (List.length items) st))
     = (Failure ["Empty Queue"], ([], addEvents 0 items ++ takeEvents items)).
Proof.
  intros Hall st. subst st. rewrite enqueue_all. simpl.
  rewrite dequeue_all by exact Hall. repeat split.
Qed.

Lemma queue_first_in_first_out_witness :
  dequeueMany 3 (fold_left (fun st x => enqueue x st) [5; 7; 9] ([], []))
  = (map Success [5; 7; 9], ([], addEvents 0 [5; 7; 9] ++ takeEvents [5; 7; 9])).
Proof.
  apply (queue_first_in_first_out [5; 7; 9]).
  repeat constructor.
Defined.

(** ** Searching and slicing arrays *)

Section IndexFacts.
Context {T : Type}.
Implicit Types (array : list T) (test : T -> bool).

Lemma findIndex_cases array test :
  (findIndex array test = -1 /\ Forall (fun x => test x = false) array)
  \/ (0 <= findIndex array test < Z.of_nat (List.length array)
      /\ (exists x, array !! Z.to_nat (findIndex array test) = Some x /\ test x = true)
      /\ Forall (fun x => test x = false) (take (Z.to_nat (findIndex array test)) array)).
Proof.
  induction array as [|x rest IH]; simpl.
  - left. split; [reflexivity|constructor].
  - destruct (test x) eqn:Hx.
    + right. repeat split; try lia.
      * exists x. split; [reflexivity|exact Hx].
      * constructor.
    + destruct IH as [[Hnone Hall]|(Hrange & (y & Hy & Hty) & Hbefore)].
      * left. rewrite Hnone. simpl. split; [reflexivity|now constructor].
      * right. destruct (Z.ltb_spec (findIndex rest test) 0) as [Hlt|_]; [lia|].
        replace (Z.to_nat (findIndex rest test + 1))
          with (S (Z.to_nat (findIndex rest test))) by lia.
        repeat split; try lia.
        -- exists y. split; [exact Hy|exact Hty].
        -- simpl. now constructor.
Qed.

End IndexFacts.

(** X4. [sliceTo] without the matching element and [sliceFrom] cut an array
    at the same place: either both fail, and then no element passes the test
    and the inclusive [sliceTo] fails too, or the two slices put together are
    the array, no element of the first passes, the second begins with an
    element that passes, and the inclusive [sliceTo] is the first slice
    followed by that element. *)
Theorem slices_cut_at_first_match {T} (array : list T) (test : T -> bool) :
  match sliceTo array test false, sliceFrom array test with
  | Success before, Success from =>
      before ++ from = array
      /\ Forall (fun x => test x = false) before
      /\ exists x rest,
           from = x :: rest /\ test x = true
           /\ sliceTo array test true = Success (before ++ [x])
  | Failure _, Failure _ =>
      Forall (fun x => test x = false) array
      /\ isSuccess (sliceTo array test true) = false
  | _, _ => False
  end.
Proof.
  unfold sliceTo, sliceFrom, sliceToIndex, sliceFromIndex.
  destruct (findIndex_cases array test) as [[-> Hall]|(Hrange & (x & Hx & Htx) & Hbefore)].
  - simpl. split; [exact Hall|reflexivity].
  - destruct (Z.ltb_spec (findIndex array test) 0) as [Hlt|_]; [lia|]. simpl.
    rewrite Z.add_0_r. split; [apply take_drop|]. split; [exact Hbefore|].
    exists x, (drop (S (Z.to_nat (findIndex array test))) array).
    split; [now apply drop_S|]. split; [exact Htx|].
    unfold success. f_equal.
    replace (Z.to_nat (findIndex array test + 1))
      with (S (Z.to_nat (findIndex array test))) by lia.
    now apply take_S_r.
Qed.

(** ** Applying a chain *)

Section ApplyFacts.
Context {W : Type}.
Implicit Types (transforms : list (Transform W)) (acc : ResultOr Analysis) (w : W).

(** A step of the fold returns a Result made by [success] or [failure]. *)
Lemma step_returned (t : Transform W) acc w (x : ResultOr Analysis) w' :
  withResult (Pipe.resultStep (apply t)) acc w = (Returned x, w') ->
  exists r, x = IsResult r.
Proof.
  unfold withResult. cbv zeta. destruct (reading (asResult acc)) as [data|[errors|]].
  - unfold tryCatch, Pipe.resultStep, bind, ret.
    destruct (apply t data w) as [[r|e] w1]; intros [= <- <-]; cbn [asResult]; eauto.
  - unfold ret. intros [= <- <-]. eauto.
  - discriminate.
Qed.

Lemma reduce_returned (t : Transform W) transforms acc w (x : ResultOr Analysis) w' :
  TransformChain.reduce (t :: transforms) acc w = (Returned x, w') ->
  exists r, x = IsResult r.
Proof.
  cbn [TransformChain.reduce]. unfold bind at 1.
  destruct (withResult (Pipe.resultStep (apply t)) acc w) as [[y|e] w1] eqn:E; [|discriminate].
  destruct (step_returned _ _ _ _ _ E) as (r & ->).
  destruct (reduce_made transforms r w1) as (r' & w2 & ->).
  intros [= <- <-]. eauto.
Qed.

Lemma apply_returnsResult (c : TransformChain.TransformChain W) (analysis : Analysis) w :
  ~ unspreadable analysis -> returnsResult (TransformChain.apply c analysis w).
Proof.
  intros Hr. unfold TransformChain.apply, cloneDeep.
  destruct (TransformChain.chain c) as [|t transforms]; cbn [TransformChain.reduce].
  - exists (asResult (Bare analysis)), w. split; [reflexivity|apply asResult_twice].
  - unfold bind at 1.
    destruct (withResult_returns (Pipe.resultStep (apply t)) (asResult (Bare analysis)) w)
      as (x & w1 & E).
    { rewrite reading_asResult. simpl. unfold unspreadable in Hr.
      destruct (inspect analysis) as [read|]; congruence. }
    rewrite E. destruct (step_returned _ _ _ _ _ E) as (r & ->).
    destruct (reduce_made transforms r w1) as (r' & w' & ->).
    exists (IsResult r'), w'. now split.
Qed.

Lemma apply_unspreadable (c : TransformChain.TransformChain W) (analysis : Analysis) w :
  unspreadable analysis -> TransformChain.chain c <> [] ->
  TransformChain.apply c analysis w = (Thrown spreadError, w).
Proof.
  intros Hr Hc. unfold TransformChain.apply, cloneDeep.
  destruct (TransformChain.chain c) as [|t transforms]; [congruence|].
  cbn [TransformChain.reduce]. unfold bind at 1.
  rewrite (asResult_passes _ _ Hr).
  now rewrite (withResult_passes _ _ _ _ Hr).
Qed.

Lemma reduce_app (before after : list (Transform W)) : forall acc w,
  TransformChain.reduce (before ++ after) acc w
  = match TransformChain.reduce before acc w with
    | (Returned r, w') => TransformChain.reduce after r w'
    | (Thrown e, w') => (Thrown e, w')
    end.
Proof.
  induction before as [|t before IH]; intros acc w; simpl; [reflexivity|].
  unfold bind.
  destruct (withResult (Pipe.resultStep (apply t)) acc w) as [[r|e] w'];
    [apply IH|reflexivity].
Qed.

(** One step of the fold over a transform made by [defineTransform]. *)
Lemma reduce_built (versions : Versions) (transformer : Analysis -> Eff W (Result Analysis))
  (rest : list (Transform W)) (analysis : Analysis) w :
  TransformChain.reduce (defineTransform versions transformer :: rest)
    (IsResult (Success analysis)) w
  = if isEqual (analysisType analysis) (vstart versions) then
      match transformer analysis w with
      | (Returned (Success data), w') =>
          TransformChain.reduce rest
            (IsResult (Success (withAnalysisType data (vend versions)))) w'
      | (Returned (Failure errors), w') =>
          (Returned (IsResult
                       (Failure ["Error applying transform"; stringify (versionsToJs versions);
                                 stringify (failureToJs errors)])), w')
      | (Thrown e, w') => (Returned (IsResult (Failure [unknownToString e])), w')
      end
    else (Returned (IsResult (Failure [mismatch])), w).
Proof.
  cbn [TransformChain.reduce]. unfold bind at 1.
  rewrite (withResult_success _ _ analysis) by reflexivity.
  unfold Pipe.resultStep. cbn [apply defineTransform].
  destruct (isEqual (analysisType analysis) (vstart versions)); cbn [negb]; unfold bind, ret.
  - destruct (transformer analysis w) as [[[data|errors]|e] w']; cbn [asResult].
    + reflexivity.
    + apply reduce_failure.
    + apply reduce_failure.
  - cbn [asResult]. apply reduce_failure.
Qed.

Lemma reduce_success_types transforms : Forall built transforms ->
  forall (analysis out : Analysis) w w',
  TransformChain.reduce transforms (IsResult (Success analysis)) w
  = (Returned (IsResult (Success out)), w') ->
  (forall first, head transforms = Some first -> analysisType analysis = start first)
  /\ (forall final, last transforms = Some final -> analysisType out = end_ final).
Proof.
  induction 1 as [|t rest (versions & transformer & ->) Hrest IH];
    intros analysis out w w' Hred.
  - split; intros ? [=].
  - rewrite reduce_built in Hred.
    destruct (isEqual (analysisType analysis) (vstart versions)) eqn:Htype; [|discriminate].
    apply isEqual_true in Htype.
    destruct (transformer analysis w) as [[[data|errors]|e] w1]; try discriminate.
    destruct (IH _ _ _ _ Hred) as [_ Hlast]. split.
    + intros first [= <-]. exact Htype.
    + intros final Hfinal. destruct rest as [|t2 rest].
      * injection Hfinal as <-. simpl in Hred. injection Hred as <- _. reflexivity.
      * apply Hlast. rewrite last_cons_cons in Hfinal. exact Hfinal.
Qed.

End ApplyFacts.

(** X5. [chain.apply] on a record returns a Result and throws nothing,
    whatever the transforms do, unless the record has [success] [false] and
    an [errors] that cannot be spread: on such a record a chain that has a
    transform throws, and no transform is run. In particular, when the
    transformer of the first transform throws on a record of its start type
    that has no boolean [success], [apply] of that transform throws, while
    [chain.apply] returns the Failure carrying the exception, and no later
    transform is run. *)
Theorem chain_apply_catches {W} (versions : Versions)
  (transformer : Analysis -> Eff W (Result Analysis)) (rest : list (Transform W))
  (c : TransformChain.TransformChain W) (r : Analysis) (e : JsValue) (w w1 : W) :
  (~ unspreadable r -> returnsResult (TransformChain.apply c r w))
  /\ (unspreadable r -> TransformChain.chain c <> [] ->
      TransformChain.apply c r w = (Thrown spreadError, w))
  /\ (inspect r = None ->
      analysisType r = vstart versions ->
      transformer r w = (Thrown e, w1) ->
      apply (defineTransform versions transformer) r w = (Thrown e, w1)
      /\ TransformChain.apply
           {| TransformChain.chain := defineTransform versions transformer :: rest |} r w
         = (Returned (IsResult (Failure [unknownToString e])), w1)).
Proof.
  split; [apply apply_returnsResult|]. split; [apply apply_unspreadable|].
  intros Hplain Htype Hthrow. split.
  - cbn [apply defineTransform].
    assert (isEqual (analysisType r) (vstart versions) = true) as ->
      by now apply isEqual_true.
    unfold bind. cbn [negb]. now rewrite Hthrow.
  - unfold TransformChain.apply. cbn [TransformChain.chain]. unfold cloneDeep.
    rewrite asResult_plain by exact Hplain.
    rewrite reduce_built.
    assert (isEqual (analysisType r) (vstart versions) = true) as ->
      by now apply isEqual_true.
    now rewrite Hthrow.
Qed.

Lemma chain_apply_catches_witness :
  returnsResult (TransformChain.apply {| TransformChain.chain := [keep 1 2] |} (sample 1) tt)
  /\ TransformChain.apply {| TransformChain.chain := [keep 1 2] |}
       (record [("success", JsBoolean false)]) tt
     = (Thrown spreadError, tt)
  /\ apply (defineTransform {| vstart := cs 1; vend := cs 2 |}
              (fun _ => throw (JsError "boom"))) (sample 1) tt
     = (Thrown (JsError "boom"), tt)
  /\ TransformChain.apply
       {| TransformChain.chain :=
            [defineTransform {| vstart := cs 1; vend := cs 2 |}
               (fun _ => throw (JsError "boom")); keep 2 3] |} (sample 1) tt
     = (Returned (IsResult (Failure ["boom"])), tt).
Proof.
  split; [|split].
  - apply (proj1 (chain_apply_catches {| vstart := cs 1; vend := cs 2 |}
                    (fun _ => throw (JsError "boom")) [keep 2 3]
                    {| TransformChain.chain := [keep 1 2] |} (sample 1) (JsError "boom")
                    tt tt)).
    discriminate.
  - apply (proj1 (proj2 (chain_apply_catches {| vstart := cs 1; vend := cs 2 |}
                           (fun _ => throw (JsError "boom")) [keep 2 3]
                           {| TransformChain.chain := [keep 1 2] |}
                           (record [("success", JsBoolean false)]) (JsError "boom") tt tt))).
    + reflexivity.
    + discriminate.
  - apply (proj2 (proj2 (chain_apply_catches {| vstart := cs 1; vend := cs 2 |}
                           (fun _ => throw (JsError "boom")) [keep 2 3]
                           {| TransformChain.chain := [] |} (sample 1) (JsError "boom")
                           tt tt))).
    + reflexivity.
    + reflexivity.
    + reflexivity.
Defined.

(** X6. For a chain whose transforms were all made by [defineTransform] and
    a record that has no boolean [success]: whenever [chain.apply] returns a
    Success, the record given had the analysis type [getStart ()] and the
    record returned has the analysis type [getEnd ()]. *)
Theorem chain_apply_success_types {W} (c : TransformChain.TransformChain W)
  (s e : AnalysisType) (r out : Analysis) (w w' : W) :
  Forall built (TransformChain.chain c) ->
  TransformChain.getStart c = Returned s ->
  TransformChain.getEnd c = Returned e ->
  inspect r = None ->
  TransformChain.apply c r w = (Returned (IsResult (Success out)), w') ->
  analysisType r = s /\ analysisType out = e.
Proof.
  intros Hbuilt Hs He Hplain Happly.
  unfold TransformChain.apply, cloneDeep in Happly.
  rewrite asResult_plain in Happly by exact Hplain.
  destruct (reduce_success_types _ Hbuilt _ _ _ _ Happly) as [Hfirst Hlast].
  unfold TransformChain.getStart in Hs. unfold TransformChain.getEnd in He.
  destruct (TransformChain.chain c) as [|first rest] eqn:Hc; [discriminate|].
  injection Hs as <-. split; [now apply Hfirst|].
  destruct (last (first :: rest)) as [final|]; [|discriminate].
  injection He as <-. now apply Hlast.
Qed.

Lemma chain_apply_success_types_witness :
  analysisType (sample 1) = cs 1
  /\ analysisType (withAnalysisType (withAnalysisType (sample 1) (cs 2)) (cs 3)) = cs 3.
Proof.
  apply (chain_apply_success_types {| TransformChain.chain := [keep 1 2; keep 2 3] |}
           (cs 1) (cs 3) (sample 1) _ tt tt).
  - repeat constructor; eexists _, _; reflexivity.
  - reflexivity.
  - reflexivity.
  - reflexivity.
  - reflexivity.
Defined.

(** X7. Applying a chain is applying its first part and then folding its
    second part from what the first part returned; when the first part
    failed, the second part is not run and that Failure is the result; when
    it succeeded with a record that has no boolean [success], folding the
    second part from there is applying the second part to that record. *)
Theorem chain_apply_in_two_parts {W} (before after : list (Transform W)) (r : Analysis)
  (w : W) :
  TransformChain.apply {| TransformChain.chain := before ++ after |} r w
  = match TransformChain.apply {| TransformChain.chain := before |} r w with
    | (Returned (IsResult (Failure errors)), w') => (Returned (IsResult (Failure errors)), w')
    | (Returned result, w') => TransformChain.reduce after result w'
    | (Thrown e, w') => (Thrown e, w')
    end
  /\ forall (mid : Analysis) (w' : W),
       inspect mid = None ->
       TransformChain.reduce after (IsResult (Success mid)) w'
       = TransformChain.apply {| TransformChain.chain := after |} mid w'.
Proof.
  split.
  - unfold TransformChain.apply. cbn [TransformChain.chain]. rewrite reduce_app.
    destruct (TransformChain.reduce before _ w) as [[[[mid|errors]|x]|e] w']; try reflexivity.
    apply reduce_failure.
  - intros mid w' Hplain. unfold TransformChain.apply, cloneDeep.
    cbn [TransformChain.chain]. now rewrite asResult_plain.
Qed.

Lemma chain_apply_in_two_parts_witness :
  inspect (sample 2) = None
  /\ TransformChain.reduce [keep 2 3] (IsResult (Success (sample 2))) tt
     = TransformChain.apply {| TransformChain.chain := [keep 2 3] |} (sample 2) tt.
Proof.
  split; [reflexivity|].
  apply (proj2 (chain_apply_in_two_parts [keep 1 2] [keep 2 3] (sample 1) tt)).
  reflexivity.
Defined.

(** ** Connected chains *)

Section ConnectedFacts.
Context {W : Type}.
Implicit Types (l before after : list (Transform W)) (v : AnalysisType).

Lemma connects_weaken l (previous : option AnalysisType) :
  connects previous l = true -> connects None l = true.
Proof.
  destruct l as [|t l]; [reflexivity|]. simpl.
  intros H. apply andb_true_iff in H as [_ H]. exact H.
Qed.

Lemma connects_app before : forall after (previous : option AnalysisType),
  connects previous (before ++ after)
  = connects previous before
    && connects (match lastEnd before with Some e => Some e | None => previous end) after.
Proof.
  induction before as [|t before IH]; intros after previous; [reflexivity|].
  cbn [app connects]. rewrite IH, andb_assoc. do 2 f_equal.
  unfold lastEnd. destruct before as [|t2 before]; [reflexivity|].
  rewrite last_cons_cons.
  destruct (last (t2 :: before)) eqn:E; [reflexivity|]. apply last_None in E. discriminate.
Qed.

Lemma connects_suffix before after :
  connects None (before ++ after) = true -> connects None after = true.
Proof.
  rewrite connects_app. intros H. apply andb_true_iff in H as [_ H].
  eapply connects_weaken, H.
Qed.

Lemma connects_prefix before after (previous : option AnalysisType) :
  connects previous (before ++ after) = true -> connects previous before = true.
Proof. rewrite connects_app. intros H. now apply andb_true_iff in H as [H _]. Qed.

Lemma prefixThroughFirst_prefix (test : Transform W -> bool) l : forall prefix,
  prefixThroughFirst test l = Some prefix -> exists rest, l = prefix ++ rest.
Proof.
  induction l as [|t l IH]; intros prefix; simpl; [discriminate|].
  destruct (test t).
  - intros [= <-]. now exists l.
  - destruct (prefixThroughFirst test l) as [p|]; [|discriminate].
    intros [= <-]. destruct (IH p eq_refl) as [rest ->]. now exists rest.
Qed.

(** In a connected chain whose first transform does not start at [v], the
    part through the first transform that ends at [v] and the part from the
    first transform that starts at [v] are the two halves of the chain. *)
Lemma halves_at_version v l : forall (previous : option AnalysisType) prefix suffix,
  connects previous l = true ->
  (forall first, head l = Some first -> start first <> v) ->
  prefixThroughFirst (fun t => isEqual (end_ t) v) l = Some prefix ->
  suffixFromFirst (fun t => isEqual (start t) v) l = Some suffix ->
  prefix ++ suffix = l.
Proof.
  induction l as [|t l IH]; intros previous prefix suffix Hc Hfirst; [discriminate|].
  cbn [prefixThroughFirst suffixFromFirst].
  assert (isEqual (start t) v = false) as -> by (apply isEqual_false; now apply Hfirst).
  simpl in Hc. apply andb_true_iff in Hc as [_ Hc].
  destruct (isEqual (end_ t) v) eqn:Hend.
  - apply isEqual_true in Hend. intros [= <-] Hsuffix.
    destruct l as [|t2 l]; [discriminate|]. simpl in Hsuffix, Hc.
    apply andb_true_iff in Hc as [Hlink _]. apply isEqual_true in Hlink.
    assert (isEqual (start t2) v = true) as Ht2 by (apply isEqual_true; congruence).
    rewrite Ht2 in Hsuffix. now injection Hsuffix as <-.
  - apply isEqual_false in Hend.
    destruct (prefixThroughFirst _ l) as [p|] eqn:Hp; [|discriminate].
    intros [= <-] Hsuffix. simpl. f_equal.
    apply (IH (Some (end_ t)) p suffix Hc); [|reflexivity|exact Hsuffix].
    intros first Hhead. destruct l as [|t2 l]; [discriminate|].
    injection Hhead as <-. simpl in Hc. apply andb_true_iff in Hc as [Hlink _].
    apply isEqual_true in Hlink. congruence.
Qed.

End ConnectedFacts.

(** X8. Connected chains stay connected: a chain returned as a Success by
    [createTransformChain] is connected, and [add], [from] and [to] of a
    connected chain return connected chains. *)
Theorem chains_stay_connected {W} :
  (forall (transforms : list (Transform W)) c,
      TransformChain.createTransformChain transforms = Success c ->
      connects None (TransformChain.chain c) = true)
  /\ (forall (c : TransformChain.TransformChain W) t c',
         connects None (TransformChain.chain c) = true ->
         TransformChain.add c t = Success c' ->
         connects None (TransformChain.chain c') = true)
  /\ (forall (c : TransformChain.TransformChain W) v c',
         connects None (TransformChain.chain c) = true ->
         TransformChain.from c v = Success c' ->
         connects None (TransformChain.chain c') = true)
  /\ (forall (c : TransformChain.TransformChain W) v c',
         connects None (TransformChain.chain c) = true ->
         TransformChain.to c v = Success c' ->
         connects None (TransformChain.chain c') = true).
Proof.
  repeat apply conj.
  - intros transforms c E. apply extendTransformChain_success in E as [Hc ->]. exact Hc.
  - intros c t c' Hc E. apply extendTransformChain_success in E as [Ht ->].
    cbn [TransformChain.chain]. rewrite connects_app, Hc. simpl.
    destruct (lastEnd (TransformChain.chain c)); exact Ht.
  - intros c v c' Hc. rewrite from_suffix.
    destruct (suffixFromFirst _ _) as [suffix|] eqn:E; [|discriminate].
    intros [= <-]. apply suffixFromFirst_Some in E as (before & _ & _ & Hl & _).
    rewrite Hl in Hc. cbn [TransformChain.chain]. eapply connects_suffix, Hc.
  - intros c v c' Hc. rewrite to_prefix.
    destruct (prefixThroughFirst _ _) as [prefix|] eqn:E; [|discriminate].
    intros [= <-]. apply prefixThroughFirst_prefix in E as [rest Hl].
    rewrite Hl in Hc. cbn [TransformChain.chain]. eapply connects_prefix, Hc.
Qed.

Lemma chains_stay_connected_witness :
  connects None [keep 1 2; keep 2 3] = true
  /\ connects None [keep 1 2; keep 2 3; keep 3 4] = true
  /\ connects None [keep 2 3] = true
  /\ connects None [keep 1 2] = true.
Proof.
  pose proof (chains_stay_connected (W:=unit)) as (Hcreate & Hadd & Hfrom & Hto).
  repeat apply conj.
  - apply (Hcreate [keep 1 2; keep 2 3] {| TransformChain.chain := [keep 1 2; keep 2 3] |}).
    reflexivity.
  - apply (Hadd {| TransformChain.chain := [keep 1 2; keep 2 3] |} (keep 3 4)
             {| TransformChain.chain := [keep 1 2; keep 2 3; keep 3 4] |});
      reflexivity.
  - apply (Hfrom {| TransformChain.chain := [keep 1 2; keep 2 3] |} (cs 2)
             {| TransformChain.chain := [keep 2 3] |}); reflexivity.
  - apply (Hto {| TransformChain.chain := [keep 1 2; keep 2 3] |} (cs 2)
             {| TransformChain.chain := [keep 1 2] |}); reflexivity.
Defined.

(** X9. In a connected chain that does not start at [v], [to (v)] and
    [from (v)], when both succeed, cut the chain in two: their transforms
    put together are those of the chain. When applying [to (v)] to a record
    fails or throws, applying the chain fails or throws in the same way; when
    it succeeds with a record that has no boolean [success], applying the
    chain is applying [from (v)] to that record. *)
Theorem to_and_from_split {W} (c lower upper : TransformChain.TransformChain W)
  (s v : AnalysisType) :
  connects None (TransformChain.chain c) = true ->
  TransformChain.getStart c = Returned s ->
  s <> v ->
  TransformChain.to c v = Success lower ->
  TransformChain.from c v = Success upper ->
  TransformChain.chain lower ++ TransformChain.chain upper = TransformChain.chain c
  /\ forall (r : Analysis) (w : W),
       match TransformChain.apply lower r w with
       | (Returned (IsResult (Success mid)), w') =>
           inspect mid = None ->
           TransformChain.apply c r w = TransformChain.apply upper mid w'
       | (Returned (IsResult (Failure errors)), w') =>
           TransformChain.apply c r w = (Returned (IsResult (Failure errors)), w')
       | (Returned (Bare _), _) => False
       | (Thrown e, w') => TransformChain.apply c r w = (Thrown e, w')
       end.
Proof.
  intros Hc Hs Hne. rewrite to_prefix, from_suffix.
  destruct (prefixThroughFirst _ _) as [prefix|] eqn:Hp; [|discriminate].
  destruct (suffixFromFirst _ _) as [suffix|] eqn:Hsuf; [|discriminate].
  intros [= <-] [= <-]. cbn [TransformChain.chain].
  assert (prefix ++ suffix = TransformChain.chain c) as Hsplit.
  { apply (halves_at_version v _ None prefix suffix Hc); [|exact Hp|exact Hsuf].
    intros first Hhead. unfold TransformChain.getStart in Hs.
    destruct (TransformChain.chain c); [discriminate|].
    injection Hhead as <-. injection Hs as <-. exact Hne. }
  split; [exact Hsplit|].
  assert (exists t rest, prefix = t :: rest) as (t & rest & ->).
  { destruct (TransformChain.chain c) as [|t l]; [discriminate|]. simpl in Hp.
    destruct (isEqual (end_ t) v); [injection Hp as <-; eauto|].
    destruct (prefixThroughFirst _ l); [injection Hp as <-; eauto|discriminate]. }
  intros r w. unfold TransformChain.apply. cbn [TransformChain.chain].
  rewrite <- Hsplit, reduce_app.
  destruct (TransformChain.reduce (t :: rest) _ w) as [[[[mid|errors]|x]|e] w'] eqn:E.
  - intros Hplain. unfold cloneDeep. now rewrite (asResult_plain mid).
  - apply reduce_failure.
  - destruct (reduce_returned _ _ _ _ _ _ E) as (r' & [=]).
  - reflexivity.
Qed.

Lemma to_and_from_split_witness :
  [keep 1 2; keep 2 3] ++ [keep 3 4] = [keep 1 2; keep 2 3; keep 3 4]
  /\ TransformChain.apply {| TransformChain.chain := [keep 1 2; keep 2 3; keep 3 4] |}
       (sample 1) tt
     = TransformChain.apply {| TransformChain.chain := [keep 3 4] |}
         (withAnalysisType (withAnalysisType (sample 1) (cs 2)) (cs 3)) tt.
Proof.
  destruct (to_and_from_split {| TransformChain.chain := [keep 1 2; keep 2 3; keep 3 4] |}
              {| TransformChain.chain := [keep 1 2; keep 2 3] |}
              {| TransformChain.chain := [keep 3 4] |} (cs 1) (cs 3))
    as [Hchain Happly].
  - reflexivity.
  - reflexivity.
  - vm_compute. discriminate.
  - reflexivity.
  - reflexivity.
  - split; [exact Hchain|]. apply (Happly (sample 1) tt). reflexivity.
Defined.

Section EndFacts.
Context {W : Type}.
Implicit Types (l : list (Transform W)) (test : Transform W -> bool).

Lemma suffixFromFirst_head test l suffix :
  suffixFromFirst test l = Some suffix ->
  exists before first rest, l = before ++ suffix /\ suffix = first :: rest /\ test first = true.
Proof.
  induction l as [|t l IH]; simpl; [discriminate|].
  destruct (test t) eqn:Ht.
  - intros [= <-]. now exists [], t, l.
  - intros E. destruct (IH E) as (before & first & rest & -> & -> & Hfirst).
    now exists (t :: before), first, rest.
Qed.

Lemma prefixThroughFirst_last test l : forall prefix,
  prefixThroughFirst test l = Some prefix ->
  exists body final rest,
    l = prefix ++ rest /\ prefix = body ++ [final] /\ test final = true.
Proof.
  induction l as [|t l IH]; intros prefix; simpl; [discriminate|].
  destruct (test t) eqn:Ht.
  - intros [= <-]. now exists [], t, l.
  - destruct (prefixThroughFirst test l) as [p|]; [|discriminate].
    intros [= <-]. destruct (IH p eq_refl) as (body & final & rest & -> & -> & Hfinal).
    now exists (t :: body), final, rest.
Qed.

Lemma prefixThroughFirst_None test l :
  prefixThroughFirst test l = None <-> Forall (fun x => test x = false) l.
Proof.
  induction l as [|t l IH]; simpl.
  - split; [constructor|reflexivity].
  - destruct (test t) eqn:Ht.
    + split; [discriminate|]. intros Hall. inversion Hall; congruence.
    + destruct (prefixThroughFirst test l) as [p|].
      * split; [discriminate|]. intros Hall. inversion Hall as [|? ? _ Hl]; subst.
        apply IH in Hl. discriminate.
      * split; [|reflexivity]. intros _. constructor; [exact Ht|now apply IH].
Qed.

Lemma prefixThroughFirst_distinct l (final : Transform W) :
  NoDup (end_ <$> l) -> last l = Some final ->
  prefixThroughFirst (fun t => isEqual (end_ t) (end_ final)) l = Some l.
Proof.
  intros Hnodup Hlast. apply last_Some in Hlast as [body ->].
  apply prefixThroughFirst_snoc; [|now apply isEqual_true].
  rewrite fmap_app in Hnodup. apply NoDup_app in Hnodup as (_ & Hdisjoint & _).
  apply Forall_forall. intros t Ht. apply isEqual_false. intros Heq.
  apply (Hdisjoint (end_ t)).
  - apply list_elem_of_fmap. now exists t.
  - rewrite Heq. simpl. apply list_elem_of_singleton. reflexivity.
Qed.

Lemma connects_ladder (family : string) (transformers : list (Analysis -> Eff W (Result Analysis))) :
  forall first : Z,
  connects (Some {| name := family; version := first |}) (ladder family first transformers)
  = true.
Proof.
  induction transformers as [|f rest IH]; intros first; [reflexivity|].
  cbn [ladder connects start end_ defineTransform vstart vend].
  rewrite IH, andb_true_r. now apply isEqual_true.
Qed.

Lemma lastEnd_ladder (family : string) (transformers : list (Analysis -> Eff W (Result Analysis))) :
  forall first : Z,
  transformers <> [] ->
  lastEnd (ladder family first transformers)
  = Some {| name := family; version := first + Z.of_nat (List.length transformers) |}.
Proof.
  induction transformers as [|f rest IH]; intros first Hne; [congruence|].
  destruct rest as [|g rest].
  - unfold lastEnd. simpl. do 2 f_equal.
  - unfold lastEnd in *. cbn [ladder]. cbn [ladder] in IH. rewrite last_cons_cons.
    rewrite IH by discriminate. do 2 f_equal. simpl List.length. lia.
Qed.

Lemma from_ladder (family : string) (transformers : list (Analysis -> Eff W (Result Analysis)))
  (v : AnalysisType) : forall first : Z,
  is_Some (suffixFromFirst (fun t => isEqual (start t) v) (ladder family first transformers))
  <-> name v = family
      /\ first <= version v < first + Z.of_nat (List.length transformers).
Proof.
  induction transformers as [|f rest IH]; intros first.
  - simpl. split; [intros [? [=]]|lia].
  - cbn [ladder suffixFromFirst start defineTransform vstart].
    destruct (isEqual {| name := family; version := first |} v) eqn:Heq.
    + apply isEqual_true in Heq. subst v. simpl. split; [|eauto].
      intros _. split; [reflexivity|lia].
    + apply isEqual_false in Heq. rewrite IH. simpl List.length.
      split; intros [Hname Hrange]; (split; [exact Hname|]); [lia|].
      destruct (decide (version v = first)) as [Hv|Hv]; [|lia].
      exfalso. apply Heq. destruct v as [n ver]. simpl in *. congruence.
Qed.

End EndFacts.

(** X10. A chain returned by [from (v)] starts at [v] and ends where the
    chain ends; a chain returned by [to (v)] ends at [v] and starts where the
    chain starts; and [to (v)] is a Failure exactly when no transform of the
    chain ends at [v]. *)
Theorem slices_start_and_end {W} (c : TransformChain.TransformChain W) (v : AnalysisType) :
  (forall c', TransformChain.from c v = Success c' ->
              TransformChain.getStart c' = Returned v
              /\ TransformChain.getEnd c' = TransformChain.getEnd c)
  /\ (forall c', TransformChain.to c v = Success c' ->
                 TransformChain.getEnd c' = Returned v
                 /\ TransformChain.getStart c' = TransformChain.getStart c)
  /\ (isSuccess (TransformChain.to c v) = false
      <-> Forall (fun t => end_ t <> v) (TransformChain.chain c)).
Proof.
  split; [|split].
  - intros c'. rewrite from_suffix.
    destruct (suffixFromFirst _ _) as [suffix|] eqn:E; [|discriminate].
    intros [= <-]. apply suffixFromFirst_head in E as (before & first & rest & Hl & -> & Hv).
    apply isEqual_true in Hv. unfold TransformChain.getStart, TransformChain.getEnd.
    cbn [TransformChain.chain]. rewrite Hl, Hv. split; [reflexivity|].
    rewrite last_app. destruct (last (first :: rest)) eqn:Hlast; [reflexivity|].
    apply last_None in Hlast. discriminate.
  - intros c'. rewrite to_prefix.
    destruct (prefixThroughFirst _ _) as [prefix|] eqn:E; [|discriminate].
    intros [= <-]. apply prefixThroughFirst_last in E as (body & final & rest & Hl & -> & Hv).
    apply isEqual_true in Hv. unfold TransformChain.getStart, TransformChain.getEnd.
    cbn [TransformChain.chain]. rewrite Hl, last_snoc, Hv. split; [reflexivity|].
    destruct body; reflexivity.
  - rewrite to_prefix.
    destruct (prefixThroughFirst _ _) as [prefix|] eqn:E; simpl.
    + split; [discriminate|]. intros Hall.
      assert (prefixThroughFirst (fun t => isEqual (end_ t) v) (TransformChain.chain c) = None)
        as E'; [|congruence].
      apply prefixThroughFirst_None. eapply Forall_impl; [exact Hall|].
      intros t Ht. now apply isEqual_false.
    + split; [|reflexivity]. intros _. apply prefixThroughFirst_None in E.
      eapply Forall_impl; [exact E|]. intros t Ht. now apply isEqual_false.
Qed.

Lemma slices_start_and_end_witness :
  TransformChain.getStart {| TransformChain.chain := [keep 2 3; keep 3 4] |} = Returned (cs 2)
  /\ TransformChain.getEnd {| TransformChain.chain := [keep 1 2] |} = Returned (cs 2).
Proof.
  destruct (slices_start_and_end (W:=unit)
              {| TransformChain.chain := [keep 1 2; keep 2 3; keep 3 4] |} (cs 2))
    as (Hfrom & Hto & _).
  split.
  - apply (Hfrom {| TransformChain.chain := [keep 2 3; keep 3 4] |}). reflexivity.
  - apply (Hto {| TransformChain.chain := [keep 1 2] |}). reflexivity.
Defined.

(** X11. In a chain whose transforms end at versions that are all different,
    [to (getEnd ())] returns the chain itself, and so does it for every
    chain returned by [from]: [c.from (v).to (c.getEnd ())] is [c.from (v)]. *)
Theorem distinct_ends_round_trip {W} (c : TransformChain.TransformChain W) (e : AnalysisType) :
  NoDup (end_ <$> TransformChain.chain c) ->
  TransformChain.getEnd c = Returned e ->
  TransformChain.to c e = Success c
  /\ forall v c1, TransformChain.from c v = Success c1 -> TransformChain.to c1 e = Success c1.
Proof.
  intros Hnodup He. unfold TransformChain.getEnd in He.
  destruct (last (TransformChain.chain c)) as [final|] eqn:Hlast; [|discriminate].
  injection He as <-. split.
  - rewrite to_prefix, (prefixThroughFirst_distinct _ final Hnodup Hlast). now destruct c.
  - intros v c1. rewrite from_suffix.
    destruct (suffixFromFirst _ _) as [suffix|] eqn:E; [|discriminate].
    intros [= <-]. apply suffixFromFirst_head in E as (before & first & rest & Hl & Hs & _).
    rewrite to_prefix. cbn [TransformChain.chain].
    rewrite (prefixThroughFirst_distinct suffix final); [reflexivity| |].
    + rewrite Hl, fmap_app in Hnodup. now apply NoDup_app in Hnodup as (_ & _ & H).
    + rewrite Hl, last_app in Hlast. destruct (last suffix) eqn:Hsuffix; [exact Hlast|].
      apply last_None in Hsuffix. congruence.
Qed.

Lemma distinct_ends_round_trip_witness :
  TransformChain.to {| TransformChain.chain := [keep 1 2; keep 2 3] |} (cs 3)
  = Success {| TransformChain.chain := [keep 1 2; keep 2 3] |}.
Proof.
  apply (distinct_ends_round_trip (W:=unit) {| TransformChain.chain := [keep 1 2; keep 2 3] |}
           (cs 3)).
  - repeat constructor; vm_compute; intros Hin; inversion Hin; subst;
      try discriminate; match goal with H : _ ∈ [] |- _ => inversion H end.
  - reflexivity.
Defined.

(** X12. Transforms made by [defineTransform] that each go from one version
    of a family to the next always build into a chain, whatever their
    transformers; with at least one transform the chain ends at the first
    version plus the number of transforms, and [from (v)] succeeds exactly
    for the versions of that family from the first up to, and not
    including, the last. *)
Theorem ladder_builds {W} (family : string) (first : Z)
  (transformers : list (Analysis -> Eff W (Result Analysis))) (v : AnalysisType) :
  let c := {| TransformChain.chain := ladder family first transformers |} in
  TransformChain.createTransformChain (ladder family first transformers) = Success c
  /\ (transformers <> [] ->
      TransformChain.getStart c = Returned {| name := family; version := first |}
      /\ TransformChain.getEnd c
         = Returned {| name := family;
                       version := first + Z.of_nat (List.length transformers) |})
  /\ (isSuccess (TransformChain.from c v) = true
      <-> name v = family
          /\ first <= version v < first + Z.of_nat (List.length transformers)).
Proof.
  intros c. split; [|split].
  - apply extendTransformChain_success. split; [|reflexivity].
    eapply connects_weaken, connects_ladder.
  - intros Hne. split.
    + destruct transformers; [congruence|reflexivity].
    + unfold TransformChain.getEnd. cbn [TransformChain.chain c].
      pose proof (lastEnd_ladder family transformers first Hne) as H.
      unfold lastEnd in H. destruct (last (ladder family first transformers)); [|discriminate].
      simpl in H. now injection H as ->.
  - rewrite from_suffix. cbn [TransformChain.chain c]. rewrite <- from_ladder.
    destruct (suffixFromFirst _ _) as [suffix|]; simpl.
    + split; [eauto|reflexivity].
    + split; [discriminate|intros [? [=]]].
Qed.

Lemma ladder_builds_witness :
  TransformChain.getStart
    {| TransformChain.chain :=
         ladder (W:=unit) "consensus_sequence" 3
           [fun a => ret (success a); fun a => ret (success a)] |}
  = Returned (cs 3)
  /\ TransformChain.getEnd
       {| TransformChain.chain :=
            ladder (W:=unit) "consensus_sequence" 3
              [fun a => ret (success a); fun a => ret (success a)] |}
     = Returned (cs 5).
Proof.
  apply (ladder_builds (W:=unit) "consensus_sequence" 3
           [fun a => ret (success a); fun a => ret (success a)] (cs 3)).
  discriminate.
Defined.

(** ** Rejected promises *)

Section RejectionFacts.
Import PromiseQueue.
Variable maxConcurrency : Z.
Implicit Types (st : State) (fn : Work).

Lemma errorActions_fire (h : Hook) (err : option JsValue) st :
  errorActions (fire h err st) = errorActions st.
Proof. destruct (fire_calls h err st) as (new & -> & _). reflexivity. Qed.

Lemma errorActions_attemptStart st :
  errorActions (attemptStart maxConcurrency st) = errorActions st.
Proof.
  destruct (attemptStart_cases maxConcurrency st)
    as [(next & rest & new & _ & _ & _ & ->)|[_ ->]]; reflexivity.
Qed.

Lemma step_errorActions (s : Step) st st' :
  errorActions st <> [] -> step maxConcurrency s st = Some st' -> errorActions st' <> [].
Proof.
  intros Hne. destruct s as [fn|h action|fn outcome]; simpl.
  - intros [= <-]. destruct (add_cases maxConcurrency fn st) as (new & -> & _). simpl.
    now rewrite errorActions_attemptStart.
  - intros [= <-]. destruct h; simpl; try exact Hne.
    destruct (errorActions st); [congruence|discriminate].
  - destruct (decide (fn ∈ awaited st)) as [Hfn|]; [|discriminate].
    intros [= <-]. rewrite resume_cases. destruct outcome as [u|err].
    + now rewrite errorActions_attemptStart, errorActions_fire.
    + destruct (errorActions st) eqn:E; [congruence|].
      rewrite errorActions_attemptStart, errorActions_fire. simpl. now rewrite E.
Qed.

Lemma step_saturated_handled (s : Step) st st' :
  errorActions st <> [] -> withinLimit maxConcurrency st -> saturated maxConcurrency st ->
  step maxConcurrency s st = Some st' -> saturated maxConcurrency st'.
Proof.
  intros Hne Hin Hsat.
  destruct s as [fn|h action|fn outcome].
  1: exact (step_saturated maxConcurrency (CallAdd fn) st st' I Hin Hsat).
  1: exact (step_saturated maxConcurrency (CallOn h action) st st' I Hin Hsat).
  unfold step. destruct (decide (fn ∈ awaited st)) as [Hfn|]; [|discriminate].
  intros [= <-]. rewrite resume_cases.
  destruct Hin as (Hact & Hawait & Hcalls).
  assert (forall (h : Hook) (err : option JsValue),
            saturated maxConcurrency
              (attemptStart maxConcurrency (fire h err (settled fn st)))) as Hgoes.
  { intros h err. apply saturated_attemptStart.
    - destruct (order_fire h err (settled fn st)) as (_ & _ & _ & ->). simpl. lia.
    - destruct (order_fire h err (settled fn st)) as (_ & -> & _ & ->). simpl.
      destruct (queue st) as [|x q] eqn:Hq; [left; simpl; lia|].
      right. rewrite Hsat; [lia|]. congruence. }
  destruct outcome as [u|err]; [apply Hgoes|].
  destruct (errorActions st) eqn:E; [congruence|apply Hgoes].
Qed.

Lemma exec_saturated_handled (steps : list Step) : forall st st',
  errorActions st <> [] -> withinLimit maxConcurrency st -> saturated maxConcurrency st ->
  exec maxConcurrency steps st = Some st' -> saturated maxConcurrency st'.
Proof.
  induction steps as [|s steps IH]; intros st st' Hne Hin Hsat; simpl.
  - now intros [= <-].
  - destruct (step maxConcurrency s st) as [st1|] eqn:Hstep; [|discriminate].
    apply (IH st1 st').
    + exact (step_errorActions s st st1 Hne Hstep).
    + exact (step_withinLimit maxConcurrency s st st1 Hin Hstep).
    + exact (step_saturated_handled s st st1 Hne Hin Hsat Hstep).
Qed.

End RejectionFacts.

(** X13. For listeners that return (none of them throws): when a promise
    rejects and no error listener is registered, the error is thrown again
    and no waiting work is started: the queue and the work started are as
    before, and a slot stays free while work waits. The next [add] then
    starts the oldest work waiting, not the work added. *)
Theorem rejection_without_listener (maxConcurrency : Z) (st : PromiseQueue.State)
  (fn later first : PromiseQueue.Work) (rest : list PromiseQueue.Work) (e : JsValue) :
  withinLimit maxConcurrency st ->
  PromiseQueue.errorActions st = [] ->
  fn ∈ PromiseQueue.awaited st ->
  PromiseQueue.queue st = first :: rest ->
  exists st',
    PromiseQueue.step maxConcurrency (PromiseQueue.Settle fn (Thrown e)) st = Some st'
    /\ PromiseQueue.rethrown st' = PromiseQueue.rethrown st ++ [e]
    /\ PromiseQueue.queue st' = first :: rest
    /\ PromiseQueue.started st' = PromiseQueue.started st
    /\ PromiseQueue.getRunning st' < maxConcurrency
    /\ PromiseQueue.started (PromiseQueue.add maxConcurrency later st')
       = PromiseQueue.started st ++ [first]
    /\ PromiseQueue.queue (PromiseQueue.add maxConcurrency later st') = rest ++ [later].
Proof.
  intros (Hact & Hawait & Hcalls) Herr Hfn Hq.
  set (st' := PromiseQueue.setRethrown (PromiseQueue.rethrown st ++ [e]) (settled fn st)).
  assert (PromiseQueue.started (PromiseQueue.add maxConcurrency later st')
          = PromiseQueue.started st ++ [first]
          /\ PromiseQueue.queue (PromiseQueue.add maxConcurrency later st') = rest ++ [later])
    as Hadd.
  { destruct (add_cases maxConcurrency later st') as (new & -> & _).
    unfold PromiseQueue.setCalls. cbn [PromiseQueue.started PromiseQueue.queue].
    destruct (attemptStart_cases maxConcurrency
                (PromiseQueue.setQueue (PromiseQueue.queue st' ++ [later]) st'))
      as [(next & rest' & new' & _ & Hq' & _ & ->)|[[Hfull|Hempty] _]].
    - simpl in Hq'. rewrite Hq in Hq'. injection Hq' as <- <-. split; reflexivity.
    - simpl in Hfull. lia.
    - simpl in Hempty. rewrite Hq in Hempty. discriminate. }
  exists st'. split.
  { unfold PromiseQueue.step. destruct (decide (fn ∈ PromiseQueue.awaited st)); [|contradiction].
    rewrite resume_cases, Herr. reflexivity. }
  destruct Hadd as [Hstarted Hqueue].
  repeat split; try assumption.
  unfold PromiseQueue.getRunning. simpl. lia.
Qed.

Lemma rejection_without_listener_witness :
  let st := addAll 1 [PromiseQueue.work 1; PromiseQueue.work 2; PromiseQueue.work 3] in
  exists st',
    PromiseQueue.step 1 (PromiseQueue.Settle (PromiseQueue.work 1) (Thrown (JsError "lost"))) st
    = Some st'
    /\ PromiseQueue.rethrown st' = PromiseQueue.rethrown st ++ [JsError "lost"]
    /\ PromiseQueue.queue st' = [PromiseQueue.work 2; PromiseQueue.work 3]
    /\ PromiseQueue.started st' = PromiseQueue.started st
    /\ PromiseQueue.getRunning st' < 1
    /\ PromiseQueue.started (PromiseQueue.add 1 (PromiseQueue.work 4) st')
       = PromiseQueue.started st ++ [PromiseQueue.work 2]
    /\ PromiseQueue.queue (PromiseQueue.add 1 (PromiseQueue.work 4) st')
       = [PromiseQueue.work 3] ++ [PromiseQueue.work 4].
Proof.
  intros st.
  apply (rejection_without_listener 1 st (PromiseQueue.work 1) (PromiseQueue.work 4)
           (PromiseQueue.work 2) [PromiseQueue.work 3] (JsError "lost")).
  - repeat split; simpl; try lia. constructor.
  - reflexivity.
  - apply elem_of_cons. now left.
  - reflexivity.
Defined.

(** X14. For listeners that return (none of them throws): once an error
    listener is registered, rejections do not stop the queue: for every
    limit of at least 1 and every sequence of steps that follows the
    registration, promises that reject among them, work waits only while
    every slot is taken, and resolving the promises awaited has every work
    function added started, in the order it was added. *)
Theorem rejections_with_listener (maxConcurrency : Z) (action : nat)
  (steps : list PromiseQueue.Step) (st : PromiseQueue.State) :
  1 <= maxConcurrency ->
  PromiseQueue.exec maxConcurrency
    (PromiseQueue.CallOn PromiseQueue.OnError action :: steps) PromiseQueue.create = Some st ->
  saturated maxConcurrency st
  /\ let st' :=
       PromiseQueue.drain maxConcurrency
         (List.length (PromiseQueue.awaited st) + List.length (PromiseQueue.queue st)) st in
     PromiseQueue.started st' = added steps
     /\ PromiseQueue.queue st' = []
     /\ PromiseQueue.awaited st' = []
     /\ PromiseQueue.getRunning st' = 0.
Proof.
  intros Hmax Hexec.
  assert (0 <= maxConcurrency) as Hmax0 by lia.
  destruct (exec_invariants maxConcurrency _ PromiseQueue.create st
              (withinLimit_create maxConcurrency Hmax0) Hexec) as [Hin Horder].
  cbn [PromiseQueue.exec PromiseQueue.step] in Hexec.
  assert (saturated maxConcurrency st) as Hsat.
  { apply (exec_saturated_handled maxConcurrency steps _ st) in Hexec; [exact Hexec| | |].
    - discriminate.
    - now apply withinLimit_create.
    - intros Hq. now contradiction Hq. }
  split; [exact Hsat|].
  destruct (drain_all maxConcurrency
              (List.length (PromiseQueue.awaited st) + List.length (PromiseQueue.queue st))
              st Hmax Hin Hsat ltac:(lia)) as (H1 & H2 & H3 & H4).
  intros st'. subst st'. rewrite H1, Horder. now repeat split.
Qed.

Lemma rejections_with_listener_witness :
  let steps :=
    map PromiseQueue.CallAdd [PromiseQueue.work 1; PromiseQueue.work 2; PromiseQueue.work 3]
    ++ [PromiseQueue.Settle (PromiseQueue.work 1) (Thrown (JsError "lost"))] in
  match PromiseQueue.exec 1 (PromiseQueue.CallOn PromiseQueue.OnError 0%nat :: steps)
          PromiseQueue.create with
  | Some st =>
      saturated 1 st
      /\ PromiseQueue.started
           (PromiseQueue.drain 1
              (List.length (PromiseQueue.awaited st) + List.length (PromiseQueue.queue st)) st)
         = added steps
  | None => False
  end.
Proof.
  intros steps.
  destruct (PromiseQueue.exec 1 (PromiseQueue.CallOn PromiseQueue.OnError 0%nat :: steps)
              PromiseQueue.create) as [st|] eqn:Hexec;
    [|vm_compute in Hexec; discriminate].
  destruct (rejections_with_listener 1 0%nat steps st ltac:(lia) Hexec) as (Hsat & Hstarted & _).
  exact (conj Hsat Hstarted).
Defined.

(** ** The summary of a study *)

Section KeepFacts.
Context {V : Type}.
Variable Q : V -> Prop.

Lemma keeps_ret {A} (a : A) : keeps Q (ret a).
Proof. intros v Hv. exact Hv. Qed.

Lemma keeps_bind {A B} (m : Eff V A) (k : A -> Eff V B) :
  keeps Q m -> (forall a, keeps Q (k a)) -> keeps Q (bind m k).
Proof.
  intros Hm Hk v Hv. unfold bind. specialize (Hm v Hv).
  destruct (m v) as [[a|e] v']; simpl in *; [now apply Hk|exact Hm].
Qed.

Lemma keeps_tryCatch {A} (m : Eff V A) (handler : JsValue -> Eff V A) :
  keeps Q m -> (forall e, keeps Q (handler e)) -> keeps Q (tryCatch m handler).
Proof.
  intros Hm Hh v Hv. unfold tryCatch. specialize (Hm v Hv).
  destruct (m v) as [[a|e] v']; simpl in *; [exact Hm|now apply Hh].
Qed.

Lemma keeps_throw {A} (e : JsValue) : keeps Q (@throw V A e).
Proof. intros v Hv. exact Hv. Qed.

Lemma keeps_withResult {T U} `{Inspect T} `{Inspect U} (fn : T -> Eff V (ResultOr U))
  (input : ResultOr T) :
  (forall data, keeps Q (fn data)) -> keeps Q (withResult fn input).
Proof.
  intros Hfn. unfold withResult. cbv zeta.
  destruct (reading (asResult input)) as [data|[errors|]].
  - apply keeps_tryCatch; [|intros e; apply keeps_ret].
    apply keeps_bind; [apply Hfn|intros x; apply keeps_ret].
  - apply keeps_ret.
  - apply keeps_throw.
Qed.

Lemma keeps_withResultAsync {T U} `{Inspect T} `{Inspect U} (fn : T -> Eff V (ResultOr U))
  (input : ResultOr T) :
  (forall data, keeps Q (fn data)) -> keeps Q (withResultAsync fn input).
Proof. apply keeps_withResult. Qed.

Lemma keeps_mapEff {A B} (f : A -> Eff V B) (l : list A) :
  (forall a, keeps Q (f a)) -> keeps Q (mapEff f l).
Proof.
  intros Hf. induction l as [|x l IH]; simpl; [apply keeps_ret|].
  apply keeps_bind; [apply Hf|]. intros y.
  apply keeps_bind; [exact IH|]. intros ys. apply keeps_ret.
Qed.

End KeepFacts.

Section YieldFacts.
Context {V : Type}.

Lemma yields_ret {A} (P : A -> Prop) (a : A) : P a -> yields P (@ret V A a).
Proof. intros Ha v a' v' [= <- _]. exact Ha. Qed.

Lemma yields_bind {A B} (P : B -> Prop) (m : Eff V A) (k : A -> Eff V B) :
  (forall a, yields P (k a)) -> yields P (bind m k).
Proof.
  intros Hk v b v'. unfold bind. destruct (m v) as [[a|e] v1]; [apply Hk|discriminate].
Qed.

Lemma yields_bind_both {A B} (R : A -> Prop) (P : B -> Prop) (m : Eff V A) (k : A -> Eff V B) :
  yields R m -> (forall a, R a -> yields P (k a)) -> yields P (bind m k).
Proof.
  intros Hm Hk v b v'. unfold bind. destruct (m v) as [[a|e] v1] eqn:E; [|discriminate].
  apply Hk. exact (Hm _ _ _ E).
Qed.

Lemma yields_mapEff {A B} (P : B -> Prop) (f : A -> Eff V B) (l : list A) :
  (forall a, yields P (f a)) -> yields (Forall P) (mapEff f l).
Proof.
  intros Hf. induction l as [|x l IH]; simpl; [apply yields_ret; constructor|].
  apply (yields_bind_both P); [apply Hf|]. intros y Hy.
  apply (yields_bind_both (Forall P)); [exact IH|]. intros ys Hys.
  apply yields_ret. now constructor.
Qed.

(** What [withResult] returns is a Failure, or what the function returned,
    taken through [asResult]. *)
Lemma yields_withResult {T U} `{Inspect T} `{Inspect U} (P : ResultOr U -> Prop)
  (fn : T -> Eff V (ResultOr U)) (input : ResultOr T) :
  (forall errors, P (IsResult (Failure errors))) ->
  (forall data, yields (fun x => P (asResult x)) (fn data)) ->
  yields P (withResult fn input).
Proof.
  intros Hfailure Hfn v r v'. unfold withResult. cbv zeta.
  destruct (reading (asResult input)) as [data|[errors|]].
  - unfold tryCatch, bind, ret. destruct (fn data v) as [[x|e] v1] eqn:E; intros [= <- <-].
    + exact (Hfn _ _ _ _ E).
    + apply Hfailure.
  - unfold ret. intros [= <- <-]. apply Hfailure.
  - discriminate.
Qed.

End YieldFacts.

Section SummaryFacts.
Context {W : Type}.
Variable Q : MigrateStudy.Run W -> Prop.
Hypothesis Qworld : forall w run, Q run -> Q (MigrateStudy.setWorld w run).
Hypothesis Qskip : forall n run, Q run -> Q (skipRecords n run).
Hypothesis Qcount : forall r, keeps Q (MigrateStudy.countResult r).

Variable chain : TransformChain.TransformChain W.
Variable maxConcurrent : Z.
Variable updateAnalysis : Analysis -> Eff W (Result Analysis).
Variable migrate : list Analysis -> Eff W (ResultOr (list (ResultOr Analysis))).

Lemma keeps_outside {A} (m : Eff W A) : keeps Q (MigrateStudy.outside m).
Proof.
  intros run Hrun. unfold MigrateStudy.outside.
  destruct (m (MigrateStudy.world run)) as [a w]. simpl. now apply Qworld.
Qed.

Lemma keeps_filterEff (l : list Analysis) :
  keeps Q
    (MigrateStudy.filterEff
       (fun analysis =>
          do chainEnd <- MigrateStudy.pure (TransformChain.getEnd chain) ;;
          ret (version (analysisType analysis) <? version chainEnd)) l).
Proof.
  induction l as [|a l IH]; simpl; [apply keeps_ret|].
  apply keeps_bind.
  - apply keeps_bind; [|intros e; apply keeps_ret]. intros run Hrun. exact Hrun.
  - intros keep. apply keeps_bind; [exact IH|]. intros kept. apply keeps_ret.
Qed.

Lemma keeps_filterSkippedAnalyses (l : list Analysis) :
  keeps Q (MigrateStudy.filterSkippedAnalyses chain l).
Proof.
  unfold MigrateStudy.filterSkippedAnalyses. apply keeps_bind; [apply keeps_filterEff|].
  intros filtered run Hrun. simpl.
  exact (Qskip (Z.of_nat (List.length l) - Z.of_nat (List.length filtered)) run Hrun).
Qed.

Lemma keeps_pass (fetch : Eff (MigrateStudy.Run W) (Result PagedAnalysisResponse)) :
  keeps Q fetch ->
  keeps Q (MigrateStudy.pass chain maxConcurrent updateAnalysis
             (fun analyses => MigrateStudy.outside (migrate analyses)) fetch).
Proof.
  intros Hfetch. unfold MigrateStudy.pass. apply keeps_bind.
  - unfold MigrateStudy.pagePipeline, Pipe.asyncRun, Pipe.asyncAwait, Pipe.asyncInto,
      Pipe.asyncPipe, Pipe.resultStep.
    apply keeps_withResultAsync. intros ?.
    apply keeps_bind.
    + apply keeps_withResultAsync. intros ?.
      apply keeps_bind.
      * apply keeps_withResultAsync. intros ?.
        apply keeps_bind; [exact Hfetch|intros r; apply keeps_ret].
      * intros r. apply keeps_withResult. intros page.
        unfold MigrateStudy.applyMigrationsToPage, Pipe.build, Pipe.into, Pipe.pipe,
          Pipe.resultStep.
        apply keeps_withResult. intros ?.
        apply keeps_bind.
        -- apply keeps_withResult. intros ?.
           apply keeps_bind.
           ++ apply keeps_withResult. intros p. apply keeps_ret.
           ++ intros r'. apply keeps_withResult. intros l.
              apply keeps_bind; [apply keeps_filterSkippedAnalyses|].
              intros filtered. apply keeps_ret.
        -- intros r'. apply keeps_withResult. intros l. apply keeps_outside.
    + intros r. apply keeps_withResultAsync. intros results.
      apply keeps_bind; [|intros updated; apply keeps_ret].
      unfold MigrateStudy.mapAsync. apply keeps_mapEff. intros a.
      unfold MigrateStudy.sendAnalysisUpdate, MigrateStudy.limitConcurrency.
      apply keeps_withResultAsync. intros analysis.
      apply keeps_bind; [apply keeps_outside|intros r'; apply keeps_ret].
  - intros pageResult. destruct (made pageResult) as [data|errors];
      [|intros run Hrun; exact Hrun].
    apply keeps_bind; [|intros ?; apply keeps_ret].
    induction data as [|r data IH]; simpl; [apply keeps_ret|].
    apply keeps_bind; [apply Qcount|intros ?; exact IH].
Qed.

End SummaryFacts.

Section PassFacts.
Context {W : Type}.
Variable chain : TransformChain.TransformChain W.
Variable pageSize : Z.
Variable maxConcurrent : Z.
Variable getAnalysesPage : Z -> Z -> Eff W (Result PagedAnalysisResponse).
Variable updateAnalysis : Analysis -> Eff W (Result Analysis).
Variable migrate : list Analysis -> Eff (MigrateStudy.Run W) (ResultOr (list (ResultOr Analysis))).

(** The pipeline uses the fetch through what it returns and the state it
    leaves, and through nothing else. *)
Lemma pagePipeline_fetch (fetch fetch' : Eff (MigrateStudy.Run W) (Result PagedAnalysisResponse))
  (run run' : MigrateStudy.Run W) :
  fetch run = fetch' run' ->
  MigrateStudy.pagePipeline chain maxConcurrent updateAnalysis migrate fetch run
  = MigrateStudy.pagePipeline chain maxConcurrent updateAnalysis migrate fetch' run'.
Proof.
  intros Hsame.
  unfold MigrateStudy.pagePipeline, Pipe.asyncRun, Pipe.asyncAwait,
    Pipe.asyncInto, Pipe.asyncPipe, Pipe.resultStep.
  unfold bind.
  do 2 (rewrite (withResultAsync_success _ _ tt) by reflexivity).
  do 2 (rewrite (withResultAsync_success _ _ tt) by reflexivity).
  do 2 (rewrite (withResultAsync_success _ _ tt) by reflexivity).
  rewrite Hsame. reflexivity.
Qed.

Lemma pagePipeline_failed (fetch : Eff (MigrateStudy.Run W) (Result PagedAnalysisResponse))
  (run run1 : MigrateStudy.Run W) (errors : list string) :
  fetch run = (Returned (Failure errors), run1) ->
  MigrateStudy.pagePipeline chain maxConcurrent updateAnalysis migrate fetch run
  = (Returned (IsResult (Failure errors)), run1).
Proof.
  intros Hfetch.
  unfold MigrateStudy.pagePipeline, Pipe.asyncRun, Pipe.asyncAwait,
    Pipe.asyncInto, Pipe.asyncPipe, Pipe.resultStep.
  unfold bind, ret.
  rewrite (withResultAsync_success _ _ tt) by reflexivity.
  rewrite (withResultAsync_success _ _ tt) by reflexivity.
  rewrite (withResultAsync_success _ _ tt) by reflexivity.
  rewrite Hfetch. cbv beta iota. cbn [asResult].
  rewrite withResult_failure. cbv beta iota. cbn [asResult].
  rewrite withResultAsync_failure. reflexivity.
Qed.

Lemma pagePipeline_thrown (fetch : Eff (MigrateStudy.Run W) (Result PagedAnalysisResponse))
  (run run1 : MigrateStudy.Run W) (e : JsValue) :
  fetch run = (Thrown e, run1) ->
  MigrateStudy.pagePipeline chain maxConcurrent updateAnalysis migrate fetch run
  = (Returned (IsResult (Failure [unknownToString e])), run1).
Proof.
  intros Hfetch.
  unfold MigrateStudy.pagePipeline, Pipe.asyncRun, Pipe.asyncAwait,
    Pipe.asyncInto, Pipe.asyncPipe, Pipe.resultStep.
  unfold bind, ret.
  rewrite (withResultAsync_success _ _ tt) by reflexivity.
  rewrite (withResultAsync_success _ _ tt) by reflexivity.
  rewrite (withResultAsync_success _ _ tt) by reflexivity.
  rewrite Hfetch. cbv beta iota. cbn [asResult].
  rewrite withResult_failure. cbv beta iota. cbn [asResult].
  rewrite withResultAsync_failure. reflexivity.
Qed.

(** Every result of a page that the pipeline returns was made by [success]
    or [failure]: it is what [sendAnalysisUpdate] returned. *)
Lemma sendAnalysisUpdate_yields (input : ResultOr Analysis) :
  yields isMade (MigrateStudy.sendAnalysisUpdate maxConcurrent updateAnalysis input).
Proof.
  unfold MigrateStudy.sendAnalysisUpdate, MigrateStudy.limitConcurrency.
  rewrite withResultAsync_withResult. apply yields_withResult.
  - intros errors. now exists (Failure errors).
  - intros data. apply yields_bind. intros r. apply yields_ret. now exists r.
Qed.

Lemma pagePipeline_yields (fetch : Eff (MigrateStudy.Run W) (Result PagedAnalysisResponse)) :
  yields (fun pageResult =>
            match made pageResult with
            | Success data => Forall isMade data
            | Failure _ => True
            end)
    (MigrateStudy.pagePipeline chain maxConcurrent updateAnalysis migrate fetch).
Proof.
  unfold MigrateStudy.pagePipeline, Pipe.asyncRun, Pipe.asyncAwait, Pipe.asyncPipe.
  rewrite !withResultAsync_withResult.
  apply yields_withResult; [intros errors; exact I|]. intros [].
  apply yields_bind. intros fResult.
  apply yields_withResult; [intros errors; exact I|]. intros results.
  apply (yields_bind_both (Forall isMade)).
  - unfold MigrateStudy.mapAsync. apply yields_mapEff. apply sendAnalysisUpdate_yields.
  - intros updated Hupdated. apply yields_ret. exact Hupdated.
Qed.

Lemma forEach_countResult_made (data : list (ResultOr Analysis)) :
  Forall isMade data ->
  forall run : MigrateStudy.Run W,
  exists run', MigrateStudy.forEach MigrateStudy.countResult data run = (Returned tt, run').
Proof.
  induction 1 as [|r data (r' & ->) Hdata IH]; intros run; simpl; [unfold ret; eauto|].
  unfold bind at 1. rewrite countResult_made. apply IH.
Qed.

(** A pass returns, and returns the summary as it is then when it leaves
    the loop. *)
Lemma pass_returns (fetch : Eff (MigrateStudy.Run W) (Result PagedAnalysisResponse))
  (run : MigrateStudy.Run W) :
  exists o run',
    MigrateStudy.pass chain maxConcurrent updateAnalysis migrate fetch run = (Returned o, run')
    /\ (o = None \/ o = Some (MigrateStudy.summary run')).
Proof.
  unfold MigrateStudy.pass. unfold bind at 1.
  pose proof (pagePipeline_yields fetch run) as Hyields.
  destruct (MigrateStudy.pagePipeline chain maxConcurrent updateAnalysis migrate fetch run)
    as [[pageResult|e] run1] eqn:E.
  - specialize (Hyields pageResult run1 eq_refl).
    destruct (made pageResult) as [data|errors]; [|eauto].
    unfold bind at 1. destruct (forEach_countResult_made data Hyields run1) as (run' & ->).
    unfold ret. eauto.
  - exfalso. revert E.
    unfold MigrateStudy.pagePipeline, Pipe.asyncRun, Pipe.asyncAwait, Pipe.asyncPipe.
    match goal with
    | |- context [withResultAsync ?fn (Bare tt) run] =>
        destruct (withResult_returns fn (Bare tt) run) as (r & run2 & E');
        [discriminate|rewrite withResultAsync_withResult, E'; discriminate]
    end.
Qed.

(** A pass begins with the fetch; when the fetch fails or throws, the pass
    returns the summary and does nothing else. *)
Lemma pass_fetch_cases (fetch : Eff (MigrateStudy.Run W) (Result PagedAnalysisResponse))
  (run : MigrateStudy.Run W) :
  MigrateStudy.pass chain maxConcurrent updateAnalysis migrate fetch run
  = match fetch run with
    | (Returned (Success page), run1) =>
        MigrateStudy.pass chain maxConcurrent updateAnalysis migrate (ret (Success page)) run1
    | (Returned (Failure errors), run1) => (Returned (Some (MigrateStudy.summary run1)), run1)
    | (Thrown e, run1) => (Returned (Some (MigrateStudy.summary run1)), run1)
    end.
Proof.
  unfold MigrateStudy.pass. unfold bind at 1.
  destruct (fetch run) as [[[page|errors]|e] run1] eqn:Hfetch.
  - unfold bind at 1.
    now rewrite (pagePipeline_fetch fetch (ret (Success page)) run run1).
  - now rewrite (pagePipeline_failed fetch run run1 errors Hfetch).
  - now rewrite (pagePipeline_thrown fetch run run1 e Hfetch).
Qed.

Lemma fetchNextPage_cases (run : MigrateStudy.Run W) :
  MigrateStudy.fetchNextPage pageSize getAnalysesPage run
  = match getAnalysesPage (MigrateStudy.nextOffset run) pageSize (MigrateStudy.world run) with
    | (Returned (Success page), w') =>
        (Returned (Success page),
         {| MigrateStudy.summary :=
              if MigrateStudy.logged run then MigrateStudy.summary run
              else
                MigrateStudy.setCounts
                  {| MigrateStudy.successful :=
                       MigrateStudy.successful (MigrateStudy.counts (MigrateStudy.summary run));
                     MigrateStudy.error :=
                       MigrateStudy.error (MigrateStudy.counts (MigrateStudy.summary run));
                     MigrateStudy.skipped :=
                       MigrateStudy.skipped (MigrateStudy.counts (MigrateStudy.summary run));
                     MigrateStudy.processed :=
                       MigrateStudy.processed (MigrateStudy.counts (MigrateStudy.summary run));
                     MigrateStudy.total := Song.totalAnalyses page |}
                  (MigrateStudy.summary run);
            MigrateStudy.totalAnalyses := Song.totalAnalyses page;
            MigrateStudy.nextOffset := MigrateStudy.nextOffset run + pageSize;
            MigrateStudy.logged := true;
            MigrateStudy.world := w' |})
    | (Returned (Failure errors), w') => (Returned (Failure errors), MigrateStudy.setWorld w' run)
    | (Thrown e, w') => (Thrown e, MigrateStudy.setWorld w' run)
    end.
Proof.
  unfold MigrateStudy.fetchNextPage, bind, MigrateStudy.outside, MigrateStudy.oneTimeLogger.
  destruct (getAnalysesPage _ _ _) as [[[page|errors]|e] w']; try reflexivity.
  simpl. destruct (MigrateStudy.logged run) eqn:Hl; simpl; [|reflexivity].
  unfold MigrateStudy.setWorld. simpl. now rewrite Hl.
Qed.

End PassFacts.

Section LoopFacts.
Context {W : Type}.
Variable chain : TransformChain.TransformChain W.
Variable pageSize : Z.
Variable maxConcurrent : Z.
Variable getAnalysesPage : Z -> Z -> Eff W (Result PagedAnalysisResponse).
Variable updateAnalysis : Analysis -> Eff W (Result Analysis).
Variable migrate : list Analysis -> Eff W (ResultOr (list (ResultOr Analysis))).

Let onePass := StudyLoop.onePass chain pageSize maxConcurrent getAnalysesPage updateAnalysis migrate.

(** The summary is touched by the filter, by the one-time logger and by the
    count of the results, and the variables of the loop by the fetch. *)
Lemma onePass_keeps (Q : MigrateStudy.Run W -> Prop) :
  (forall w run, Q run -> Q (MigrateStudy.setWorld w run)) ->
  (forall n run, Q run -> Q (skipRecords n run)) ->
  (forall r, keeps Q (MigrateStudy.countResult r)) ->
  keeps Q (MigrateStudy.fetchNextPage pageSize getAnalysesPage) ->
  keeps Q onePass.
Proof.
  intros Qworld Qskip Qcount Qfetch.
  apply (keeps_pass Q Qworld Qskip Qcount). exact Qfetch.
Qed.

Lemma onePass_failed_page (run : MigrateStudy.Run W) :
  match getAnalysesPage (MigrateStudy.nextOffset run) pageSize (MigrateStudy.world run) with
  | (Returned (Success _), _) => True
  | (Returned (Failure _), w') | (Thrown _, w') =>
      onePass run = (Returned (Some (MigrateStudy.summary run)), MigrateStudy.setWorld w' run)
  end.
Proof.
  unfold onePass, StudyLoop.onePass. rewrite pass_fetch_cases, fetchNextPage_cases.
  destruct (getAnalysesPage _ _ _) as [[[page|errors]|e] w']; [exact I|reflexivity|reflexivity].
Qed.

Lemma onePass_balanced (s : string) :
  keeps (fun run => balanced (MigrateStudy.counts (MigrateStudy.summary run))
                    /\ MigrateStudy.study (MigrateStudy.summary run) = s) onePass.
Proof.
  apply onePass_keeps.
  - intros w run H. exact H.
  - intros n run [H Hs]. split; [|exact Hs]. unfold balanced in *. simpl. lia.
  - intros r run [H Hs]. unfold MigrateStudy.countResult.
    destruct (reading r) as [data|[errors|]]; (split; [|exact Hs]); unfold balanced in *;
      simpl; lia.
  - intros run [H Hs]. rewrite fetchNextPage_cases.
    destruct (getAnalysesPage _ _ _) as [[[page|errors]|e] w']; simpl; try (split; assumption).
    destruct (MigrateStudy.logged run); simpl; split; assumption.
Qed.

Lemma onePass_result (run run' : MigrateStudy.Run W)
  (o : Outcome (option MigrateStudy.MigrationSummary)) :
  onePass run = (o, run') ->
  o = Returned None \/ o = Returned (Some (MigrateStudy.summary run')).
Proof.
  unfold onePass, StudyLoop.onePass.
  match goal with
  | |- MigrateStudy.pass _ _ _ ?migrate ?fetch run = _ -> _ =>
      destruct (pass_returns chain maxConcurrent updateAnalysis migrate fetch run)
        as (o' & run1 & -> & Ho)
  end.
  intros [= <- <-]. destruct Ho as [->| ->]; [now left|now right].
Qed.

Lemma onePass_continues (run run' : MigrateStudy.Run W) :
  onePass run = (Returned None, run') ->
  exists page w',
    getAnalysesPage (MigrateStudy.nextOffset run) pageSize (MigrateStudy.world run)
    = (Returned (Success page), w')
    /\ MigrateStudy.nextOffset run' = MigrateStudy.nextOffset run + pageSize
    /\ MigrateStudy.totalAnalyses run' = Song.totalAnalyses page.
Proof.
  unfold onePass, StudyLoop.onePass. rewrite pass_fetch_cases, fetchNextPage_cases.
  destruct (getAnalysesPage _ _ _) as [[[page|errors]|e] w']; try discriminate.
  intros Hpass. exists page, w'. split; [reflexivity|].
  pose proof (keeps_pass
                (fun r => MigrateStudy.nextOffset r = MigrateStudy.nextOffset run + pageSize
                          /\ MigrateStudy.totalAnalyses r = Song.totalAnalyses page)
                ltac:(intros w0 r H; exact H) ltac:(intros n r H; exact H)
                ltac:(intros x r H; unfold MigrateStudy.countResult;
                      destruct (reading x) as [?|[?|]]; exact H)
                chain maxConcurrent updateAnalysis migrate (ret (Success page))
                (keeps_ret _ _)) as Hkeeps.
  match type of Hpass with
  | _ ?run1 = _ => specialize (Hkeeps run1 (conj eq_refl eq_refl))
  end.
  rewrite Hpass in Hkeeps. exact Hkeeps.
Qed.

Lemma loop_ends (N : Z) (s : string) :
  1 <= pageSize ->
  (forall offset w0 page w1,
      getAnalysesPage offset pageSize w0 = (Returned (Success page), w1) ->
      Song.totalAnalyses page <= N) ->
  forall (fuel : nat) (run : MigrateStudy.Run W),
  balanced (MigrateStudy.counts (MigrateStudy.summary run)) ->
  MigrateStudy.study (MigrateStudy.summary run) = s ->
  MigrateStudy.totalAnalyses run <= N ->
  N - MigrateStudy.nextOffset run <= Z.of_nat fuel ->
  exists summary run',
    StudyLoop.loop chain pageSize maxConcurrent getAnalysesPage updateAnalysis migrate fuel run
    = (Returned (Some summary), run')
    /\ balanced (MigrateStudy.counts summary)
    /\ MigrateStudy.study summary = s.
Proof.
  intros Hsize Hpages. induction fuel as [|fuel IH]; intros run Hbal Hstudy Htotal Hfuel.
  - simpl. destruct (Z.ltb_spec (MigrateStudy.nextOffset run) (MigrateStudy.totalAnalyses run));
      [lia|]. eauto.
  - cbn [StudyLoop.loop].
    destruct (Z.ltb_spec (MigrateStudy.nextOffset run) (MigrateStudy.totalAnalyses run));
      [|eauto].
    fold onePass.
    pose proof (onePass_balanced s run (conj Hbal Hstudy)) as Hkept.
    destruct (onePass run) as [o run'] eqn:Hpass. simpl in Hkept. destruct Hkept as [Hbal' Hs'].
    destruct (onePass_result run run' o Hpass) as [->| ->]; [|eauto].
    destruct (onePass_continues run run' Hpass) as (page & w' & Hget & Hoffset & Htotal').
    apply IH; try assumption.
    + rewrite Htotal'. eapply Hpages, Hget.
    + lia.
Qed.

End LoopFacts.

(** X15. One pass of the loop keeps the summary balanced: if every record
    counted as processed before the pass was counted once as successful, in
    error or skipped, the same holds after it, whatever the page request, the
    migration and the updates do. *)
Theorem pass_keeps_balance {W} (chain : TransformChain.TransformChain W)
  (pageSize maxConcurrent : Z)
  (getAnalysesPage : Z -> Z -> Eff W (Result PagedAnalysisResponse))
  (updateAnalysis : Analysis -> Eff W (Result Analysis))
  (migrate : list Analysis -> Eff W (ResultOr (list (ResultOr Analysis))))
  (run : MigrateStudy.Run W) :
  balanced (MigrateStudy.counts (MigrateStudy.summary run)) ->
  balanced
    (MigrateStudy.counts
       (MigrateStudy.summary
          (snd (StudyLoop.onePass chain pageSize maxConcurrent getAnalysesPage updateAnalysis
                  migrate run)))).
Proof.
  intros Hbal.
  apply (onePass_balanced chain pageSize maxConcurrent getAnalysesPage updateAnalysis migrate
           (MigrateStudy.study (MigrateStudy.summary run)) run).
  split; [exact Hbal|reflexivity].
Qed.

Lemma pass_keeps_balance_witness :
  balanced
    (MigrateStudy.counts
       (MigrateStudy.summary
          (snd (StudyLoop.onePass {| TransformChain.chain := [keep 1 2] |} 2 5
                  (fun _ _ => ret (Success (pageOf [sample 1; sample 2; foreign 1])))
                  (fun analysis => ret (success analysis))
                  (fun analyses => ret (Bare (map Bare analyses)))
                  freshRun)))).
Proof.
  apply pass_keeps_balance. reflexivity.
Defined.

(** X16. When the page request returns a Failure or throws, the pass returns
    the summary as it was and the loop is left: no count, the offset and the
    total of the loop are as before, and nothing is migrated or updated (the
    world is as the request left it). *)
Theorem failed_page_changes_nothing {W} (chain : TransformChain.TransformChain W)
  (pageSize maxConcurrent : Z)
  (getAnalysesPage : Z -> Z -> Eff W (Result PagedAnalysisResponse))
  (updateAnalysis : Analysis -> Eff W (Result Analysis))
  (migrate : list Analysis -> Eff W (ResultOr (list (ResultOr Analysis))))
  (run : MigrateStudy.Run W) :
  match getAnalysesPage (MigrateStudy.nextOffset run) pageSize (MigrateStudy.world run) with
  | (Returned (Success _), _) => True
  | (Returned (Failure _), w') | (Thrown _, w') =>
      StudyLoop.onePass chain pageSize maxConcurrent getAnalysesPage updateAnalysis migrate run
      = (Returned (Some (MigrateStudy.summary run)), MigrateStudy.setWorld w' run)
  end.
Proof.
  exact (onePass_failed_page chain pageSize maxConcurrent getAnalysesPage updateAnalysis migrate
           run).
Qed.

(** X17. With a page size of at least 1 and page requests that never report
    more than [N] analyses, the loop ends: given as many passes as the larger
    of [N] and 1, the study returns a summary, for the study asked, in which
    every record processed is counted once as successful, in error or
    skipped. *)
Theorem study_loop_ends {W} (chain : TransformChain.TransformChain W)
  (pageSize maxConcurrent : Z)
  (getAnalysesPage : Z -> Z -> Eff W (Result PagedAnalysisResponse))
  (updateAnalysis : Analysis -> Eff W (Result Analysis))
  (migrate : list Analysis -> Eff W (ResultOr (list (ResultOr Analysis))))
  (N : Z) (fuel : nat) (study : string) (w : W) :
  1 <= pageSize ->
  (forall offset w0 page w1,
      getAnalysesPage offset pageSize w0 = (Returned (Success page), w1) ->
      Song.totalAnalyses page <= N) ->
  (Z.to_nat (Z.max N 1) <= fuel)%nat ->
  exists summary run',
    StudyLoop.migrateAndUpdateStudy chain pageSize maxConcurrent getAnalysesPage updateAnalysis
      migrate fuel study w
    = (Returned (Some summary), run')
    /\ balanced (MigrateStudy.counts summary)
    /\ MigrateStudy.study summary = study.
Proof.
  intros Hsize Hpages Hfuel. unfold StudyLoop.migrateAndUpdateStudy.
  apply (loop_ends chain pageSize maxConcurrent getAnalysesPage updateAnalysis migrate
           (Z.max N 1) study Hsize).
  - intros offset w0 page w1 Hget. specialize (Hpages offset w0 page w1 Hget). lia.
  - reflexivity.
  - reflexivity.
  - simpl. lia.
  - simpl. lia.
Qed.

Lemma study_loop_ends_witness :
  exists summary run',
    StudyLoop.migrateAndUpdateStudy {| TransformChain.chain := [keep 1 2] |} 2 5
      (fun _ _ => ret (Success (pageOf [sample 1; sample 2; foreign 1])))
      (fun analysis => ret (success analysis))
      (fun analyses => ret (Bare (map Bare analyses)))
      3 "study" tt
    = (Returned (Some summary), run')
    /\ balanced (MigrateStudy.counts summary)
    /\ MigrateStudy.study summary = "study".
Proof.
  apply (study_loop_ends (W:=unit) {| TransformChain.chain := [keep 1 2] |} 2 5
           (fun _ _ => ret (Success (pageOf [sample 1; sample 2; foreign 1])))
           (fun analysis => ret (success analysis))
           (fun analyses => ret (Bare (map Bare analyses))) 3 3 "study" tt).
  - lia.
  - intros offset w0 page w1 [= <- _]. simpl. lia.
  - simpl. lia.
Defined.

(** X18. The first page is always requested, at offset 0 with the page size
    as limit; when that request returns a Failure or throws, the study
    returns a summary that is not completed and in which every count is 0. *)
Theorem first_page_is_requested {W} (chain : TransformChain.TransformChain W)
  (pageSize maxConcurrent : Z)
  (getAnalysesPage : Z -> Z -> Eff W (Result PagedAnalysisResponse))
  (updateAnalysis : Analysis -> Eff W (Result Analysis))
  (migrate : list Analysis -> Eff W (ResultOr (list (ResultOr Analysis))))
  (fuel : nat) (study : string) (w : W) :
  match getAnalysesPage 0 pageSize w with
  | (Returned (Success _), _) => True
  | (Returned (Failure _), w') | (Thrown _, w') =>
      StudyLoop.migrateAndUpdateStudy chain pageSize maxConcurrent getAnalysesPage
        updateAnalysis migrate (S fuel) study w
      = (Returned
           (Some {| MigrateStudy.study := study;
                    MigrateStudy.completed := false;
                    MigrateStudy.counts :=
                      {| MigrateStudy.successful := 0; MigrateStudy.error := 0;
                         MigrateStudy.skipped := 0; MigrateStudy.processed := 0;
                         MigrateStudy.total := 0 |} |}),
         StudyLoop.setup study w')
  end.
Proof.
  pose proof (onePass_failed_page chain pageSize maxConcurrent getAnalysesPage
                updateAnalysis migrate (StudyLoop.setup study w)) as H.
  unfold StudyLoop.migrateAndUpdateStudy. cbn [StudyLoop.loop].
  simpl MigrateStudy.nextOffset in *. simpl MigrateStudy.totalAnalyses. simpl MigrateStudy.world in H.
  destruct (getAnalysesPage 0 pageSize w) as [[[page|errors]|e] w']; [exact I| |];
    simpl Z.ltb; cbv iota; rewrite H; reflexivity.
Qed.

Section FieldFacts.

Lemma getField_setField (key other : string) (value : JsValue) fields :
  getField other (setField key value fields)
  = if decide (other = key) then Some value else getField other fields.
Proof.
  induction fields as [|[k v] rest IH]; simpl.
  - destruct (decide (key = other)), (decide (other = key)); congruence.
  - destruct (decide (k = key)) as [->|Hk]; simpl.
    + destruct (decide (key = other)), (decide (other = key)); congruence.
    + destruct (decide (k = other)) as [->|Ho].
      * destruct (decide (other = key)); congruence.
      * exact IH.
Qed.

Lemma getField_setField_eq (key : string) (value : JsValue) fields :
  getField key (setField key value fields) = Some value.
Proof. rewrite getField_setField. now destruct (decide (key = key)). Qed.

Lemma getField_setField_ne (key other : string) (value : JsValue) fields :
  other <> key -> getField other (setField key value fields) = getField other fields.
Proof. intros H. rewrite getField_setField. now destruct (decide (other = key)). Qed.

Lemma keys_setField (key : string) (value old : JsValue) fields :
  getField key fields = Some old -> (setField key value fields).*1 = fields.*1.
Proof.
  induction fields as [|[k v] rest IH]; simpl; [discriminate|].
  destruct (decide (k = key)) as [->|Hk]; [reflexivity|].
  intros H. rewrite !fmap_cons. f_equal. now apply IH.
Qed.

Lemma setField_same (key : string) (value : JsValue) fields :
  getField key fields = Some value -> setField key value fields = fields.
Proof.
  induction fields as [|[k v] rest IH]; simpl; [discriminate|].
  destruct (decide (k = key)) as [->|Hk]; [now intros [= ->]|].
  intros H. now rewrite IH.
Qed.

End FieldFacts.

Section TransformFacts.
Context {W : Type}.
Variable CS_NAME : string.

Lemma defined_apply (versions : Versions) (transform : Analysis -> Result Analysis)
  (analysis : Analysis) (w : W) :
  apply (defineTransform versions (fun analysis => ret (transform analysis))) analysis w
  = (Returned
       (if negb (isEqual (analysisType analysis) (vstart versions)) then
          failure [JsString "Analysis type does not match expected input type"]
        else
          match transform analysis with
          | Failure errors =>
              failure [JsString "Error applying transform"; versionsToJs versions;
                       failureToJs errors]
          | Success data => success (withAnalysisType data (vend versions))
          end), w).
Proof.
  unfold defineTransform, apply. destruct (negb _); [reflexivity|].
  unfold bind, ret. now destruct (transform analysis).
Qed.

Lemma typed (analysis : Analysis) (n : Z) :
  bool_decide (name (analysisType analysis) = CS_NAME) && (version (analysisType analysis) =? n)
  = isEqual (analysisType analysis) {| name := CS_NAME; version := n |}.
Proof.
  destruct (analysisType analysis) as [nm v]. simpl. unfold isEqual.
  destruct (Z.eqb_spec v n) as [->|Hv].
  - rewrite andb_true_r. apply bool_decide_ext. split; [now intros ->|now intros [= ->]].
  - rewrite andb_false_r. symmetry. apply bool_decide_eq_false. now intros [= _ ?].
Qed.

Lemma cs12to13_safeParse (analysis : Analysis) (input : Cs12to13.InputSchema) :
  Cs12to13.safeParse CS_NAME analysis = Some input
  <-> analysisType analysis = {| name := CS_NAME; version := 12 |}
      /\ stringAt "experiment" "purpose_of_sequencing" analysis
           (Cs12to13.experiment input) (Cs12to13.purpose_of_sequencing input)
      /\ stringAt "sample_collection" "anatomical_part" analysis
           (Cs12to13.sample_collection input) (Cs12to13.anatomical_part input).
Proof.
  unfold Cs12to13.safeParse, stringAt. rewrite typed. split.
  - intros H. repeat case_match; try discriminate. injection H as <-. simpl.
    split; [now apply isEqual_true|]. now repeat split.
  - intros (Ht & [-> ->] & [-> ->]). apply isEqual_true in Ht as ->.
    now destruct input.
Qed.

Lemma cs3to4_safeParse (analysis : Analysis) (input : Cs3to4.InputSchema) :
  Cs3to4.safeParse CS_NAME analysis = Some input
  <-> analysisType analysis = {| name := CS_NAME; version := 3 |}
      /\ stringAt "sample_collection" "fasta_header_name" analysis
           (Cs3to4.sample_collection input) (Cs3to4.fasta_header_name input).
Proof.
  unfold Cs3to4.safeParse, stringAt. rewrite typed. split.
  - intros H. repeat case_match; try discriminate. injection H as <-. simpl.
    split; [now apply isEqual_true|]. now repeat split.
  - intros (Ht & [-> ->]). apply isEqual_true in Ht as ->.
    now destruct input.
Qed.

Lemma cs5to6_safeParse (analysis : Analysis) (input : Cs5to6.InputSchema) :
  Cs5to6.safeParse CS_NAME analysis = Some input ->
  analysisType analysis = {| name := CS_NAME; version := 5 |}
  /\ getField "host" (document analysis) = Some (JsObject (Cs5to6.host input))
  /\ getField "host_age" (Cs5to6.host input) = Some (Cs5to6.ageToJs (Cs5to6.host_age input))
  /\ getField "host_age_bin" (Cs5to6.host input) = Some (JsString (Cs5to6.host_age_bin input))
  /\ Cs5to6.host_age_bin input ∈ Cs5to6.host_age_bins.
Proof.
  unfold Cs5to6.safeParse. rewrite typed. intros H.
  destruct (isEqual _ _) eqn:Ht; [|discriminate]. apply isEqual_true in Ht.
  destruct (getField "host" _) as [[| | | | | |fields]|]; try discriminate.
  destruct (getField "host_age" fields) as [age|] eqn:Hage; [|discriminate].
  destruct (Cs5to6.nullableNumber (Some age)) as [parsed|] eqn:Hparsed; [|discriminate].
  destruct (getField "host_age_bin" fields) as [[| | |bin| | |]|] eqn:Hbin; try discriminate.
  destruct (bool_decide (bin ∈ Cs5to6.host_age_bins)) eqn:Hin; [|discriminate].
  apply bool_decide_eq_true in Hin. injection H as <-. simpl.
  repeat split; try assumption.
  rewrite Hage. destruct age; simpl in Hparsed; try discriminate; now injection Hparsed as <-.
Qed.

End TransformFacts.

(** X19. The transform of version 12 to 13 returns in every case and leaves
    the world alone. Its result is a Success exactly for an analysis of the
    family at version 12 whose [experiment.purpose_of_sequencing] and
    [sample_collection.anatomical_part] are strings; the analysis returned is
    then at version 13, has each of the two strings as the one element of an
    array, and is otherwise the analysis given: same identifiers, same fields
    in the same order, every other field with the value it had. *)
Theorem cs12to13_wraps_strings {W} (CS_NAME : string) (analysis : Analysis) (w : W) :
  match apply (Cs12to13.cs12to13 CS_NAME) analysis w with
  | (Returned (Success out), w') =>
      w' = w
      /\ analysisType analysis = {| name := CS_NAME; version := 12 |}
      /\ analysisType out = {| name := CS_NAME; version := 13 |}
      /\ analysisId out = analysisId analysis
      /\ studyId out = studyId analysis
      /\ wrappedAt "experiment" "purpose_of_sequencing" analysis out
      /\ wrappedAt "sample_collection" "anatomical_part" analysis out
      /\ (forall other, other <> "experiment" -> other <> "sample_collection" ->
          getField other (document out) = getField other (document analysis))
      /\ (document out).*1 = (document analysis).*1
  | (Returned (Failure _), w') =>
      w' = w
      /\ ~ (analysisType analysis = {| name := CS_NAME; version := 12 |}
            /\ (exists fields value,
                  stringAt "experiment" "purpose_of_sequencing" analysis fields value)
            /\ (exists fields value,
                  stringAt "sample_collection" "anatomical_part" analysis fields value))
  | (Thrown _, _) => False
  end.
Proof.
  unfold Cs12to13.cs12to13. rewrite defined_apply. cbn [vstart vend].
  destruct (isEqual _ _) eqn:Ht; cbn [negb].
  - unfold Cs12to13.transform.
    destruct (Cs12to13.safeParse CS_NAME analysis) as [input|] eqn:Hparse.
    + apply cs12to13_safeParse in Hparse as (Htype & He & Hs).
      pose proof He as [He1 He2]. pose proof Hs as [Hs1 Hs2].
      cbn -[getField setField]. unfold assignFields. cbn [fold_left fst snd].
      split; [reflexivity|]. split; [exact Htype|]. split; [reflexivity|].
      split; [reflexivity|]. split; [reflexivity|].
      unfold wrappedAt.
      cbn [document withAnalysisType assign cloneDeep assignFields fold_left fst snd].
      split; [|split; [|split]].
      * eexists _, _, _. split; [exact He|].
        split; [apply getField_setField_eq|].
        split; [apply getField_setField_eq|].
        split; [intros other Ho; now apply getField_setField_ne|].
        eapply keys_setField, He2.
      * eexists _, _, _. split; [exact Hs|].
        split; [rewrite getField_setField_ne by discriminate; apply getField_setField_eq|].
        split; [apply getField_setField_eq|].
        split; [intros other Ho; now apply getField_setField_ne|].
        eapply keys_setField, Hs2.
      * intros other Ho1 Ho2. now rewrite !getField_setField_ne.
      * erewrite keys_setField; [eapply keys_setField, Hs1|].
        rewrite getField_setField_ne by discriminate. exact He1.
    + cbn. split; [reflexivity|].
      intros (Htype & (f1 & v1 & H1) & (f2 & v2 & H2)).
      assert (Cs12to13.safeParse CS_NAME analysis
              = Some {| Cs12to13.experiment := f1; Cs12to13.purpose_of_sequencing := v1;
                        Cs12to13.sample_collection := f2; Cs12to13.anatomical_part := v2 |})
        as Hsome by (apply cs12to13_safeParse; simpl; auto).
      congruence.
  - cbn. split; [reflexivity|]. intros (Htype & _). apply isEqual_false in Ht. contradiction.
Qed.

(** X20. The transform of version 3 to 4 only validates. It returns in every
    case and leaves the world alone; its result is a Success exactly for an
    analysis of the family at version 3 whose
    [sample_collection.fasta_header_name] is a string that passes the regular
    expression, and the analysis returned is then the analysis given with
    version 4 as its type: the document is not changed. *)
Theorem cs3to4_only_validates {W} (CS_NAME : string) (test : string -> bool)
  (analysis : Analysis) (w : W) :
  match apply (Cs3to4.cs3to4 CS_NAME test) analysis w with
  | (Returned (Success out), w') =>
      w' = w /\ headerPasses CS_NAME test analysis
      /\ out = withAnalysisType analysis {| name := CS_NAME; version := 4 |}
  | (Returned (Failure _), w') => w' = w /\ ~ headerPasses CS_NAME test analysis
  | (Thrown _, _) => False
  end.
Proof.
  unfold headerPasses.
  unfold Cs3to4.cs3to4. rewrite defined_apply. cbn [vstart vend].
  destruct (isEqual _ _) eqn:Ht; cbn [negb].
  - unfold Cs3to4.transform.
    destruct (Cs3to4.safeParse CS_NAME analysis) as [input|] eqn:Hparse.
    + apply cs3to4_safeParse in Hparse as (Htype & Hs). pose proof Hs as [Hs1 Hs2].
      cbv zeta. destruct (test (Cs3to4.fasta_header_name input)) eqn:Htest; cbn [negb].
      * cbn -[getField setField]. unfold assignFields. cbn [fold_left fst snd].
        split; [reflexivity|]. split; [split; [exact Htype|eauto]|].
        unfold withAnalysisType, assign, cloneDeep, assignFields.
        cbn [document analysisType analysisId studyId fold_left fst snd].
        rewrite (setField_same "fasta_header_name" _ _ Hs2).
        rewrite (setField_same "sample_collection" _ _ Hs1). reflexivity.
      * cbn. split; [reflexivity|]. intros (_ & fields & header & [H1 H2] & Hok).
        rewrite Hs1 in H1. injection H1 as <-. rewrite Hs2 in H2. injection H2 as <-.
        congruence.
    + cbn. split; [reflexivity|]. intros (Htype & fields & header & Hs & _).
      assert (Cs3to4.safeParse CS_NAME analysis
              = Some {| Cs3to4.sample_collection := fields;
                        Cs3to4.fasta_header_name := header |})
        as Hsome by (apply cs3to4_safeParse; simpl; auto).
      congruence.
  - cbn. split; [reflexivity|]. intros (Htype & _). apply isEqual_false in Ht. contradiction.
Qed.

(** Membership of a given string in a given list of strings, by evaluation. *)
Ltac listed := apply (bool_decide_unpack _); vm_compute; exact I.
Ltac unlisted H := apply (bool_decide_pack _) in H; vm_compute in H; destruct H.

Section AgeFacts.

Lemma isValidAgeBin_true (min max : Z) (age : option Z) :
  Cs5to6.isValidAgeBin min max age = true
  <-> age = None \/ exists a, age = Some a /\ min <= a <= max.
Proof.
  destruct age as [a|]; simpl.
  - rewrite andb_true_iff, !Z.leb_le. split.
    + intros H. right. now exists a.
    + intros [H|(b & [= <-] & H)]; [discriminate|exact H].
  - split; [now left|reflexivity].
Qed.

Lemma validator_decade (bin : string) (min max : Z) :
  (bin, (min, max)) ∈ decadeBins ->
  Cs5to6.getAgeBinValidator bin = Cs5to6.isValidAgeBin min max.
Proof.
  intros H. unfold decadeBins in H.
  repeat (apply elem_of_cons in H as [[= -> -> ->]|H]); [..|by apply elem_of_nil in H];
    reflexivity.
Qed.

Lemma validator_within (bin : string) (min max : Z) (age : option Z)
  (host : list (string * JsValue)) :
  (bin, (min, max)) ∈ decadeBins ->
  Cs5to6.getAgeBinValidator bin age = true ->
  getField "host_age" host = Some (Cs5to6.ageToJs age) ->
  ageWithin min max host.
Proof.
  intros Hbin Hvalid Hage. rewrite (validator_decade _ _ _ Hbin) in Hvalid.
  apply isValidAgeBin_true in Hvalid as [->|(a & -> & Ha)].
  - now left.
  - right. now exists a.
Qed.

Lemma decadeBins_names (bin : string) (min max : Z) :
  (bin, (min, max)) ∈ decadeBins ->
  bin ∈ ["0 - 9"; "10 - 19"; "20 - 29"; "30 - 39"; "40 - 49"; "50 - 59"; "60 - 69"; "70 - 79";
         "80 - 89"].
Proof.
  intros H. unfold decadeBins in H.
  repeat (apply elem_of_cons in H as [[= -> -> ->]|H]); [..|by apply elem_of_nil in H];
    listed.
Qed.

End AgeFacts.

(** X21. The validator of a decade bin reads the decade off the first
    character of the name of the bin; for each of the nine decade bins it
    accepts [null] and the ages that the name of the bin gives, bounds
    included, and no other age. *)
Theorem decade_bins_validate (bin : string) (min max : Z) (age : option Z) :
  (bin, (min, max)) ∈ decadeBins ->
  (Cs5to6.getAgeBinValidator bin age = true
   <-> age = None \/ exists a, age = Some a /\ min <= a <= max).
Proof.
  intros H. rewrite (validator_decade _ _ _ H). apply isValidAgeBin_true.
Qed.

Lemma decade_bins_validate_witness :
  Cs5to6.getAgeBinValidator "30 - 39" (Some 39) = true
  <-> Some 39 = None \/ exists a, Some 39 = Some a /\ 30 <= a <= 39.
Proof.
  apply (decade_bins_validate "30 - 39" 30 39 (Some 39)).
  listed.
Defined.

(** X22. Every analysis that the transform of version 5 to 6 returns is at
    version 6 and has a host whose age bin is neither [90 - 99] nor [100+].
    When the bin is [90+] the age is [null] and the reason for it is
    [Restricted Access]; otherwise the document is the one given. When the
    bin is one of the nine decade bins the age is [null] or lies in the
    decade. *)
Theorem cs5to6_result_ages {W} (CS_NAME : string) (analysis out : Analysis) (w w' : W) :
  apply (Cs5to6.cs5to6 CS_NAME) analysis w = (Returned (Success out), w') ->
  analysisType out = {| name := CS_NAME; version := 6 |}
  /\ exists host bin,
       getField "host" (document out) = Some (JsObject host)
       /\ getField "host_age_bin" host = Some (JsString bin)
       /\ bin <> "90 - 99" /\ bin <> "100+"
       /\ (bin = "90+" ->
           getField "host_age" host = Some JsNull
           /\ getField "host_age_null_reason" host = Some (JsString "Restricted Access"))
       /\ (bin <> "90+" -> document out = document analysis)
       /\ (forall min max, (bin, (min, max)) ∈ decadeBins -> ageWithin min max host).
Proof.
  unfold Cs5to6.cs5to6. rewrite defined_apply. cbn [vstart vend]. intros H.
  destruct (isEqual _ _) eqn:Ht; cbn [negb] in H; [|discriminate].
  unfold Cs5to6.transform in H.
  destruct (Cs5to6.safeParse CS_NAME analysis) as [input|] eqn:Hparse; [|discriminate].
  apply cs5to6_safeParse in Hparse as (Htype & Hhost & Hage & Hbin & Hin).
  destruct (bool_decide (Cs5to6.host_age_bin input ∈ _)) eqn:Hdecade in H.
  - destruct (Cs5to6.getAgeBinValidator _ _) eqn:Hvalid in H; [|discriminate].
    injection H as <- <-. split; [reflexivity|].
    apply bool_decide_eq_true in Hdecade.
    exists (Cs5to6.host input), (Cs5to6.host_age_bin input).
    split; [exact Hhost|]. split; [exact Hbin|].
    repeat split.
    + intros E. rewrite E in Hdecade. unlisted Hdecade.
    + intros E. rewrite E in Hdecade. unlisted Hdecade.
    + rewrite H in Hdecade. unlisted Hdecade.
    + rewrite H in Hdecade. unlisted Hdecade.
    + intros min max Hm. eapply validator_within; eassumption.
  - apply bool_decide_eq_false in Hdecade.
    destruct (bool_decide (Cs5to6.host_age_bin input ∈ _)) eqn:Hold in H.
    + injection H as <- <-. split; [reflexivity|].
      unfold withAnalysisType, assign, cloneDeep, assignFields.
      cbn [document analysisType analysisId studyId fold_left fst snd].
      eexists _, "90+". split; [apply getField_setField_eq|].
      split; [apply getField_setField_eq|].
      split; [discriminate|]. split; [discriminate|].
      split; [|split].
      * intros _. split.
        -- rewrite !getField_setField_ne by discriminate. apply getField_setField_eq.
        -- rewrite getField_setField_ne by discriminate. apply getField_setField_eq.
      * intros E. now contradiction E.
      * intros min max Hm. apply decadeBins_names in Hm. unlisted Hm.
    + injection H as <- <-. split; [reflexivity|].
      apply bool_decide_eq_false in Hold.
      exists (Cs5to6.host input), (Cs5to6.host_age_bin input).
      split; [exact Hhost|]. split; [exact Hbin|].
      split; [intros E; apply Hold; rewrite E; listed|].
      split; [intros E; apply Hold; rewrite E; listed|].
      split; [|split].
      * intros E. rewrite E in Hin. unlisted Hin.
      * reflexivity.
      * intros min max Hm. apply decadeBins_names in Hm. contradiction.
Qed.

Lemma cs5to6_result_ages_witness :
  exists out,
    apply (Cs5to6.cs5to6 (W:=unit) "consensus_sequence") (hosted 5 (JsNumber 95) "90 - 99") tt
    = (Returned (Success out), tt)
    /\ analysisType out = cs 6
    /\ exists host bin,
         getField "host" (document out) = Some (JsObject host)
         /\ getField "host_age_bin" host = Some (JsString bin)
         /\ bin <> "90 - 99" /\ bin <> "100+"
         /\ (bin = "90+" ->
             getField "host_age" host = Some JsNull
             /\ getField "host_age_null_reason" host = Some (JsString "Restricted Access"))
         /\ (bin <> "90+" -> document out = document (hosted 5 (JsNumber 95) "90 - 99"))
         /\ (forall min max, (bin, (min, max)) ∈ decadeBins -> ageWithin min max host).
Proof.
  eexists. split; [reflexivity|].
  apply (cs5to6_result_ages (W:=unit) "consensus_sequence" (hosted 5 (JsNumber 95) "90 - 99")
           _ tt tt).
  reflexivity.
Defined.

Section EgoFacts.
Context {W : Type}.

Lemma held_Some (variable : option string) (value : string) :
  Ego.held variable = Some value <-> variable = Some value /\ value <> "".
Proof.
  unfold Ego.held, truthy, truthy_string. destruct variable as [[|c rest]|].
  - split; [discriminate|]. intros [[= <-] H]. now contradiction H.
  - split; [intros [= <-]; split; [reflexivity|discriminate]|].
    now intros [[= <-] _].
  - split; [discriminate|]. intros [H _]. discriminate.
Qed.

Lemma getPublicKey_returns (fetchPublicKey : unit -> Eff W (Result string))
  (client : Ego.Client W) :
  (forall w, exists r w', fetchPublicKey tt w = (Returned r, w')) ->
  exists r client',
    Ego.getPublicKey fetchPublicKey client = (Returned r, client')
    /\ Ego.token client' = Ego.token client.
Proof.
  intros Hfetch. unfold Ego.getPublicKey.
  destruct (Ego.held (Ego.publicKey client)) as [key|]; [now eexists _, _|].
  unfold bind, Ego.outside.
  destruct (Hfetch (Ego.world client)) as (r & w' & ->).
  destruct r as [data|errors]; now eexists _, _.
Qed.

End EgoFacts.

(** X23. The public key is fetched once: after a call of [getPublicKey] that
    returned a key that is not the empty string, a further call returns the
    same key and makes no request, the state and the number of requests made
    being as the first call left them. *)
Theorem publicKey_fetched_once {W} (fetchPublicKey : unit -> Eff W (Result string))
  (client client' : Ego.Client (nat * W)) (key : string) :
  Ego.getPublicKey (counted fetchPublicKey) client = (Returned (Success key), client') ->
  key <> "" ->
  Ego.getPublicKey (counted fetchPublicKey) client' = (Returned (Success key), client').
Proof.
  unfold Ego.getPublicKey. intros Hfirst Hkey.
  assert (Ego.held (Ego.publicKey client') = Some key) as ->; [|reflexivity].
  apply held_Some. split; [|exact Hkey].
  destruct (Ego.held (Ego.publicKey client)) as [stored|] eqn:Hheld.
  - injection Hfirst as <- <-. now apply held_Some in Hheld.
  - unfold bind, Ego.outside in Hfirst.
    destruct (counted fetchPublicKey tt (Ego.world client)) as [[[data|errors]|e] w'];
      try discriminate.
    now injection Hfirst as <- <-.
Qed.

Lemma publicKey_fetched_once_witness :
  Ego.getPublicKey (counted (fun _ : unit => ret (success "key")))
    {| Ego.publicKey := Some "key"; Ego.token := None; Ego.world := (1%nat, tt) |}
  = (Returned (Success "key"),
     {| Ego.publicKey := Some "key"; Ego.token := None; Ego.world := (1%nat, tt) |}).
Proof.
  apply (publicKey_fetched_once (fun _ : unit => ret (success "key"))
           {| Ego.publicKey := None; Ego.token := None; Ego.world := (0%nat, tt) |}).
  - reflexivity.
  - discriminate.
Defined.

(** X24. When the two requests of the client return, [getClientToken]
    returns, whatever [jwt.verify] does: what it throws for the stored token
    is caught. A token returned in a Success is the token the client then
    has stored, and after a Failure the stored token is the one there was. *)
Theorem client_token_is_stored {W} (appCredentials : option (string * string))
  (fetchPublicKey fetchClientToken : unit -> Eff W (Result string))
  (verify : string -> string -> Eff W bool) (client : Ego.Client W) :
  (forall w, exists r w', fetchPublicKey tt w = (Returned r, w')) ->
  (forall w, exists r w', fetchClientToken tt w = (Returned r, w')) ->
  exists r client',
    Ego.getClientToken appCredentials fetchPublicKey fetchClientToken verify client
    = (Returned r, client')
    /\ (forall t, r = Success t -> Ego.token client' = Some t)
    /\ (isSuccess r = false -> Ego.token client' = Ego.token client).
Proof.
  intros Hkey Htoken. unfold Ego.getClientToken.
  destruct appCredentials as [credentials|].
  - unfold bind at 1.
    destruct (getPublicKey_returns fetchPublicKey client Hkey) as (r & c1 & -> & Hc1).
    destruct r as [key|errors].
    + unfold bind at 1. unfold tryCatch.
      destruct (Ego.held (Ego.token c1)) as [t|] eqn:Hheld.
      * apply held_Some in Hheld as [Hstored _].
        unfold bind at 1. unfold Ego.outside at 1.
        destruct (verify t key (Ego.world c1)) as [[[|]|e] w2]; cbn [ret].
        -- eexists _, _. split; [reflexivity|]. split; [|discriminate].
           intros t' [= <-]. exact Hstored.
        -- unfold bind, Ego.outside. cbn [Ego.world Ego.setWorld].
           destruct (Htoken w2) as ([data|errors] & w3 & ->).
           ++ eexists _, _. split; [reflexivity|]. split; [|discriminate].
              now intros t' [= <-].
           ++ eexists _, _. split; [reflexivity|]. split; [discriminate|].
              intros _. simpl. congruence.
        -- unfold bind, Ego.outside. cbn [Ego.world Ego.setWorld].
           destruct (Htoken w2) as ([data|errors] & w3 & ->).
           ++ eexists _, _. split; [reflexivity|]. split; [|discriminate].
              now intros t' [= <-].
           ++ eexists _, _. split; [reflexivity|]. split; [discriminate|].
              intros _. simpl. congruence.
      * cbn [ret]. unfold bind, Ego.outside.
        destruct (Htoken (Ego.world c1)) as ([data|errors] & w3 & ->).
        -- eexists _, _. split; [reflexivity|]. split; [|discriminate].
           now intros t' [= <-].
        -- eexists _, _. split; [reflexivity|]. split; [discriminate|].
           intros _. simpl. congruence.
    + eexists _, _. split; [reflexivity|]. split; [discriminate|]. intros _. exact Hc1.
  - eexists _, _. split; [reflexivity|]. split; [discriminate|]. reflexivity.
Qed.

Lemma client_token_is_stored_witness :
  exists r client',
    Ego.getClientToken (Some ("id", "secret")) (fun _ => ret (success "key"))
      (fun _ => ret (success "new")) (fun _ _ => throw (JsError "jwt expired"))
      {| Ego.publicKey := None; Ego.token := Some "old"; Ego.world := tt |}
    = (Returned r, client')
    /\ (forall t, r = Success t -> Ego.token client' = Some t)
    /\ (isSuccess r = false
        -> Ego.token client'
           = Ego.token {| Ego.publicKey := None; Ego.token := Some "old"; Ego.world := tt |}).
Proof.
  apply (client_token_is_stored (W:=unit)).
  - intros w. now eexists _, _.
  - intros w. now eexists _, _.
Defined.
